(** * compute_sales.py: the sales accumulator and its entry point

    A shallow embedding of [src/compute_sales.py].  The values the program
    handles are the ones [json.load] produces, so the development starts with
    a small model of those values and of the Python operations the program
    applies to them (truth value, subscripting, [dict.get], hashing of
    dictionary keys, [*], [+], string formatting), each with the exception
    CPython raises.  [calculate_total_cost] and [main] follow, written after
    the source line by line: [calculate_total_cost] as a function of two
    values and, for what it does to its arguments, once more over a store of
    objects; [main] with a trace of what it reads, writes and prints. *)

From Stdlib Require Import ZArith String Ascii List Lia SpecFloat.
From stdpp Require Import base option list gmap strings pretty.

Local Open Scope string_scope.
Local Open Scope Z_scope.
Local Open Scope list_scope.

(** ** Exceptions and results *)

Inductive exn : Type :=
  | TypeError
  | KeyError
  | AttributeError
  | OverflowError
  | MemoryError
  | ValueError
  | OSError
  | UnicodeDecodeError
  | UnicodeEncodeError
  | RecursionError
  | SystemError.

Inductive result (A : Type) : Type :=
  | Ok (a : A)
  | Raise (e : exn).

Arguments Ok {A} a.
Arguments Raise {A} e.

(** Sequencing: an exception raised by the first computation propagates.
    With these instances [x ← r; k] is stdpp's notation for it. *)
#[global] Instance result_ret : MRet result := λ A a, Ok a.
#[global] Instance result_bind : MBind result := λ A B k r,
  match r with
  | Ok a => k a
  | Raise e => Raise e
  end.

#[global] Instance exn_eq_dec : EqDecision exn.
Proof. solve_decision. Defined.

(** ** Binary64 floats

    Python floats are IEEE 754 binary64 numbers; [spec_float] with precision
    53 and exponent bound 1024 is the Standard Library's executable
    specification of them (round to nearest, ties to even). *)

Module Float.

Definition prec : Z := 53.
Definition emax : Z := 1024.

Definition mul : spec_float → spec_float → spec_float := SFmul prec emax.
Definition add : spec_float → spec_float → spec_float := SFadd prec emax.

(** The float nearest to [m * 2^e]. *)
Definition make (m e : Z) : spec_float := binary_normalize prec emax m e false.


(** Integers from [2^1024 - 2^970] on round to infinity. *)
Definition overflow_threshold : Z := 2 ^ 1024 - 2 ^ 970.

(** [float(z)] for a Python int: [OverflowError: int too large to convert
    to float] when the nearest float is not finite. *)
Definition of_int (z : Z) : result spec_float :=
  if Z.abs z <? overflow_threshold then Ok (make z 0) else Raise OverflowError.

Definition is_zero (f : spec_float) : bool :=
  match f with S754_zero _ => true | _ => false end.


(** The integer a float is equal to, when there is one. *)
Definition to_integer (f : spec_float) : option Z :=
  match f with
  | S754_zero _ => Some 0
  | S754_finite s m e =>
      let n := if s then Z.neg m else Z.pos m in
      if 0 <=? e then Some (n * 2 ^ e)
      else if n mod 2 ^ (- e) =? 0 then Some (n / 2 ^ (- e))
      else None
  | _ => None
  end.

(** *** [repr] of a float

    CPython prints the shortest decimal string that reads back as the same
    float and, among those, the one nearest to it.  The float [m * 2^e] and
    the ends of its rounding interval are kept in quarters of a unit in the
    last place, as fractions [_ * scale_num / scale_den] of [10^k]. *)

Definition scale_num (e k : Z) : Z := 2 ^ Z.max (e - 2) 0 * 10 ^ Z.max (- k) 0.
Definition scale_den (e k : Z) : Z := 2 ^ Z.max (2 - e) 0 * 10 ^ Z.max k 0.

(** The integer [d] for which [d * 10^k] reads back as [m * 2^e], nearest to
    it, if there is one. *)
Definition candidate (m e k : Z) : option Z :=
  let a := scale_num e k in
  let b := scale_den e k in
  let v := 4 * m * a in
  let lo := (4 * m - (if (m =? 2 ^ 52) && (-1074 <? e) then 1 else 2)) * a in
  let hi := (4 * m + 2) * a in
  let inside d :=
    (0 <? d) &&
    (if Z.even m then (lo <=? d * b) && (d * b <=? hi)
     else (lo <? d * b) && (d * b <? hi)) in
  let d0 := v / b in
  let d1 := d0 + 1 in
  match inside d0, inside d1 with
  | true, true =>
      Some (if 2 * v <? (2 * d0 + 1) * b then d0
            else if (2 * d0 + 1) * b <? 2 * v then d1
            else if Z.even d0 then d0 else d1)
  | true, false => Some d0
  | false, true => Some d1
  | false, false => None
  end.

(** The largest [k] at or below the start that has a candidate. *)
Fixpoint shortest (fuel : nat) (m e k : Z) : Z * Z :=
  match fuel with
  | O => (m, 0)
  | S fuel =>
      match candidate m e k with
      | Some d => (d, k)
      | None => shortest fuel m e (k - 1)
      end
  end.

(** The digits and the position of the decimal point; the search starts
    above the decimal exponent of [m * 2^e] and needs at most 17 digits. *)
Definition digits (m e : Z) : string * Z :=
  let '(d, k) := shortest 64 m e ((e + 54) * 30103 / 100000 + 2) in
  let ds := pretty d in
  (ds, Z.of_nat (String.length ds) + k).

Fixpoint zeros (n : nat) : string :=
  match n with
  | O => ""
  | S n => String "0" (zeros n)
  end.

Definition repr_finite (m e : Z) : string :=
  let '(ds, decpt) := digits m e in
  let n := Z.of_nat (String.length ds) in
  if (decpt <=? -4) || (16 <? decpt) then
    let x := decpt - 1 in
    let mant := match ds with
                | String c "" => String c ""
                | String c rest => String c ("." +:+ rest)
                | "" => ""
                end in
    mant +:+ "e" +:+ (if x <? 0 then "-" else "+")
         +:+ (if Z.abs x <? 10 then "0" else "") +:+ pretty (Z.abs x)
  else if decpt <=? 0 then "0." +:+ zeros (Z.to_nat (- decpt)) +:+ ds
  else if n <=? decpt then ds +:+ zeros (Z.to_nat (decpt - n)) +:+ ".0"
  else substring 0 (Z.to_nat decpt) ds +:+ "." +:+
       substring (Z.to_nat decpt) (Z.to_nat (n - decpt)) ds.

Definition repr (f : spec_float) : string :=
  match f with
  | S754_zero s => if s then "-0.0" else "0.0"
  | S754_infinity s => if s then "-inf" else "inf"
  | S754_nan => "nan"
  | S754_finite s m e => (if s then "-" else "") +:+ repr_finite (Z.pos m) e
  end.

(** *** Fixed-point formatting

    [format(f, '.pf')]: the exact value rounded to [p] decimals, ties to
    even, with the sign kept on a result that rounds to zero. *)

Definition round_half_even (n d : Z) : Z :=
  let q := n / d in
  let r := n mod d in
  if 2 * r <? d then q
  else if d <? 2 * r then q + 1
  else if Z.even q then q else q + 1.

Definition fixed_digits (p : nat) (q : Z) : string :=
  let unit := 10 ^ Z.of_nat p in
  let frac := pretty (q mod unit) in
  pretty (q / unit) +:+
  match p with
  | O => ""
  | _ => "." +:+ zeros (p - String.length frac) +:+ frac
  end.

Definition format_fixed (p : nat) (f : spec_float) : string :=
  match f with
  | S754_zero s => (if s then "-" else "") +:+ fixed_digits p 0
  | S754_infinity s => if s then "-inf" else "inf"
  | S754_nan => "nan"
  | S754_finite s m e =>
      (if s then "-" else "") +:+
      fixed_digits p
        (round_half_even (Z.pos m * 2 ^ Z.max e 0 * 10 ^ Z.of_nat p) (2 ^ Z.max (- e) 0))
  end.

End Float.

(** ** Values

    What [json.load] returns: [None], booleans, integers of any size, floats,
    strings, lists and dictionaries with string keys.  A string is the
    sequence of its code points, one character each, so its length is
    Python's [len]; the characters of the model are the code points below
    256.  A dictionary is a finite map, so a key occurs once. *)

#[warnings="-register-all"]
Inductive pyval : Type :=
  | PNone
  | PBool (b : bool)
  | PInt (z : Z)
  | PFloat (f : spec_float)
  | PStr (s : string)
  | PList (l : list pyval)
  | PDict (d : gmap string pyval).

(** [bool(v)]: [None], [False], zero of either kind and empty containers are
    false, everything else (NaN too) is true. *)
Definition py_bool (v : pyval) : bool :=
  match v with
  | PNone => false
  | PBool b => b
  | PInt z => negb (z =? 0)
  | PFloat f => negb (Float.is_zero f)
  | PStr s => negb (String.eqb s "")
  | PList l => match l with [] => false | _ => true end
  | PDict d => match map_to_list d with [] => false | _ => true end
  end.

(** [iter(v)]: the elements of a list, the characters of a string, the keys
    of a dictionary (here in the order of the map's enumeration, in Python in
    insertion order); other values are not iterable. *)
Definition py_iter (v : pyval) : result (list pyval) :=
  match v with
  | PList l => Ok l
  | PStr s => Ok ((λ c, PStr (String c "")) <$> list_ascii_of_string s)
  | PDict d => Ok ((λ kv, PStr kv.1) <$> map_to_list d)
  | _ => Raise TypeError
  end.

(** [v[key]] for a string key: only a dictionary can be subscripted by a
    string, and a missing key is a [KeyError]. *)
Definition py_getitem (v : pyval) (key : string) : result pyval :=
  match v with
  | PDict d =>
      match d !! key with
      | Some x => Ok x
      | None => Raise KeyError
      end
  | _ => Raise TypeError
  end.

(** [v.get(key)]: among the values of JSON only dictionaries have a [get]
    method; a missing key gives [None]. *)
Definition py_get (v : pyval) (key : string) : result pyval :=
  match v with
  | PDict d => Ok (default PNone (d !! key))
  | _ => Raise AttributeError
  end.

(** ** Arithmetic *)

Inductive number : Type :=
  | NInt (z : Z)
  | NFloat (f : spec_float).

(** [bool] is a subclass of [int]: [True] is 1 and [False] is 0. *)
Definition as_number (v : pyval) : option number :=
  match v with
  | PBool b => Some (NInt (Z.b2z b))
  | PInt z => Some (NInt z)
  | PFloat f => Some (NFloat f)
  | _ => None
  end.

Definition is_number (v : pyval) : bool :=
  match as_number v with Some _ => true | None => false end.

(** Values with [__index__]. *)
Definition as_index (v : pyval) : option Z :=
  match v with
  | PBool b => Some (Z.b2z b)
  | PInt z => Some z
  | _ => None
  end.

Definition is_sequence (v : pyval) : bool :=
  match v with PStr _ | PList _ => true | _ => false end.

Definition PY_SSIZE_T_MAX : Z := 2 ^ 63 - 1.

Fixpoint string_repeat (n : nat) (s : string) : string :=
  match n with
  | O => ""
  | S n => s +:+ string_repeat n s
  end.

Fixpoint list_repeat {A : Type} (n : nat) (l : list A) : list A :=
  match n with
  | O => []
  | S n => l ++ list_repeat n l
  end.

(** *** The machine

    A repetition builds a new string or list whose size a few bytes of input
    decide, so whether the machine has the memory for it is part of the
    behaviour.  The machine is what answers a request for a string of so
    many characters or a list of so many items; the other allocations of the
    program are in proportion to its input and are taken to succeed. *)

Inductive request : Type :=
  | NewString (chars : Z)
  | NewList (items : Z).

Class Machine := allocates : request → bool.

Section Accumulator.

Context {machine : Machine}.

(** [s * n] for a string or list [s], as [unicode_repeat] and [list_repeat]
    do it.  The count must be an int that fits a [Py_ssize_t].  A count below
    1 gives the empty sequence, a count of 1 the string itself; a string too
    long to index is an [OverflowError], a list too long a [MemoryError];
    then the result is allocated, or that is a [MemoryError]. *)
Definition seq_repeat (s n : pyval) : result pyval :=
  match as_index n with
  | None => Raise TypeError
  | Some c =>
      if (c <? - PY_SSIZE_T_MAX - 1) || (PY_SSIZE_T_MAX <? c) then Raise OverflowError
      else
        match s with
        | PStr s =>
            let len := Z.of_nat (String.length s) in
            if c <=? 0 then Ok (PStr "")
            else if c =? 1 then Ok (PStr s)
            else if PY_SSIZE_T_MAX / c <? len then Raise OverflowError
            else if len =? 0 then Ok (PStr "")
            else if allocates (NewString (len * c))
            then Ok (PStr (string_repeat (Z.to_nat c) s))
            else Raise MemoryError
        | PList l =>
            let len := Z.of_nat (length l) in
            if (len =? 0) || (c <=? 0) then Ok (PList [])
            else if PY_SSIZE_T_MAX / c <? len then Raise MemoryError
            else if allocates (NewList (len * c))
            then Ok (PList (list_repeat (Z.to_nat c) l))
            else Raise MemoryError
        | _ => Raise TypeError
        end
  end.

Definition num_mul (x y : number) : result pyval :=
  match x, y with
  | NInt a, NInt b => Ok (PInt (a * b))
  | NInt a, NFloat g => f ← Float.of_int a; Ok (PFloat (Float.mul f g))
  | NFloat f, NInt b => g ← Float.of_int b; Ok (PFloat (Float.mul f g))
  | NFloat f, NFloat g => Ok (PFloat (Float.mul f g))
  end.

Definition num_add (x y : number) : result pyval :=
  match x, y with
  | NInt a, NInt b => Ok (PInt (a + b))
  | NInt a, NFloat g => f ← Float.of_int a; Ok (PFloat (Float.add f g))
  | NFloat f, NInt b => g ← Float.of_int b; Ok (PFloat (Float.add f g))
  | NFloat f, NFloat g => Ok (PFloat (Float.add f g))
  end.

(** [v * w]: numbers multiply; otherwise a sequence on either side is
    repeated; anything else is a [TypeError]. *)
Definition py_mul (v w : pyval) : result pyval :=
  match as_number v, as_number w with
  | Some x, Some y => num_mul x y
  | _, _ =>
      if is_sequence v then seq_repeat v w
      else if is_sequence w then seq_repeat w v
      else Raise TypeError
  end.

(** [v + w]: numbers add, two strings or two lists concatenate. *)
Definition py_add (v w : pyval) : result pyval :=
  match as_number v, as_number w with
  | Some x, Some y => num_add x y
  | _, _ =>
      match v, w with
      | PStr s, PStr t => Ok (PStr (s +:+ t))
      | PList l, PList k => Ok (PList (l ++ k))
      | _, _ => Raise TypeError
      end
  end.

(** ** Dictionary keys *)

(** The hashable values: lists and dictionaries are not. *)
Inductive atom : Type :=
  | ANone
  | ABool (b : bool)
  | AInt (z : Z)
  | AFloat (f : spec_float)
  | AStr (s : string).

(** [hash(v)], as far as it can fail: [TypeError: unhashable type]. *)
Definition py_hash (v : pyval) : result atom :=
  match v with
  | PNone => Ok ANone
  | PBool b => Ok (ABool b)
  | PInt z => Ok (AInt z)
  | PFloat f => Ok (AFloat f)
  | PStr s => Ok (AStr s)
  | PList _ | PDict _ => Raise TypeError
  end.

(** [str(a)], which is what an f-string field without a format writes. *)
Definition py_str (a : atom) : string :=
  match a with
  | ANone => "None"
  | ABool b => if b then "True" else "False"
  | AInt z => pretty z
  | AFloat f => Float.repr f
  | AStr s => s
  end.

(** Keys of a dictionary up to Python's [==]: [True == 1 == 1.0], so numbers
    equal to an integer are that integer.  The floats that are left are equal
    only to themselves; NaN, which [json] reads as one shared object, is
    found by identity. *)
Inductive hkey : Type :=
  | HNone
  | HInt (z : Z)
  | HFloat (f : spec_float)
  | HStr (s : string).

Definition key_of (a : atom) : hkey :=
  match a with
  | ANone => HNone
  | ABool b => HInt (Z.b2z b)
  | AInt z => HInt z
  | AFloat f =>
      match Float.to_integer f with
      | Some z => HInt z
      | None => HFloat f
      end
  | AStr s => HStr s
  end.

#[global] Instance spec_float_eq_dec : EqDecision spec_float.
Proof. solve_decision. Defined.

#[global] Instance spec_float_countable : Countable spec_float.
Proof.
  refine (inj_countable'
    (λ f, match f with
          | S754_zero s => inl (inl s)
          | S754_infinity s => inl (inr s)
          | S754_nan => inr (inl ())
          | S754_finite s m e => inr (inr (s, m, e))
          end)
    (λ x, match x with
          | inl (inl s) => S754_zero s
          | inl (inr s) => S754_infinity s
          | inr (inl _) => S754_nan
          | inr (inr (s, m, e)) => S754_finite s m e
          end) _).
  by intros [].
Defined.

#[global] Instance hkey_eq_dec : EqDecision hkey.
Proof. solve_decision. Defined.

#[global] Instance hkey_countable : Countable hkey.
Proof.
  refine (inj_countable'
    (λ k, match k with
          | HNone => inl (inl ())
          | HInt z => inl (inr z)
          | HFloat f => inr (inl f)
          | HStr s => inr (inr s)
          end)
    (λ x, match x with
          | inl (inl _) => HNone
          | inl (inr z) => HInt z
          | inr (inl f) => HFloat f
          | inr (inr s) => HStr s
          end) _).
  by intros [].
Defined.

(** [format(v, '.pf')]: an int is converted to a float first; a string has
    no such format code, the other values no format at all. *)
Definition py_format_f (p : nat) (v : pyval) : result string :=
  match as_number v with
  | Some (NInt z) => f ← Float.of_int z; Ok (Float.format_fixed p f)
  | Some (NFloat f) => Ok (Float.format_fixed p f)
  | None =>
      match v with
      | PStr _ => Raise ValueError
      | _ => Raise TypeError
      end
  end.

(** ** Input and output

    What the program does to the outside is kept as a trace of the
    operations that were carried out, in order; the system decides what a
    path holds and whether an operation raises, given what came before. *)

(** What opening and parsing a named file gives: the two failures the
    loader catches, any other exception of [open] or [json.load] (a
    directory, no permission, bytes that are not UTF-8, nesting too deep),
    or the parsed document. *)
Inductive file : Type :=
  | NotFound
  | InvalidJSON
  | Unreadable (e : exn)
  | Json (v : pyval).

Inductive output : Type :=
  | PrintError (line : string)
  | OpenResults
  | WriteResults (text : string)
  | CloseResults
  | Print (line : string).

Record system : Type := {
  read : string → file;
  fails : list output → output → option exn
}.

(** Computations with a trace: an exception leaves the trace as it is. *)
Definition io (A : Type) : Type := list output → result A * list output.

#[global] Instance io_ret : MRet io := λ A a trace, (Ok a, trace).

#[global] Instance io_bind : MBind io := λ A B k m trace,
  match m trace with
  | (Ok a, trace') => k a trace'
  | (Raise e, trace') => (Raise e, trace')
  end.

Definition lift {A : Type} (r : result A) : io A := λ trace, (r, trace).

Definition perform (sys : system) (op : output) : io unit := λ trace,
  match fails sys trace op with
  | Some e => (Raise e, trace)
  | None => (Ok (), trace ++ [op])
  end.

Fixpoint for_each {A : Type} (l : list A) (body : A → io unit) : io unit :=
  match l with
  | [] => mret ()
  | x :: l => body x;; for_each l body
  end.

Definition newline : string := String "010" "".

(** ** [load_json_file]

    Both failures that are caught print one line on [stderr] and return
    [None]; any other exception goes through. *)
Definition load_json_file (sys : system) (filename : string) : io pyval :=
  match read sys filename with
  | Json v => mret v
  | NotFound =>
      perform sys
        (PrintError ("Error: The file '" +:+ filename +:+ "' was not found."));;
      mret PNone
  | InvalidJSON =>
      perform sys
        (PrintError ("Error: The file '" +:+ filename +:+ "' contains invalid JSON."));;
      mret PNone
  | Unreadable e => lift (Raise e)
  end.

(** ** [calculate_total_cost] *)

Definition missing_product_warning : string :=
  "Warning: Sale record with a missing product name.".

Definition not_listed_warning (product : atom) : string :=
  "Warning: '" +:+ py_str product +:+ "' is not listed in the price catalogue.".

Definition invalid_price_error (product : atom) : string :=
  "Error: Invalid price format for '" +:+ py_str product +:+ "'.".

(** [{item["title"]: item["price"] for item in price_catalogue}]: a later
    item with an equal title overwrites the price. *)
Fixpoint build_price_dict (price_dict : gmap hkey pyval) (items : list pyval)
  : result (gmap hkey pyval) :=
  match items with
  | [] => Ok price_dict
  | item :: items =>
      title ← py_getitem item "title";
      price ← py_getitem item "price";
      key ← py_hash title;
      build_price_dict (<[key_of key := price]> price_dict) items
  end.

(** The body of the loop, on [(total_cost, errors)].  Only a [TypeError] of
    [total_cost += price * quantity] is caught; the assignment has not
    happened then, so the total is the old one. *)
Definition process_sale (price_dict : gmap hkey pyval)
    (state : pyval * list string) (sale : pyval) : result (pyval * list string) :=
  let '(total_cost, errors) := state in
  product ← py_get sale "Product";
  quantity ← py_get sale "Quantity";
  if negb (py_bool product) then
    Ok (total_cost, errors ++ [missing_product_warning])
  else
    key ← py_hash product;
    match price_dict !! key_of key with
    | None => Ok (total_cost, errors ++ [not_listed_warning key])
    | Some price =>
        match (x ← py_mul price quantity; py_add total_cost x) with
        | Ok total => Ok (total, errors)
        | Raise TypeError => Ok (total_cost, errors ++ [invalid_price_error key])
        | Raise e => Raise e
        end
    end.

Fixpoint process_sales (price_dict : gmap hkey pyval)
    (state : pyval * list string) (sales : list pyval)
  : result (pyval * list string) :=
  match sales with
  | [] => Ok state
  | sale :: sales =>
      state ← process_sale price_dict state sale;
      process_sales price_dict state sales
  end.

Definition calculate_total_cost (price_catalogue sales_data : pyval)
  : result (pyval * list string) :=
  items ← py_iter price_catalogue;
  price_dict ← build_price_dict ∅ items;
  sales ← py_iter sales_data;
  process_sales price_dict (PInt 0, []) sales.

(** ** [main]

    The two paths are given on the command line; [execution_time] is what
    the clock measured.  The run ends in [sys.exit(1)], in an exception
    nobody catches (the interpreter prints it and exits with status 1), or
    at the end of [main]. *)

Inductive outcome : Type :=
  | Exit (status : Z)
  | Uncaught (e : exn)
  | Finished.

Definition exit_status (o : outcome) : Z :=
  match o with
  | Exit status => status
  | Uncaught _ => 1
  | Finished => 0
  end.

Definition total_line (total : string) : string := "Total Sales: $" +:+ total.

Definition time_line (execution_time : spec_float) : string :=
  "Execution Time: " +:+ Float.format_fixed 4 execution_time +:+ " seconds".

Definition heading : string := newline +:+ "Warnings and Errors:".

(** The body of the [with] block. *)
Definition write_lines (sys : system) (total_cost : pyval)
    (execution_time : spec_float) (errors : list string) : io unit :=
  total ← lift (py_format_f 2 total_cost);
  perform sys (WriteResults (total_line total +:+ newline));;
  perform sys (WriteResults (time_line execution_time +:+ newline));;
  match errors with
  | [] => mret ()
  | _ =>
      perform sys (WriteResults (heading +:+ newline));;
      for_each errors (λ error, perform sys (WriteResults (error +:+ newline)))
  end.

(** Leaving the [with] block: the file is closed however the block ends,
    and an exception of the block goes on after that. *)
Definition closing (sys : system) (block : io unit) : io unit := λ trace,
  match block trace with
  | (Ok _, trace') => perform sys CloseResults trace'
  | (Raise e, trace') =>
      match perform sys CloseResults trace' with
      | (Ok _, trace'') => (Raise e, trace'')
      | (Raise e', trace'') => (Raise e', trace'')
      end
  end.

(** [with open("SalesResults.txt", "w", encoding='utf-8') as result_file]. *)
Definition write_results (sys : system) (total_cost : pyval)
    (execution_time : spec_float) (errors : list string) : io unit :=
  perform sys OpenResults;;
  closing sys (write_lines sys total_cost execution_time errors).

Definition print_results (sys : system) (total_cost : pyval)
    (execution_time : spec_float) (errors : list string) : io unit :=
  total ← lift (py_format_f 2 total_cost);
  perform sys (Print (total_line total));;
  perform sys (Print (time_line execution_time));;
  match errors with
  | [] => mret ()
  | _ =>
      perform sys (Print heading);;
      for_each errors (λ error, perform sys (Print error))
  end.

Definition load_both (sys : system) (price_catalogue_path sales_data_path : string)
  : io (pyval * pyval) :=
  price_catalogue ← load_json_file sys price_catalogue_path;
  sales_data ← load_json_file sys sales_data_path;
  mret (price_catalogue, sales_data).

Definition main (sys : system) (price_catalogue_path sales_data_path : string)
    (execution_time : spec_float) : outcome * list output :=
  let run : io outcome :=
    '(price_catalogue, sales_data) ←
      load_both sys price_catalogue_path sales_data_path;
    if negb (py_bool price_catalogue) || negb (py_bool sales_data) then
      mret (Exit 1)
    else
      '(total_cost, errors) ←
        lift (calculate_total_cost price_catalogue sales_data);
      write_results sys total_cost execution_time errors;;
      print_results sys total_cost execution_time errors;;
      mret Finished in
  match run [] with
  | (Ok o, trace) => (o, trace)
  | (Raise e, trace) => (Uncaught e, trace)
  end.

(** What the trace leaves behind: the lines on [stderr], the contents of
    [SalesResults.txt] if it was opened, and the text on [stdout], where
    [print] ends every line. *)
Definition stderr_of (trace : list output) : list string :=
  omap (λ op, match op with PrintError line => Some line | _ => None end) trace.

Definition written (trace : list output) : string :=
  foldr (λ op text, match op with
                    | WriteResults t => t +:+ text
                    | _ => text
                    end) "" trace.

Definition opened (trace : list output) : bool :=
  existsb (λ op, match op with OpenResults => true | _ => false end) trace.

Definition results_file_of (trace : list output) : option string :=
  if opened trace then Some (written trace) else None.

Definition stdout_of (trace : list output) : string :=
  foldr (λ op text, match op with
                    | Print line => line +:+ newline +:+ text
                    | _ => text
                    end) "" trace.

(** ** The example of the specification *)

Definition obj (fields : list (string * pyval)) : pyval := PDict (list_to_map fields).

Definition example_catalogue : pyval :=
  PList [obj [("title", PStr "Apple"); ("price", PFloat (Float.make 3 (-1)))];
         obj [("title", PStr "Banana"); ("price", PFloat (Float.make 1 (-1)))]].

Definition example_sales : pyval :=
  PList [obj [("Product", PStr "Apple"); ("Quantity", PInt 4)];
         obj [("Product", PStr "Banana"); ("Quantity", PInt 2)];
         obj [("Product", PStr "Mango"); ("Quantity", PInt 1)];
         obj [("Product", PStr ""); ("Quantity", PInt 1)];
         obj [("Product", PStr "Apple"); ("Quantity", PStr "two")]].

(** ** Reading a sale record and the catalogue *)

(** [sale.get("Product")] and [sale.get("Quantity")] of a record. *)
Definition product_of (d : gmap string pyval) : pyval := default PNone (d !! "Product").
Definition quantity_of (d : gmap string pyval) : pyval := default PNone (d !! "Quantity").

(** The key and the price a catalogue item puts into the mapping, when the
    item is a dictionary with a hashable ["title"] and a ["price"]. *)
Definition entry_of (item : pyval) : option (hkey * pyval) :=
  match item with
  | PDict d =>
      title ← d !! "title";
      price ← d !! "price";
      match py_hash title with
      | Ok a => Some (key_of a, price)
      | Raise _ => None
      end
  | _ => None
  end.

(** The price a record is charged: its product is present, hashable and
    listed. *)
Definition listed_price (price_dict : gmap hkey pyval) (d : gmap string pyval)
  : option (atom * pyval) :=
  if py_bool (product_of d) then
    match py_hash (product_of d) with
    | Ok a => (λ price, (a, price)) <$> price_dict !! key_of a
    | Raise _ => None
    end
  else None.

(** A record without anomaly: present and listed product, numeric price and
    quantity. *)
Definition valid_sale (price_dict : gmap hkey pyval) (sale : pyval) : bool :=
  match sale with
  | PDict d =>
      match listed_price price_dict d with
      | Some (_, price) => is_number price && is_number (quantity_of d)
      | None => false
      end
  | _ => false
  end.

(** The message a record is answered with, if any. *)
Definition warning_of (price_dict : gmap hkey pyval) (sale : pyval) : list string :=
  match sale with
  | PDict d =>
      if py_bool (product_of d) then
        match py_hash (product_of d) with
        | Ok a =>
            match price_dict !! key_of a with
            | None => [not_listed_warning a]
            | Some price =>
                if is_number price && is_number (quantity_of d) then []
                else [invalid_price_error a]
            end
        | Raise _ => []
        end
      else [missing_product_warning]
  | _ => []
  end.

(** ** The sum of the specification

    The specification compares the total with
    [sum(price[s.product] * s.quantity for s in S)], accumulated as a
    floating-point sum: the products are added to 0 one after the other, in
    the order of the records.  [line_cost] is one term of it. *)

Definition line_cost (price_dict : gmap hkey pyval) (sale : pyval) : result pyval :=
  product ← py_get sale "Product";
  quantity ← py_get sale "Quantity";
  key ← py_hash product;
  match price_dict !! key_of key with
  | Some price => py_mul price quantity
  | None => Raise KeyError
  end.

Fixpoint sum_from (price_dict : gmap hkey pyval) (acc : pyval) (sales : list pyval)
  : result pyval :=
  match sales with
  | [] => Ok acc
  | sale :: sales =>
      x ← line_cost price_dict sale;
      acc ← py_add acc x;
      sum_from price_dict acc sales
  end.

(** ** Notions of the statements *)

(** The mapping after the items of a well-formed catalogue went in. *)
Definition insert_entries (price_dict : gmap hkey pyval) (items : list pyval)
  : gmap hkey pyval :=
  foldl (λ m item, match entry_of item with
                   | Some (k, price) => <[k := price]> m
                   | None => m
                   end) price_dict items.

Definition well_formed_item (item : pyval) : Prop := is_Some (entry_of item).

(** A record is either charged or answered with one message. *)
Definition one_outcome (price_dict : gmap hkey pyval) (sale : pyval) : Prop :=
  (valid_sale price_dict sale = true ∧ warning_of price_dict sale = []) ∨
  (valid_sale price_dict sale = false ∧ ∃ w, warning_of price_dict sale = [w]).



(** A sale record the loop can read: a dictionary whose product is false or
    hashable. *)
Definition well_formed_sale (sale : pyval) : bool :=
  match sale with
  | PDict d =>
      negb (py_bool (product_of d)) ||
      match py_hash (product_of d) with Ok _ => true | Raise _ => false end
  | _ => false
  end.

(** The cost of a record whose price and quantity are integers. *)
Definition integer_cost (price_dict : gmap hkey pyval) (sale : pyval) : option Z :=
  match sale with
  | PDict d =>
      '(_, price) ← listed_price price_dict d;
      p ← as_index price;
      q ← as_index (quantity_of d);
      Some (p * q)
  | _ => None
  end.

(** The key under which the loop looks a record's product up, when it gets
    that far. *)
Definition sale_key (sale : pyval) : option hkey :=
  match sale with
  | PDict d =>
      if py_bool (product_of d) then
        match py_hash (product_of d) with
        | Ok a => Some (key_of a)
        | Raise _ => None
        end
      else None
  | _ => None
  end.

(** The three messages the accumulator writes. *)
Definition is_message (m : string) : Prop :=
  m = missing_product_warning ∨
  (∃ a, m = not_listed_warning a) ∨
  (∃ a, m = invalid_price_error a).

(** The keys the items of a catalogue are entered under, in order. *)
Definition catalogue_keys (items : list pyval) : list hkey :=
  (omap entry_of items).*1.

(** ** The arithmetic of the specification

    "Quantity and price may be integers or floats; the product is computed
    with standard floating-point multiplication", and the total "is
    accumulated as a floating-point sum": two integers are multiplied and
    added exactly, and as soon as a float takes part both sides are taken to
    binary64, which an integer from [2^1024 - 2^970] on does not fit.  The
    sum of [price * quantity] is accumulated from 0 in the order of the
    records. *)

Definition to_float (x : number) : option spec_float :=
  match x with
  | NInt z =>
      if Z.abs z <? 2 ^ 1024 - 2 ^ 970
      then Some (binary_normalize 53 1024 z 0 false)
      else None
  | NFloat f => Some f
  end.

Definition multiply (x y : number) : option number :=
  match x, y with
  | NInt a, NInt b => Some (NInt (a * b))
  | _, _ => f ← to_float x; g ← to_float y; Some (NFloat (SFmul 53 1024 f g))
  end.

Definition increase (x y : number) : option number :=
  match x, y with
  | NInt a, NInt b => Some (NInt (a + b))
  | _, _ => f ← to_float x; g ← to_float y; Some (NFloat (SFadd 53 1024 f g))
  end.

Fixpoint accumulate (total : number) (terms : list (number * number))
  : option number :=
  match terms with
  | [] => Some total
  | (price, quantity) :: terms =>
      x ← multiply price quantity;
      total ← increase total x;
      accumulate total terms
  end.

Definition number_value (n : number) : pyval :=
  match n with
  | NInt z => PInt z
  | NFloat f => PFloat f
  end.

(** The price and the quantity of a record without anomaly, as numbers. *)
Definition charge (price_dict : gmap hkey pyval) (sale : pyval)
  : option (number * number) :=
  match sale with
  | PDict d =>
      '(_, price) ← listed_price price_dict d;
      p ← as_number price;
      q ← as_number (quantity_of d);
      Some (p, q)
  | _ => None
  end.

(** The terms of the sum: the records without anomaly, in order. *)
Definition charges (price_dict : gmap hkey pyval) (sales : list pyval)
  : list (number * number) :=
  omap (charge price_dict) sales.




(** The lines of the report: the total, the time and, only if there are
    messages, the heading and the messages. *)
Definition report_lines (total : string) (execution_time : spec_float)
    (errors : list string) : list string :=
  [total_line total; time_line execution_time] ++
  match errors with
  | [] => []
  | _ => heading :: errors
  end.

(** What a run that finishes leaves in the trace after the loading. *)
Definition report_trace (total : string) (execution_time : spec_float)
    (errors : list string) : list output :=
  [OpenResults] ++
  ((λ line, WriteResults (line +:+ newline)) <$>
     report_lines total execution_time errors) ++
  [CloseResults] ++
  (Print <$> report_lines total execution_time errors).

(** The text of a report: every line with its newline. *)
Definition report_text (lines : list string) : string :=
  foldr (λ line text, line +:+ newline +:+ text) "" lines.

(** What [load_json_file] returns for a file, if it returns. *)
Definition loaded_value (f : file) : option pyval :=
  match f with
  | NotFound | InvalidJSON => Some PNone
  | Unreadable _ => None
  | Json v => Some v
  end.

(** A system on which no output operation raises. *)
Definition quiet (sys : system) : Prop := ∀ trace op, fails sys trace op = None.

(** A system with the catalogue of the example, some sales file and nothing
    else, on which no output operation raises. *)
Definition example_system (sales_data : file) : system :=
  {| read := λ filename,
       if String.eqb filename "catalogue.json" then Json example_catalogue
       else if String.eqb filename "sales.json" then sales_data
       else NotFound;
     fails := λ _ _, None |}.

(** ** The accumulator on a store

    A list or a dictionary of Python is an object: a variable, a list item
    or a dictionary value holds a reference to it, and what a callee does to
    the object its caller sees.  To say that [calculate_total_cost] leaves
    its arguments alone the function is written once more, over a store of
    such objects; numbers, strings, booleans and [None] cannot be changed
    and are held as they are. *)

Definition loc : Type := positive.

Inductive slot : Type :=
  | Imm (a : atom)
  | Ref (l : loc).

Inductive object : Type :=
  | OList (items : list slot)
  | ODict (fields : gmap string slot).

Definition store : Type := gmap loc object.

(** Computations on the store: an exception leaves the store as it was when
    it was raised. *)
Definition on_store (A : Type) : Type := store → result A * store.

#[global] Instance on_store_ret : MRet on_store := λ A a σ, (Ok a, σ).

#[global] Instance on_store_bind : MBind on_store := λ A B k m σ,
  match m σ with
  | (Ok a, σ') => k a σ'
  | (Raise e, σ') => (Raise e, σ')
  end.

Definition raise {A : Type} (e : exn) : on_store A := λ σ, (Raise e, σ).

(** A new object gets an address that is not in use. *)
Definition alloc (o : object) : on_store loc := λ σ,
  let l := fresh (dom σ) in (Ok l, <[l := o]> σ).

(** A reference of Python always leads to an object; a store in which one
    does not is no state of the interpreter. *)
Definition deref (l : loc) : on_store object := λ σ,
  match σ !! l with
  | Some o => (Ok o, σ)
  | None => (Raise SystemError, σ)
  end.

Definition update (l : loc) (o : object) : on_store unit := λ σ,
  (Ok (), <[l := o]> σ).

(** [try: body except TypeError: handler]; what the body did to the store
    before it raised stays done. *)
Definition except_TypeError {A : Type} (body handler : on_store A) : on_store A :=
  λ σ,
  match body σ with
  | (Raise TypeError, σ') => handler σ'
  | other => other
  end.

Definition of_atom (a : atom) : pyval :=
  match a with
  | ANone => PNone
  | ABool b => PBool b
  | AInt z => PInt z
  | AFloat f => PFloat f
  | AStr s => PStr s
  end.

Definition as_atom (v : pyval) : option atom :=
  match v with
  | PNone => Some ANone
  | PBool b => Some (ABool b)
  | PInt z => Some (AInt z)
  | PFloat f => Some (AFloat f)
  | PStr s => Some (AStr s)
  | PList _ | PDict _ => None
  end.

(** The result of an operation on two values that cannot be changed is the
    one of the operations above, and is such a value again. *)
Definition immutable (r : result pyval) : on_store slot :=
  match r with
  | Ok v =>
      match as_atom v with
      | Some a => mret (Imm a)
      | None => raise SystemError
      end
  | Raise e => raise e
  end.

(** [bool(v)] *)
Definition store_bool (v : slot) : on_store bool :=
  match v with
  | Imm a => mret (py_bool (of_atom a))
  | Ref l =>
      o ← deref l;
      match o with
      | OList items => mret (match items with [] => false | _ => true end)
      | ODict fields => mret (match map_to_list fields with [] => false | _ => true end)
      end
  end.

(** What [for x in v] goes through.  The loop takes the items of a list one
    by one while its body runs; here they are read when the loop starts,
    which is the same as long as the body leaves the list as it is, and the
    store after the body shows whether it did. *)
Definition store_iter (v : slot) : on_store (list slot) :=
  match v with
  | Imm (AStr s) => mret ((λ c, Imm (AStr (String c ""))) <$> list_ascii_of_string s)
  | Imm _ => raise TypeError
  | Ref l =>
      o ← deref l;
      match o with
      | OList items => mret items
      | ODict fields => mret ((λ kv, Imm (AStr kv.1)) <$> map_to_list fields)
      end
  end.

(** [v[key]] *)
Definition store_getitem (v : slot) (key : string) : on_store slot :=
  match v with
  | Imm _ => raise TypeError
  | Ref l =>
      o ← deref l;
      match o with
      | ODict fields =>
          match fields !! key with
          | Some x => mret x
          | None => raise KeyError
          end
      | OList _ => raise TypeError
      end
  end.

(** [v.get(key)] *)
Definition store_get (v : slot) (key : string) : on_store slot :=
  match v with
  | Imm _ => raise AttributeError
  | Ref l =>
      o ← deref l;
      match o with
      | ODict fields => mret (default (Imm ANone) (fields !! key))
      | OList _ => raise AttributeError
      end
  end.

(** [hash(v)] *)
Definition store_hash (v : slot) : on_store atom :=
  match v with
  | Imm a => mret a
  | Ref _ => raise TypeError
  end.

Definition new_list (items : list slot) : on_store slot :=
  l ← alloc (OList items); mret (Ref l).

(** [items * n] for the items of a list: a new list, which holds the same
    objects over and over. *)
Definition store_repeat (items : list slot) (n : slot) : on_store slot :=
  match n with
  | Ref _ => raise TypeError
  | Imm b =>
      match as_index (of_atom b) with
      | None => raise TypeError
      | Some c =>
          if (c <? - PY_SSIZE_T_MAX - 1) || (PY_SSIZE_T_MAX <? c) then raise OverflowError
          else
            let len := Z.of_nat (length items) in
            if (len =? 0) || (c <=? 0) then new_list []
            else if PY_SSIZE_T_MAX / c <? len then raise MemoryError
            else if allocates (NewList (len * c))
            then new_list (list_repeat (Z.to_nat c) items)
            else raise MemoryError
      end
  end.

(** [v * w] *)
Definition store_mul (v w : slot) : on_store slot :=
  match v, w with
  | Imm a, Imm b => immutable (py_mul (of_atom a) (of_atom b))
  | Ref l, _ =>
      o ← deref l;
      match o with
      | OList items => store_repeat items w
      | ODict _ => raise TypeError
      end
  | Imm _, Ref l =>
      o ← deref l;
      match o with
      | OList items => store_repeat items v
      | ODict _ => raise TypeError
      end
  end.

(** [v += w]: a list on the left is extended in place by what [w] iterates
    over; for everything else this is [v = v + w], and nothing adds to a
    list or a dictionary on the right. *)
Definition store_iadd (v w : slot) : on_store slot :=
  match v with
  | Imm a =>
      match w with
      | Imm b => immutable (py_add (of_atom a) (of_atom b))
      | Ref _ => raise TypeError
      end
  | Ref l =>
      o ← deref l;
      match o with
      | OList items =>
          more ← store_iter w;
          update l (OList (items ++ more));;
          mret (Ref l)
      | ODict _ => raise TypeError
      end
  end.

(** [errors.append(message)] *)
Definition store_append (l : loc) (x : slot) : on_store unit :=
  o ← deref l;
  match o with
  | OList items => update l (OList (items ++ [x]))
  | ODict _ => raise AttributeError
  end.

(** The dictionary of prices is made and read by the function alone and
    handed to nobody, so it is kept beside the store; its values are the
    very objects of the catalogue. *)
Fixpoint store_build_price_dict (price_dict : gmap hkey slot) (items : list slot)
  : on_store (gmap hkey slot) :=
  match items with
  | [] => mret price_dict
  | item :: items =>
      title ← store_getitem item "title";
      price ← store_getitem item "price";
      key ← store_hash title;
      store_build_price_dict (<[key_of key := price]> price_dict) items
  end.

Definition store_process_sale (price_dict : gmap hkey slot) (errors : loc)
    (total_cost : slot) (sale : slot) : on_store slot :=
  product ← store_get sale "Product";
  quantity ← store_get sale "Quantity";
  present ← store_bool product;
  if negb present then
    store_append errors (Imm (AStr missing_product_warning));;
    mret total_cost
  else
    key ← store_hash product;
    match price_dict !! key_of key with
    | None =>
        store_append errors (Imm (AStr (not_listed_warning key)));;
        mret total_cost
    | Some price =>
        except_TypeError
          (x ← store_mul price quantity; store_iadd total_cost x)
          (store_append errors (Imm (AStr (invalid_price_error key)));;
           mret total_cost)
    end.

Fixpoint store_process_sales (price_dict : gmap hkey slot) (errors : loc)
    (total_cost : slot) (sales : list slot) : on_store slot :=
  match sales with
  | [] => mret total_cost
  | sale :: sales =>
      total_cost ← store_process_sale price_dict errors total_cost sale;
      store_process_sales price_dict errors total_cost sales
  end.

(** [calculate_total_cost] on the store: the two arguments are what the
    caller holds, the result is the total and the reference to the new list
    of messages. *)
Definition calculate_total_cost_on_store (price_catalogue sales_data : slot)
  : on_store (slot * loc) :=
  errors ← alloc (OList []);
  items ← store_iter price_catalogue;
  price_dict ← store_build_price_dict ∅ items;
  sales ← store_iter sales_data;
  total_cost ← store_process_sales price_dict errors (Imm (AInt 0)) sales;
  mret (total_cost, errors).

(** The value of JSON an argument stands for in a store, if it is one:
    references are followed down to [depth] objects deep. *)
Fixpoint value_of (depth : nat) (σ : store) (v : slot) : option pyval :=
  match v with
  | Imm a => Some (of_atom a)
  | Ref l =>
      match depth with
      | O => None
      | S depth =>
          match σ !! l with
          | Some (OList items) => PList <$> mapM (value_of depth σ) items
          | Some (ODict fields) =>
              if decide (map_Forall (λ _ x, is_Some (value_of depth σ x)) fields)
              then Some (PDict ((λ x, default PNone (value_of depth σ x)) <$> fields))
              else None
          | None => None
          end
      end
  end.

(** What the caller has after the call: the exception, or the total and
    the messages found in the new list. *)
Definition message_of (x : slot) : option string :=
  match x with
  | Imm (AStr s) => Some s
  | _ => None
  end.

Definition outcome_in (σ : store) (r : result (slot * loc))
  : option (result (pyval * list string)) :=
  match r with
  | Raise e => Some (Raise e)
  | Ok (Imm total_cost, errors) =>
      match σ !! errors with
      | Some (OList items) =>
          messages ← mapM message_of items;
          Some (Ok (of_atom total_cost, messages))
      | _ => None
      end
  | Ok (Ref _, _) => None
  end.

(** A computation that only reads the store, one that only adds objects to
    it, and one that leaves the objects of [σ0] as they are. *)
Definition reads {A : Type} (m : on_store A) : Prop :=
  ∀ σ r σ', m σ = (r, σ') → σ' = σ.

Definition grows {A : Type} (m : on_store A) : Prop :=
  ∀ σ r σ', m σ = (r, σ') → σ ⊆ σ'.

Definition keeps {A : Type} (σ0 : store) (m : on_store A) : Prop :=
  ∀ σ r σ', m σ = (r, σ') → σ0 ⊆ σ → σ0 ⊆ σ'.

(** A computation whose result, if there is one, satisfies [P]. *)
Definition yields {A : Type} (P : A → Prop) (m : on_store A) : Prop :=
  ∀ σ a σ', m σ = (Ok a, σ') → P a.

Definition is_immutable (v : slot) : Prop := ∃ a, v = Imm a.

(** The list of messages as an object, and a dictionary of prices of the
    store that stands for one of values. *)
Definition messages_object (messages : list string) : object :=
  OList ((λ m, Imm (AStr m)) <$> messages).

Definition stands_for (depth : nat) (σ : store) (x : slot) (p : pyval) : Prop :=
  value_of depth σ x = Some p.

Definition prices_stand_for (depth : nat) (σ : store)
    (store_prices : gmap hkey slot) (price_dict : gmap hkey pyval) : Prop :=
  ∀ k, option_Forall2 (stands_for depth σ) (store_prices !! k) (price_dict !! k).

(** Two results that are the same unless one of them is a [MemoryError]. *)
Definition same_unless_memory {A : Type} (r1 r2 : result A) : Prop :=
  r1 = r2 ∨ r1 = Raise MemoryError ∨ r2 = Raise MemoryError.

(** The documents of the example as objects of a store. *)
Definition field (key : string) (a : atom) : string * slot := (key, Imm a).

Definition example_store : store :=
  list_to_map
    [(1%positive, ODict (list_to_map [field "title" (AStr "Apple");
                                      field "price" (AFloat (Float.make 3 (-1)))]));
     (2%positive, ODict (list_to_map [field "title" (AStr "Banana");
                                      field "price" (AFloat (Float.make 1 (-1)))]));
     (3%positive, OList [Ref 1%positive; Ref 2%positive]);
     (4%positive, ODict (list_to_map [field "Product" (AStr "Apple");
                                      field "Quantity" (AInt 4)]));
     (5%positive, ODict (list_to_map [field "Product" (AStr "Banana");
                                      field "Quantity" (AInt 2)]));
     (6%positive, ODict (list_to_map [field "Product" (AStr "Mango");
                                      field "Quantity" (AInt 1)]));
     (7%positive, ODict (list_to_map [field "Product" (AStr "");
                                      field "Quantity" (AInt 1)]));
     (8%positive, ODict (list_to_map [field "Product" (AStr "Apple");
                                      field "Quantity" (AStr "two")]));
     (9%positive, OList [Ref 4%positive; Ref 5%positive; Ref 6%positive;
                         Ref 7%positive; Ref 8%positive])].

(** * Properties *)

(** ** Running the example *)

(** ** The result monad *)

Lemma bind_Ok {A B : Type} (a : A) (k : A → result B) : (Ok a ≫= k) = k a.
Proof. reflexivity. Qed.

Lemma bind_Raise {A B : Type} (e : exn) (k : A → result B) :
  (Raise e ≫= k) = Raise e.
Proof. reflexivity. Qed.

Lemma bind_inv_Ok {A B : Type} (r : result A) (k : A → result B) (b : B) :
  (r ≫= k) = Ok b → ∃ a, r = Ok a ∧ k a = Ok b.
Proof. destruct r as [a|e]; [eauto | discriminate]. Qed.

(** ** Unfolding the function on lists *)

Lemma calculate_total_cost_lists (items sales : list pyval) :
  calculate_total_cost (PList items) (PList sales) =
  (price_dict ← build_price_dict ∅ items;
   process_sales price_dict (PInt 0, []) sales).
Proof. reflexivity. Qed.

Lemma process_sales_cons price_dict state sale (sales : list pyval) :
  process_sales price_dict state (sale :: sales) =
  (state' ← process_sale price_dict state sale;
   process_sales price_dict state' sales).
Proof. reflexivity. Qed.

Lemma process_sales_app price_dict state (sales1 sales2 : list pyval) :
  process_sales price_dict state (sales1 ++ sales2) =
  (state' ← process_sales price_dict state sales1;
   process_sales price_dict state' sales2).
Proof.
  revert state. induction sales1 as [|sale sales1 IH]; intros state; [done|].
  simpl. destruct (process_sale price_dict state sale) as [state'|e]; [|done].
  apply IH.
Qed.

Lemma process_sale_dict price_dict total_cost errors (d : gmap string pyval) :
  process_sale price_dict (total_cost, errors) (PDict d) =
  if py_bool (product_of d) then
    key ← py_hash (product_of d);
    match price_dict !! key_of key with
    | None => Ok (total_cost, errors ++ [not_listed_warning key])
    | Some price =>
        match (x ← py_mul price (quantity_of d); py_add total_cost x) with
        | Ok total => Ok (total, errors)
        | Raise TypeError => Ok (total_cost, errors ++ [invalid_price_error key])
        | Raise e => Raise e
        end
    end
  else Ok (total_cost, errors ++ [missing_product_warning]).
Proof.
  unfold process_sale, product_of, quantity_of. simpl.
  by destruct (py_bool _).
Qed.

Lemma calculate_total_cost_split items before sale after price_dict state :
  build_price_dict ∅ items = Ok price_dict →
  process_sales price_dict (PInt 0, []) before = Ok state →
  calculate_total_cost (PList items) (PList (before ++ sale :: after)) =
  (state' ← process_sale price_dict state sale;
   process_sales price_dict state' after).
Proof.
  intros Hdict Hbefore.
  rewrite calculate_total_cost_lists, Hdict, bind_Ok.
  by rewrite process_sales_app, Hbefore, bind_Ok.
Qed.

(** ** Records without a product *)

Lemma product_of_insert_quantity (d : gmap string pyval) quantity :
  product_of (<["Quantity" := quantity]> d) = product_of d.
Proof. unfold product_of. by rewrite lookup_insert_ne. Qed.

Lemma product_of_delete_quantity (d : gmap string pyval) :
  product_of (delete "Quantity" d) = product_of d.
Proof. unfold product_of. by rewrite lookup_delete_ne. Qed.

(** C4. A record whose product is absent, empty or otherwise false gets
    exactly one warning, which contains "missing product name"; the total is
    left as it was and the records after it are processed; whatever the
    quantity is, or whether there is one, makes no difference. *)
Theorem missing_product_one_warning price_dict (d : gmap string pyval) :
  py_bool (product_of d) = false →
  (∀ total_cost errors,
     process_sale price_dict (total_cost, errors) (PDict d) =
     Ok (total_cost, errors ++ [missing_product_warning])) ∧
  (∃ before after,
     missing_product_warning = before +:+ "missing product name" +:+ after) ∧
  (∀ state quantity,
     process_sale price_dict state (PDict (<["Quantity" := quantity]> d)) =
     process_sale price_dict state (PDict d) ∧
     process_sale price_dict state (PDict (delete "Quantity" d)) =
     process_sale price_dict state (PDict d)) ∧
  (∀ items before after total_cost errors,
     build_price_dict ∅ items = Ok price_dict →
     process_sales price_dict (PInt 0, []) before = Ok (total_cost, errors) →
     calculate_total_cost (PList items) (PList (before ++ PDict d :: after)) =
     process_sales price_dict (total_cost, errors ++ [missing_product_warning]) after).
Proof.
  intros Hmissing.
  assert (Hstep : ∀ total_cost errors,
    process_sale price_dict (total_cost, errors) (PDict d) =
    Ok (total_cost, errors ++ [missing_product_warning])).
  { intros. by rewrite process_sale_dict, Hmissing. }
  split; [exact Hstep|]. split.
  { by exists "Warning: Sale record with a ", ".". }
  split.
  - intros [total_cost errors] quantity.
    rewrite !process_sale_dict.
    by rewrite product_of_insert_quantity, product_of_delete_quantity, Hmissing.
  - intros items before after total_cost errors Hdict Hbefore.
    rewrite (calculate_total_cost_split _ _ _ _ _ _ Hdict Hbefore).
    by rewrite Hstep.
Qed.

(** ** Records with an unlisted product *)

(** C5. A record whose product is present but is not a key of the price
    mapping gets exactly one warning, which carries the product as [str]
    writes it; the total is left as it was and the loop goes on with the next
    record. *)
Theorem unlisted_product_one_warning price_dict (d : gmap string pyval) (a : atom) :
  py_bool (product_of d) = true →
  py_hash (product_of d) = Ok a →
  price_dict !! key_of a = None →
  (∀ total_cost errors,
     process_sale price_dict (total_cost, errors) (PDict d) =
     Ok (total_cost, errors ++ [not_listed_warning a])) ∧
  not_listed_warning a =
    "Warning: '" +:+ py_str a +:+ "' is not listed in the price catalogue." ∧
  (∀ s, product_of d = PStr s → py_str a = s) ∧
  (∀ items before after total_cost errors,
     build_price_dict ∅ items = Ok price_dict →
     process_sales price_dict (PInt 0, []) before = Ok (total_cost, errors) →
     calculate_total_cost (PList items) (PList (before ++ PDict d :: after)) =
     process_sales price_dict (total_cost, errors ++ [not_listed_warning a]) after).
Proof.
  intros Hpresent Hhash Hunlisted.
  assert (Hstep : ∀ total_cost errors,
    process_sale price_dict (total_cost, errors) (PDict d) =
    Ok (total_cost, errors ++ [not_listed_warning a])).
  { intros. by rewrite process_sale_dict, Hpresent, Hhash, bind_Ok, Hunlisted. }
  split; [exact Hstep|]. split; [reflexivity|]. split.
  - intros s Hs. rewrite Hs in Hhash. by injection Hhash as <-.
  - intros items before after total_cost errors Hdict Hbefore.
    rewrite (calculate_total_cost_split _ _ _ _ _ _ Hdict Hbefore).
    by rewrite Hstep.
Qed.

(** ** Arithmetic on numbers *)

Lemma is_number_as_number v : is_number v = true → ∃ x, as_number v = Some x.
Proof. unfold is_number. destruct (as_number v); [eauto | discriminate]. Qed.

Lemma of_int_cases z :
  (∃ f, Float.of_int z = Ok f) ∨ Float.of_int z = Raise OverflowError.
Proof. unfold Float.of_int. destruct (_ <? _); eauto. Qed.

Lemma num_mul_cases x y :
  (∃ v, num_mul x y = Ok v ∧ is_number v = true) ∨
  num_mul x y = Raise OverflowError.
Proof.
  destruct x as [a|f], y as [b|g]; simpl; eauto.
  - destruct (of_int_cases a) as [[f ->]| ->]; simpl; eauto.
  - destruct (of_int_cases b) as [[g ->]| ->]; simpl; eauto.
Qed.

Lemma num_add_cases x y :
  (∃ v, num_add x y = Ok v ∧ is_number v = true) ∨
  num_add x y = Raise OverflowError.
Proof.
  destruct x as [a|f], y as [b|g]; simpl; eauto.
  - destruct (of_int_cases a) as [[f ->]| ->]; simpl; eauto.
  - destruct (of_int_cases b) as [[g ->]| ->]; simpl; eauto.
Qed.

Lemma py_mul_numbers v w :
  is_number v = true → is_number w = true →
  (∃ x, py_mul v w = Ok x ∧ is_number x = true) ∨
  py_mul v w = Raise OverflowError.
Proof.
  intros [x Hx]%is_number_as_number [y Hy]%is_number_as_number.
  unfold py_mul. rewrite Hx, Hy. apply num_mul_cases.
Qed.

Lemma py_add_numbers v w :
  is_number v = true → is_number w = true →
  (∃ x, py_add v w = Ok x ∧ is_number x = true) ∨
  py_add v w = Raise OverflowError.
Proof.
  intros [x Hx]%is_number_as_number [y Hy]%is_number_as_number.
  unfold py_add. rewrite Hx, Hy. apply num_add_cases.
Qed.

(** Adding to a number either gives a number or fails: with a [TypeError]
    exactly when the other side is not a number. *)
Lemma py_add_to_number v w :
  is_number v = true → is_number w = false → py_add v w = Raise TypeError.
Proof.
  intros [x Hx]%is_number_as_number Hw. unfold py_add. rewrite Hx.
  unfold is_number in Hw. destruct (as_number w); [discriminate|].
  by destruct v, w.
Qed.

Lemma py_add_number_result v w t :
  is_number v = true → py_add v w = Ok t → is_number w = true ∧ is_number t = true.
Proof.
  intros Hv Hadd. destruct (is_number w) eqn:Hw.
  - destruct (py_add_numbers v w Hv Hw) as [(x & Hx & Hnum)|Hx]; [|congruence].
    split; [done|]. congruence.
  - rewrite (py_add_to_number v w Hv Hw) in Hadd. discriminate.
Qed.

(** ** Charged records *)

Lemma listed_price_Some price_dict (d : gmap string pyval) a price :
  listed_price price_dict d = Some (a, price) ↔
  py_bool (product_of d) = true ∧ py_hash (product_of d) = Ok a ∧
  price_dict !! key_of a = Some price.
Proof.
  unfold listed_price. destruct (py_bool (product_of d)).
  - destruct (py_hash (product_of d)) as [a'|e].
    + destruct (price_dict !! key_of a') as [price'|] eqn:Hprice; simpl.
      * split.
        -- intros Heq. injection Heq as -> ->. done.
        -- intros (_ & Ha & Hp). injection Ha as ->. congruence.
      * split; [discriminate|].
        intros (_ & Ha & Hp). injection Ha as ->. congruence.
    + split; [discriminate|]. intros (_ & Ha & _). discriminate.
  - split; [discriminate|]. intros (Hb & _). discriminate.
Qed.

Lemma process_sale_listed price_dict total_cost errors (d : gmap string pyval) a price :
  listed_price price_dict d = Some (a, price) →
  process_sale price_dict (total_cost, errors) (PDict d) =
  match (x ← py_mul price (quantity_of d); py_add total_cost x) with
  | Ok total => Ok (total, errors)
  | Raise TypeError => Ok (total_cost, errors ++ [invalid_price_error a])
  | Raise e => Raise e
  end.
Proof.
  intros (Hpresent & Hhash & Hprice)%listed_price_Some.
  by rewrite process_sale_dict, Hpresent, Hhash, bind_Ok, Hprice.
Qed.

Lemma line_cost_listed price_dict (d : gmap string pyval) a price :
  listed_price price_dict d = Some (a, price) →
  line_cost price_dict (PDict d) = py_mul price (quantity_of d).
Proof.
  intros (Hpresent & Hhash & Hprice)%listed_price_Some.
  unfold line_cost. simpl. fold (product_of d) (quantity_of d).
  by rewrite Hhash, bind_Ok, Hprice.
Qed.

Lemma valid_sale_inv price_dict sale :
  valid_sale price_dict sale = true →
  ∃ d a price, sale = PDict d ∧ listed_price price_dict d = Some (a, price) ∧
    is_number price = true ∧ is_number (quantity_of d) = true.
Proof.
  destruct sale as [| | | | | |d]; try discriminate. simpl.
  destruct (listed_price price_dict d) as [[a price]|] eqn:Hlisted; [|discriminate].
  intros [? ?]%andb_true_iff. by exists d, a, price.
Qed.

Lemma valid_sale_dict price_dict (d : gmap string pyval) a price :
  listed_price price_dict d = Some (a, price) →
  valid_sale price_dict (PDict d) = is_number price && is_number (quantity_of d).
Proof. intros Hlisted. simpl. by rewrite Hlisted. Qed.

Lemma warning_of_listed price_dict (d : gmap string pyval) a price :
  listed_price price_dict d = Some (a, price) →
  warning_of price_dict (PDict d) =
  if is_number price && is_number (quantity_of d) then [] else [invalid_price_error a].
Proof.
  intros (Hpresent & Hhash & Hprice)%listed_price_Some.
  simpl. by rewrite Hpresent, Hhash, Hprice.
Qed.

(** A record without anomaly adds its product to the total, or fails as the
    arithmetic does. *)
Lemma process_sale_valid price_dict total_cost errors sale :
  is_number total_cost = true →
  valid_sale price_dict sale = true →
  process_sale price_dict (total_cost, errors) sale =
  (x ← line_cost price_dict sale; total ← py_add total_cost x; Ok (total, errors)).
Proof.
  intros Htotal (d & a & price & -> & Hlisted & Hprice & Hquantity)%valid_sale_inv.
  rewrite (process_sale_listed _ _ _ _ _ _ Hlisted), (line_cost_listed _ _ _ _ Hlisted).
  destruct (py_mul_numbers _ _ Hprice Hquantity) as [(x & -> & Hx)| ->]; [|done].
  rewrite !bind_Ok.
  by destruct (py_add_numbers _ _ Htotal Hx) as [(t & -> & _)| ->].
Qed.

Lemma process_sales_valid price_dict total_cost errors sales :
  is_number total_cost = true →
  forallb (valid_sale price_dict) sales = true →
  process_sales price_dict (total_cost, errors) sales =
  (total ← sum_from price_dict total_cost sales; Ok (total, errors)).
Proof.
  revert total_cost. induction sales as [|sale sales IH]; intros total_cost Htotal; [done|].
  cbn [forallb sum_from]. intros [Hsale Hsales]%andb_true_iff.
  rewrite process_sales_cons, (process_sale_valid _ _ _ _ Htotal Hsale).
  destruct (line_cost price_dict sale) as [x|e]; [|done]. rewrite !bind_Ok.
  destruct (py_add total_cost x) as [t|e] eqn:Hadd; [|done]. rewrite !bind_Ok.
  apply IH; [|done]. by destruct (py_add_number_result _ _ _ Htotal Hadd).
Qed.

(** ** Integer prices and quantities *)

Lemma as_index_number v z : as_index v = Some z → as_number v = Some (NInt z).
Proof. destruct v; simpl; congruence. Qed.

Lemma integer_cost_line price_dict sale cost :
  integer_cost price_dict sale = Some cost →
  valid_sale price_dict sale = true ∧ line_cost price_dict sale = Ok (PInt cost).
Proof.
  destruct sale as [| | | | | |d]; try discriminate. simpl.
  destruct (listed_price price_dict d) as [[a price]|] eqn:Hlisted; [|discriminate].
  simpl. destruct (as_index price) as [p|] eqn:Hp; [|discriminate].
  simpl. destruct (as_index (quantity_of d)) as [q|] eqn:Hq; [|discriminate].
  simpl. intros [= <-].
  apply as_index_number in Hp, Hq. unfold is_number. rewrite Hp, Hq.
  split; [done|].
  fold (line_cost price_dict (PDict d)).
  rewrite (line_cost_listed _ _ _ _ Hlisted). unfold py_mul. by rewrite Hp, Hq.
Qed.

Lemma sum_from_integers price_dict sales costs :
  Forall2 (λ sale cost, integer_cost price_dict sale = Some cost) sales costs →
  ∀ z,
    forallb (valid_sale price_dict) sales = true ∧
    sum_from price_dict (PInt z) sales = Ok (PInt (z + foldr Z.add 0 costs)).
Proof.
  induction 1 as [|sale cost sales costs Hcost _ IH]; intros z.
  { simpl. split; [done|]. do 2 f_equal. lia. }
  destruct (integer_cost_line _ _ _ Hcost) as [Hvalid Hline].
  destruct (IH (z + cost)) as [Hvalids Hsum].
  cbn [forallb sum_from foldr]. rewrite Hvalid, Hvalids, Hline, bind_Ok.
  split; [done|].
  change (py_add (PInt z) (PInt cost)) with (Ok (A:=pyval) (PInt (z + cost))).
  rewrite bind_Ok, Hsum. do 2 f_equal. lia.
Qed.

(** With integer prices and quantities the total is the exact sum. *)
Lemma integer_total items sales price_dict costs :
  build_price_dict ∅ items = Ok price_dict →
  Forall2 (λ sale cost, integer_cost price_dict sale = Some cost) sales costs →
  calculate_total_cost (PList items) (PList sales) =
  Ok (PInt (foldr Z.add 0 costs), []).
Proof.
  intros Hdict Hcosts.
  destruct (sum_from_integers _ _ _ Hcosts 0) as [Hvalid Hsum].
  rewrite calculate_total_cost_lists, Hdict, bind_Ok.
  by rewrite (process_sales_valid price_dict (PInt 0) [] sales eq_refl Hvalid), Hsum.
Qed.

(** ** The sum of the specification *)

Lemma as_number_value n : as_number (number_value n) = Some n.
Proof. by destruct n. Qed.

Lemma is_number_value n : is_number (number_value n) = true.
Proof. by destruct n. Qed.

Lemma of_int_to_float z :
  Float.of_int z = match to_float (NInt z) with
                   | Some f => Ok f
                   | None => Raise OverflowError
                   end.
Proof.
  unfold Float.of_int, to_float, Float.overflow_threshold, Float.make,
    Float.prec, Float.emax.
  by destruct (Z.abs z <? 2 ^ 1024 - 2 ^ 970).
Qed.

Lemma num_mul_multiply x y :
  num_mul x y = match multiply x y with
                | Some n => Ok (number_value n)
                | None => Raise OverflowError
                end.
Proof.
  destruct x as [a|f], y as [b|g]; simpl; try done.
  - rewrite of_int_to_float. unfold to_float. by destruct (Z.abs a <? _).
  - rewrite of_int_to_float. unfold to_float. by destruct (Z.abs b <? _).
Qed.

Lemma num_add_increase x y :
  num_add x y = match increase x y with
                | Some n => Ok (number_value n)
                | None => Raise OverflowError
                end.
Proof.
  destruct x as [a|f], y as [b|g]; simpl; try done.
  - rewrite of_int_to_float. unfold to_float. by destruct (Z.abs a <? _).
  - rewrite of_int_to_float. unfold to_float. by destruct (Z.abs b <? _).
Qed.

Lemma charge_Some price_dict sale p q :
  charge price_dict sale = Some (p, q) ↔
  ∃ d a price, sale = PDict d ∧ listed_price price_dict d = Some (a, price) ∧
    as_number price = Some p ∧ as_number (quantity_of d) = Some q.
Proof.
  split.
  - destruct sale as [| | | | | |d]; try discriminate. simpl.
    destruct (listed_price price_dict d) as [[a price]|] eqn:Hlisted; [|discriminate].
    simpl. destruct (as_number price) as [p'|] eqn:Hp; [|discriminate]. simpl.
    destruct (as_number (quantity_of d)) as [q'|] eqn:Hq; [|discriminate]. simpl.
    intros [= <- <-]. by exists d, a, price.
  - intros (d & a & price & -> & Hlisted & Hp & Hq). simpl.
    rewrite Hlisted. simpl. rewrite Hp. simpl. by rewrite Hq.
Qed.

Lemma valid_sale_charge price_dict sale :
  valid_sale price_dict sale = true →
  ∃ p q, charge price_dict sale = Some (p, q) ∧
         line_cost price_dict sale = num_mul p q.
Proof.
  intros (d & a & price & -> & Hlisted & Hprice & Hquantity)%valid_sale_inv.
  apply is_number_as_number in Hprice as [p Hp], Hquantity as [q Hq].
  exists p, q. split; [apply charge_Some; by exists d, a, price|].
  rewrite (line_cost_listed _ _ _ _ Hlisted). unfold py_mul. by rewrite Hp, Hq.
Qed.

Lemma invalid_sale_charge price_dict sale :
  valid_sale price_dict sale = false → charge price_dict sale = None.
Proof.
  intros Hinvalid. destruct (charge price_dict sale) as [[p q]|] eqn:Hcharge; [|done].
  apply charge_Some in Hcharge as (d & a & price & -> & Hlisted & Hp & Hq).
  rewrite (valid_sale_dict _ _ _ _ Hlisted) in Hinvalid.
  unfold is_number in Hinvalid. by rewrite Hp, Hq in Hinvalid.
Qed.

(** On records without anomaly, the loop's sum is the specification's. *)
Lemma sum_from_accumulate price_dict sales : ∀ total,
  forallb (valid_sale price_dict) sales = true →
  sum_from price_dict (number_value total) sales =
  match accumulate total (charges price_dict sales) with
  | Some total' => Ok (number_value total')
  | None => Raise OverflowError
  end.
Proof.
  induction sales as [|sale sales IH]; intros total; [done|].
  cbn [forallb sum_from]. intros [Hsale Hsales]%andb_true_iff.
  destruct (valid_sale_charge _ _ Hsale) as (p & q & Hcharge & ->).
  unfold charges. cbn [omap list_omap]. rewrite Hcharge. cbn [accumulate].
  rewrite num_mul_multiply. destruct (multiply p q) as [x|]; [|done].
  rewrite bind_Ok. simpl. unfold py_add. rewrite !as_number_value, num_add_increase.
  destruct (increase total x) as [total'|]; [|done].
  rewrite bind_Ok. simpl. by apply IH.
Qed.

(** C1, amended.  When no record has an anomaly (each has a present
    product that is listed in the catalogue, with a numeric price and a
    numeric quantity), the call returns the sum of [price * quantity] over
    the records, with an empty list of messages, unless the sum itself
    overflows, an integer being too large for a float; then the call raises
    [OverflowError]. *)
Theorem total_is_sum_unless_overflow items sales price_dict :
  build_price_dict ∅ items = Ok price_dict →
  forallb (valid_sale price_dict) sales = true →
  calculate_total_cost (PList items) (PList sales) =
  match accumulate (NInt 0) (charges price_dict sales) with
  | Some total => Ok (number_value total, [])
  | None => Raise OverflowError
  end.
Proof.
  intros Hdict Hvalid.
  rewrite calculate_total_cost_lists, Hdict, bind_Ok.
  rewrite (process_sales_valid price_dict (PInt 0) [] sales eq_refl Hvalid).
  change (PInt 0) with (number_value (NInt 0)).
  rewrite (sum_from_accumulate price_dict sales (NInt 0) Hvalid).
  by destruct (accumulate (NInt 0) (charges price_dict sales)).
Qed.

(** ** The price mapping *)

Lemma entry_of_Some item k price :
  entry_of item = Some (k, price) →
  ∃ (d : gmap string pyval) title a,
    item = PDict d ∧ d !! "title" = Some title ∧ d !! "price" = Some price ∧
    py_hash title = Ok a ∧ k = key_of a.
Proof.
  destruct item as [| | | | | |d]; try discriminate. simpl.
  destruct (d !! "title") as [title|] eqn:Htitle; [|discriminate]. simpl.
  destruct (d !! "price") as [price'|] eqn:Hprice; [|discriminate]. simpl.
  destruct (py_hash title) as [a|e] eqn:Hhash; [|discriminate].
  intros [= <- <-]. by exists d, title, a.
Qed.

Lemma build_price_dict_cons price_dict item items k price :
  entry_of item = Some (k, price) →
  build_price_dict price_dict (item :: items) =
  build_price_dict (<[k := price]> price_dict) items.
Proof.
  intros (d & title & a & -> & Htitle & Hprice & Hhash & ->)%entry_of_Some.
  simpl. by rewrite Htitle, Hprice, !bind_Ok, Hhash, bind_Ok.
Qed.

Lemma build_price_dict_well_formed price_dict items :
  Forall well_formed_item items →
  build_price_dict price_dict items = Ok (insert_entries price_dict items).
Proof.
  intros Hitems. revert price_dict.
  induction Hitems as [|item items [[k price] Hentry] _ IH]; intros price_dict; [done|].
  rewrite (build_price_dict_cons _ _ _ _ _ Hentry), IH.
  unfold insert_entries. simpl. by rewrite Hentry.
Qed.

Lemma insert_entries_app price_dict items1 items2 :
  insert_entries price_dict (items1 ++ items2) =
  insert_entries (insert_entries price_dict items1) items2.
Proof. apply foldl_app. Qed.

(** Items with another title leave the price of a key alone. *)
Lemma insert_entries_other price_dict items k :
  Forall (λ item, ∀ price, entry_of item ≠ Some (k, price)) items →
  insert_entries price_dict items !! k = price_dict !! k.
Proof.
  intros Hitems. revert price_dict.
  induction Hitems as [|item items Hitem _ IH]; intros price_dict; [done|].
  unfold insert_entries in *. simpl. rewrite IH.
  destruct (entry_of item) as [[k' price]|] eqn:Hentry; [|done].
  apply lookup_insert_ne. intros ->. by eapply Hitem.
Qed.

(** The last item with a given title decides its price. *)
Lemma insert_entries_last price_dict before item after k price :
  entry_of item = Some (k, price) →
  Forall (λ item, ∀ price, entry_of item ≠ Some (k, price)) after →
  insert_entries price_dict (before ++ item :: after) !! k = Some price.
Proof.
  intros Hentry Hafter.
  rewrite insert_entries_app. change (item :: after) with ([item] ++ after).
  rewrite insert_entries_app, (insert_entries_other _ _ _ Hafter).
  unfold insert_entries at 1. simpl. rewrite Hentry. apply lookup_insert_eq.
Qed.

(** C6. When two items of the catalogue have the same title, the mapping
    holds the price of the later one (the last with that title), and a sale
    of that product is charged that price times the quantity. *)
Theorem later_price_wins before e1 between e2 after k price1 price2
    (d : gmap string pyval) a x total :
  Forall well_formed_item (before ++ e1 :: between ++ e2 :: after) →
  entry_of e1 = Some (k, price1) →
  entry_of e2 = Some (k, price2) →
  Forall (λ item, ∀ price, entry_of item ≠ Some (k, price)) after →
  py_bool (product_of d) = true →
  py_hash (product_of d) = Ok a →
  key_of a = k →
  py_mul price2 (quantity_of d) = Ok x →
  py_add (PInt 0) x = Ok total →
  (∃ price_dict,
     build_price_dict ∅ (before ++ e1 :: between ++ e2 :: after) = Ok price_dict ∧
     price_dict !! k = Some price2) ∧
  calculate_total_cost (PList (before ++ e1 :: between ++ e2 :: after))
    (PList [PDict d]) = Ok (total, []).
Proof.
  intros Hitems He1 He2 Hafter Hpresent Hhash Hkey Hmul Hadd.
  pose proof (build_price_dict_well_formed ∅ _ Hitems) as Hbuild.
  assert (Hlookup :
    insert_entries ∅ (before ++ e1 :: between ++ e2 :: after) !! k = Some price2).
  { change (before ++ e1 :: between ++ e2 :: after)
      with (before ++ (e1 :: between) ++ e2 :: after).
    rewrite app_assoc. by apply insert_entries_last. }
  split; [eauto|].
  rewrite calculate_total_cost_lists, Hbuild, bind_Ok, process_sales_cons.
  rewrite (process_sale_listed _ _ _ _ a price2).
  - by rewrite Hmul, bind_Ok, Hadd.
  - apply listed_price_Some. by rewrite Hkey.
Qed.

(** ** Records with a price or quantity that is not a number *)

Lemma seq_repeat_cases s n :
  (∃ x, seq_repeat s n = Ok x ∧ is_number x = false) ∨
  seq_repeat s n = Raise TypeError ∨
  seq_repeat s n = Raise OverflowError ∨
  seq_repeat s n = Raise MemoryError.
Proof.
  unfold seq_repeat. destruct (as_index n) as [c|]; [|eauto].
  destruct (_ || _); [eauto|].
  destruct s; eauto;
    repeat match goal with
           | |- context [if ?b then _ else _] => destruct b
           end; eauto.
Qed.

(** Unless both sides are numbers, [*] repeats a sequence. *)
Lemma py_mul_sequence v w :
  as_number v = None ∨ as_number w = None →
  py_mul v w =
  if is_sequence v then seq_repeat v w
  else if is_sequence w then seq_repeat w v
  else Raise TypeError.
Proof.
  unfold py_mul. intros [Hv|Hw].
  - by rewrite Hv.
  - rewrite Hw. by destruct (as_number v).
Qed.

(** Unless both sides are numbers, [*] gives a string or a list, or fails. *)
Lemma py_mul_cases v w :
  is_number v && is_number w = false →
  (∃ x, py_mul v w = Ok x ∧ is_number x = false) ∨
  py_mul v w = Raise TypeError ∨
  py_mul v w = Raise OverflowError ∨
  py_mul v w = Raise MemoryError.
Proof.
  intros Hnum.
  assert (Hmul : as_number v = None ∨ as_number w = None).
  { unfold is_number in Hnum.
    destruct (as_number v), (as_number w); auto; discriminate. }
  apply py_mul_sequence in Hmul.
  rewrite Hmul. destruct (is_sequence v); [apply seq_repeat_cases|].
  destruct (is_sequence w); [apply seq_repeat_cases | eauto].
Qed.

(** Where the source means to answer with the error message: the product is
    listed, the price or the quantity is not a number, and [price * quantity]
    raises nothing but a [TypeError]. *)
Lemma process_sale_invalid price_dict total_cost errors (d : gmap string pyval) a price :
  is_number total_cost = true →
  listed_price price_dict d = Some (a, price) →
  is_number price && is_number (quantity_of d) = false →
  py_mul price (quantity_of d) ≠ Raise OverflowError →
  py_mul price (quantity_of d) ≠ Raise MemoryError →
  process_sale price_dict (total_cost, errors) (PDict d) =
  Ok (total_cost, errors ++ [invalid_price_error a]).
Proof.
  intros Htotal Hlisted Hnum Hoverflow Hmemory.
  rewrite (process_sale_listed _ _ _ _ _ _ Hlisted).
  destruct (py_mul_cases _ _ Hnum) as [(x & Hx & Hseq)|[Hx|[Hx|Hx]]];
    try done; rewrite Hx; [|done].
  by rewrite bind_Ok, (py_add_to_number _ _ Htotal Hseq).
Qed.

(** C3, where the code departs from it.  A price given as a string and a
    quantity beyond the range of [Py_ssize_t]: the repetition raises
    [OverflowError], which the [except TypeError] clause lets through. *)
Theorem string_price_huge_quantity_raises :
  calculate_total_cost
    (PList [obj [("title", PStr "Apple"); ("price", PStr "1.50")]])
    (PList [obj [("Product", PStr "Apple"); ("Quantity", PInt (10 ^ 30))];
            obj [("Product", PStr "Apple"); ("Quantity", PInt 2)]]) =
  Raise OverflowError.
Proof. vm_compute. reflexivity. Qed.

(** ** One outcome per record *)

(** What a step that returns has done. *)
Lemma process_sale_outcome price_dict total_cost errors sale total errors' :
  is_number total_cost = true →
  process_sale price_dict (total_cost, errors) sale = Ok (total, errors') →
  (valid_sale price_dict sale = true ∧ warning_of price_dict sale = [] ∧
   errors' = errors ∧ is_number total = true ∧
   ∃ x, line_cost price_dict sale = Ok x ∧ py_add total_cost x = Ok total) ∨
  (valid_sale price_dict sale = false ∧ total = total_cost ∧
   ∃ w, warning_of price_dict sale = [w] ∧ errors' = errors ++ [w]).
Proof.
  intros Htotal Hstep.
  destruct sale as [| | | | | |d]; try discriminate.
  rewrite process_sale_dict in Hstep.
  destruct (py_bool (product_of d)) eqn:Hpresent.
  - destruct (py_hash (product_of d)) as [a|e] eqn:Hhash; [|discriminate].
    rewrite bind_Ok in Hstep.
    destruct (price_dict !! key_of a) as [price|] eqn:Hprice.
    + assert (Hlisted : listed_price price_dict d = Some (a, price))
        by by apply listed_price_Some.
      rewrite (valid_sale_dict _ _ _ _ Hlisted), (warning_of_listed _ _ _ _ Hlisted).
      rewrite (line_cost_listed _ _ _ _ Hlisted).
      destruct (is_number price && is_number (quantity_of d)) eqn:Hnum.
      * left. apply andb_true_iff in Hnum as [Hp Hq].
        destruct (py_mul_numbers _ _ Hp Hq) as [(x & Hx & Hxnum)|Hx];
          rewrite Hx in Hstep; [|discriminate].
        rewrite bind_Ok in Hstep.
        destruct (py_add_numbers _ _ Htotal Hxnum) as [(t & Ht & Htnum)|Ht];
          rewrite Ht in Hstep; [|discriminate].
        injection Hstep as <- <-. repeat split; try done. by exists x.
      * right.
        destruct (py_mul_cases _ _ Hnum) as [(x & Hx & Hseq)|[Hx|[Hx|Hx]]];
          rewrite Hx in Hstep; try discriminate.
        -- rewrite bind_Ok, (py_add_to_number _ _ Htotal Hseq) in Hstep.
           injection Hstep as <- <-. eauto.
        -- injection Hstep as <- <-. eauto.
    + right. injection Hstep as <- <-.
      simpl. unfold listed_price. rewrite Hpresent, Hhash, Hprice. eauto.
  - right. injection Hstep as <- <-.
    simpl. unfold listed_price. rewrite Hpresent. eauto.
Qed.

Lemma process_sales_outcome price_dict sales : ∀ total_cost errors total errors',
  is_number total_cost = true →
  process_sales price_dict (total_cost, errors) sales = Ok (total, errors') →
  Forall (one_outcome price_dict) sales ∧
  errors' = errors ++ mjoin (warning_of price_dict <$> sales) ∧
  sum_from price_dict total_cost (List.filter (valid_sale price_dict) sales) = Ok total ∧
  is_number total = true.
Proof.
  induction sales as [|sale sales IH]; intros total_cost errors total errors' Htotal Hrun.
  { injection Hrun as <- <-. by rewrite app_nil_r. }
  rewrite process_sales_cons in Hrun.
  apply bind_inv_Ok in Hrun as ([total1 errors1] & Hstep & Hrest).
  destruct (process_sale_outcome _ _ _ _ _ _ Htotal Hstep)
    as [(Hvalid & Hwarn & -> & Hnum & x & Hx & Hadd)|(Hvalid & -> & w & Hwarn & ->)].
  - destruct (IH _ _ _ _ Hnum Hrest) as (Hall & -> & Hsum & Hfinal).
    split; [constructor; [by left | done]|].
    split; [by rewrite fmap_cons, Hwarn|].
    split; [|done].
    cbn [List.filter]. rewrite Hvalid. cbn [sum_from]. by rewrite Hx, bind_Ok, Hadd.
  - destruct (IH _ _ _ _ Htotal Hrest) as (Hall & -> & Hsum & Hfinal).
    split; [constructor; [right; eauto | done]|].
    split; [by rewrite fmap_cons, Hwarn, <- app_assoc|].
    split; [|done].
    cbn [List.filter]. by rewrite Hvalid.
Qed.

Lemma outcomes_count price_dict sales :
  Forall (one_outcome price_dict) sales →
  (length (mjoin (warning_of price_dict <$> sales)) +
   length (List.filter (valid_sale price_dict) sales))%nat = length sales.
Proof.
  induction 1 as [|sale sales [[Hvalid Hwarn]|[Hvalid [w Hwarn]]] _ IH]; [done|..].
  - rewrite fmap_cons. cbn [mjoin list_join List.filter].
    rewrite Hvalid, Hwarn. simpl. rewrite Nat.add_succ_r. f_equal. exact IH.
  - rewrite fmap_cons. cbn [mjoin list_join List.filter].
    rewrite Hvalid, Hwarn. simpl. f_equal. exact IH.
Qed.

(** ** Boolean quantities *)



(** * Further properties of the code *)

(** ** The catalogue is read first *)

Lemma build_price_dict_ill_formed price_dict item items :
  entry_of item = None →
  ∃ e, build_price_dict price_dict (item :: items) = Raise e.
Proof.
  intros Hentry. destruct item as [| | | | | |d]; try by eexists.
  simpl in *.
  destruct (d !! "title") as [title|]; [|by eexists]. simpl in *.
  destruct (d !! "price") as [price|]; [|by eexists]. simpl in *.
  destruct (py_hash title) as [a|e]; [discriminate | by eexists].
Qed.

Lemma build_price_dict_accepts price_dict items :
  (∃ price_dict', build_price_dict price_dict items = Ok price_dict') ↔
  Forall well_formed_item items.
Proof.
  split.
  - revert price_dict. induction items as [|item items IH]; intros price_dict [pd Hpd];
      [constructor|].
    destruct (entry_of item) as [[k price]|] eqn:Hentry.
    + rewrite (build_price_dict_cons _ _ _ _ _ Hentry) in Hpd.
      constructor; [by eexists | eauto].
    + destruct (build_price_dict_ill_formed price_dict item items Hentry) as [e He].
      congruence.
  - intros Hitems. rewrite (build_price_dict_well_formed _ _ Hitems). eauto.
Qed.

(** X1. The catalogue is turned into the price mapping before any sale is
    looked at.  So without sales the result is [(0, [])] exactly when every
    item of the catalogue is an object with a hashable title and a price,
    and a catalogue with an item that is not makes the call raise whatever
    the sales are, not even iterable ones. *)
Theorem catalogue_is_checked_first items :
  (calculate_total_cost (PList items) (PList []) = Ok (PInt 0, []) ↔
   Forall well_formed_item items) ∧
  (¬ Forall well_formed_item items →
   ∀ sales_data, ∃ e, calculate_total_cost (PList items) sales_data = Raise e).
Proof.
  split.
  - rewrite calculate_total_cost_lists, <- (build_price_dict_accepts ∅). split.
    + intros Hrun. destruct (build_price_dict ∅ items) as [pd|e]; [eauto | discriminate].
    + by intros [pd ->].
  - intros Hitems sales_data. unfold calculate_total_cost. simpl.
    destruct (build_price_dict ∅ items) as [pd|e] eqn:Hbuild; [|by exists e].
    destruct Hitems. apply (build_price_dict_accepts ∅). eauto.
Qed.

(** ** An empty catalogue *)

Lemma process_sales_empty_catalogue sales : ∀ total_cost errors,
  forallb well_formed_sale sales = true →
  ∃ errors',
    process_sales ∅ (total_cost, errors) sales = Ok (total_cost, errors ++ errors') ∧
    length errors' = length sales.
Proof.
  induction sales as [|sale sales IH]; intros total_cost errors.
  { intros _. exists []. by rewrite app_nil_r. }
  cbn [forallb]. intros [Hsale Hsales]%andb_true_iff.
  assert (Hstep : ∃ w, process_sale ∅ (total_cost, errors) sale =
                       Ok (total_cost, errors ++ [w])).
  { destruct sale as [| | | | | |d]; try discriminate.
    rewrite process_sale_dict. simpl in Hsale.
    destruct (py_bool (product_of d)); [|eauto].
    destruct (py_hash (product_of d)) as [a|e]; [|discriminate].
    rewrite bind_Ok, lookup_empty. eauto. }
  destruct Hstep as [w Hstep].
  destruct (IH total_cost (errors ++ [w]) Hsales) as (errors' & Hrest & Hlength).
  exists (w :: errors'). rewrite process_sales_cons, Hstep, bind_Ok, Hrest.
  split; [by rewrite <- app_assoc | simpl; by rewrite Hlength].
Qed.

(** X2. With an empty catalogue nothing is charged: on sale objects whose
    product is false or hashable the total stays the integer 0 and every
    record is answered with one message. *)
Theorem empty_catalogue_charges_nothing sales :
  forallb well_formed_sale sales = true →
  ∃ errors,
    calculate_total_cost (PList []) (PList sales) = Ok (PInt 0, errors) ∧
    length errors = length sales.
Proof.
  intros Hsales.
  destruct (process_sales_empty_catalogue sales (PInt 0) [] Hsales)
    as (errors & Hrun & Hlength).
  exists errors. split; [|done].
  rewrite calculate_total_cost_lists. exact Hrun.
Qed.

(** ** Fields the code does not read *)

Lemma process_sales_replace price_dict sale sale' before after :
  (∀ state, process_sale price_dict state sale = process_sale price_dict state sale') →
  ∀ state,
    process_sales price_dict state (before ++ sale :: after) =
    process_sales price_dict state (before ++ sale' :: after).
Proof.
  intros Hsame state. rewrite !process_sales_app.
  destruct (process_sales price_dict state before) as [state'|e]; [|done].
  by rewrite !bind_Ok, !process_sales_cons, Hsame.
Qed.

(** X3. Of a sale record only ["Product"] and ["Quantity"] are read: giving
    a record any other field, with any value, changes nothing in the result
    of the call. *)
Theorem other_sale_fields_are_ignored price_catalogue before after
    (d : gmap string pyval) field value :
  field ≠ "Product" → field ≠ "Quantity" →
  calculate_total_cost price_catalogue
    (PList (before ++ PDict (<[field := value]> d) :: after)) =
  calculate_total_cost price_catalogue (PList (before ++ PDict d :: after)).
Proof.
  intros Hproduct Hquantity. unfold calculate_total_cost.
  destruct (py_iter price_catalogue) as [items|e]; [|done]. rewrite !bind_Ok.
  destruct (build_price_dict ∅ items) as [price_dict|e]; [|done].
  rewrite !bind_Ok. simpl. apply process_sales_replace.
  intros [total_cost errors]. rewrite !process_sale_dict.
  unfold product_of, quantity_of. by rewrite !lookup_insert_ne.
Qed.

Lemma build_price_dict_app price_dict items1 items2 :
  build_price_dict price_dict (items1 ++ items2) =
  (price_dict' ← build_price_dict price_dict items1;
   build_price_dict price_dict' items2).
Proof.
  revert price_dict. induction items1 as [|item items1 IH]; intros price_dict; [done|].
  simpl.
  destruct (py_getitem item "title") as [title|e]; [|done]. rewrite !bind_Ok.
  destruct (py_getitem item "price") as [price|e]; [|done]. rewrite !bind_Ok.
  destruct (py_hash title) as [a|e]; [|done]. rewrite !bind_Ok.
  apply IH.
Qed.

(** X4. Of a catalogue item only ["title"] and ["price"] are read: any
    other field of an item, with any value, changes nothing in the result of
    the call. *)
Theorem other_item_fields_are_ignored sales_data before after
    (d : gmap string pyval) field value :
  field ≠ "title" → field ≠ "price" →
  calculate_total_cost (PList (before ++ PDict (<[field := value]> d) :: after))
    sales_data =
  calculate_total_cost (PList (before ++ PDict d :: after)) sales_data.
Proof.
  intros Htitle Hprice. unfold calculate_total_cost. simpl.
  rewrite !build_price_dict_app.
  destruct (build_price_dict ∅ before) as [price_dict|e]; [|done].
  rewrite !bind_Ok. simpl. by rewrite !lookup_insert_ne.
Qed.

(** ** A record without a quantity *)

Lemma py_mul_None v : py_mul v PNone = Raise TypeError.
Proof. by destruct v. Qed.

(** X5. A record for a listed product that has no ["Quantity"] (or has
    [null] there) is answered with the invalid-price message, whatever the
    price is; the total is left as it was and the run goes on. *)
Theorem missing_quantity_is_an_error items before after price_dict total_cost errors
    (d : gmap string pyval) a price :
  build_price_dict ∅ items = Ok price_dict →
  process_sales price_dict (PInt 0, []) before = Ok (total_cost, errors) →
  listed_price price_dict d = Some (a, price) →
  quantity_of d = PNone →
  calculate_total_cost (PList items) (PList (before ++ PDict d :: after)) =
  process_sales price_dict (total_cost, errors ++ [invalid_price_error a]) after.
Proof.
  intros Hdict Hbefore Hlisted Hquantity.
  rewrite (calculate_total_cost_split _ _ _ _ _ _ Hdict Hbefore).
  destruct (process_sales_outcome price_dict before (PInt 0) [] total_cost errors
              eq_refl Hbefore) as (_ & _ & _ & Hnum).
  rewrite (process_sale_invalid _ _ _ _ a price); try done.
  - rewrite Hquantity. apply andb_false_r.
  - by rewrite Hquantity, py_mul_None.
  - by rewrite Hquantity, py_mul_None.
Qed.

(** ** Catalogue items no sale refers to *)

Lemma process_sale_agree price_dict1 price_dict2 state sale :
  (∀ k, sale_key sale = Some k → price_dict1 !! k = price_dict2 !! k) →
  process_sale price_dict1 state sale = process_sale price_dict2 state sale.
Proof.
  intros Hagree. destruct state as [total_cost errors].
  destruct sale as [| | | | | |d]; try done.
  rewrite !process_sale_dict. simpl in Hagree.
  destruct (py_bool (product_of d)); [|done].
  destruct (py_hash (product_of d)) as [a|e]; [|done].
  by rewrite !bind_Ok, (Hagree _ eq_refl).
Qed.

Lemma process_sales_agree price_dict1 price_dict2 sales : ∀ state,
  Forall (λ sale, ∀ k, sale_key sale = Some k →
                       price_dict1 !! k = price_dict2 !! k) sales →
  process_sales price_dict1 state sales = process_sales price_dict2 state sales.
Proof.
  induction sales as [|sale sales IH]; intros state Hagree; [done|].
  apply Forall_cons in Hagree as [Hsale Hsales].
  rewrite !process_sales_cons, (process_sale_agree _ price_dict2 _ _ Hsale).
  destruct (process_sale price_dict2 state sale) as [state'|e]; [|done].
  rewrite !bind_Ok. by apply IH.
Qed.

Lemma build_price_dict_raises item :
  entry_of item = None →
  ∃ e, ∀ price_dict items, build_price_dict price_dict (item :: items) = Raise e.
Proof.
  intros Hentry. destruct item as [| | | | | |d]; try by eexists.
  simpl in *.
  destruct (d !! "title") as [title|]; [|by eexists]. simpl in *.
  destruct (d !! "price") as [price|]; [|by eexists]. simpl in *.
  destruct (py_hash title) as [a|e]; [discriminate | by eexists].
Qed.

(** Two mappings that agree away from [k] still do after the same items
    went in, and the items are rejected by both or by none. *)
Lemma build_price_dict_agree k items : ∀ price_dict1 price_dict2 : gmap hkey pyval,
  (∀ j, j ≠ k → price_dict1 !! j = price_dict2 !! j) →
  (∃ built1 built2 : gmap hkey pyval,
     build_price_dict price_dict1 items = Ok built1 ∧
     build_price_dict price_dict2 items = Ok built2 ∧
     ∀ j, j ≠ k → built1 !! j = built2 !! j) ∨
  (∃ e, build_price_dict price_dict1 items = Raise e ∧
        build_price_dict price_dict2 items = Raise e).
Proof.
  induction items as [|item items IH]; intros price_dict1 price_dict2 Hagree.
  { left. by exists price_dict1, price_dict2. }
  destruct (entry_of item) as [[k' price]|] eqn:Hentry.
  - rewrite !(build_price_dict_cons _ _ _ _ _ Hentry). apply IH.
    intros j Hj. destruct (decide (k' = j)) as [->|Hne].
    + by rewrite !lookup_insert_eq.
    + rewrite !lookup_insert_ne by done. by apply Hagree.
  - right. destruct (build_price_dict_raises item Hentry) as [e He].
    exists e. by rewrite !He.
Qed.

(** X6. A catalogue item whose title is the product of no sale record can
    be taken out of the catalogue without any change to the result. *)
Theorem unused_item_does_not_matter before item after sales k price :
  entry_of item = Some (k, price) →
  Forall (λ sale, sale_key sale ≠ Some k) sales →
  calculate_total_cost (PList (before ++ item :: after)) (PList sales) =
  calculate_total_cost (PList (before ++ after)) (PList sales).
Proof.
  intros Hentry Hsales. rewrite !calculate_total_cost_lists, !build_price_dict_app.
  destruct (build_price_dict ∅ before) as [price_dict|e]; [|done].
  rewrite !bind_Ok, (build_price_dict_cons _ _ _ _ _ Hentry).
  destruct (build_price_dict_agree k after (<[k := price]> price_dict) price_dict)
    as [(built1 & built2 & -> & -> & Hagree)|(e & -> & ->)]; [| |done].
  - intros j Hj. by rewrite lookup_insert_ne.
  - rewrite !bind_Ok. apply process_sales_agree.
    eapply Forall_impl; [exact Hsales|].
    intros sale Hsale j Hj. apply Hagree. congruence.
Qed.

(** ** Anomalous records and the total *)

Lemma forallb_filter_valid price_dict sales :
  forallb (valid_sale price_dict) (List.filter (valid_sale price_dict) sales) = true.
Proof.
  induction sales as [|sale sales IH]; [done|]. cbn [List.filter].
  destruct (valid_sale price_dict sale) eqn:Hvalid; [|done].
  cbn [forallb]. by rewrite Hvalid, IH.
Qed.

(** X7. The records that are answered with a message have no part in the
    total: a run that returns gives the same total as the run on the charged
    records alone, which returns without a message. *)
Theorem anomalous_records_do_not_count items sales price_dict total errors :
  build_price_dict ∅ items = Ok price_dict →
  calculate_total_cost (PList items) (PList sales) = Ok (total, errors) →
  calculate_total_cost (PList items)
    (PList (List.filter (valid_sale price_dict) sales)) = Ok (total, []).
Proof.
  intros Hdict Hrun. rewrite calculate_total_cost_lists, Hdict, bind_Ok in *.
  destruct (process_sales_outcome price_dict sales (PInt 0) [] total errors eq_refl Hrun)
    as (_ & _ & Hsum & _).
  rewrite (process_sales_valid price_dict (PInt 0) [] _ eq_refl
             (forallb_filter_valid price_dict sales)).
  by rewrite Hsum.
Qed.

(** ** Messages of a run in two parts *)

(** X8. The messages do not depend on what was processed before: when the
    run on [sales1 ++ sales2] returns, so does the run on [sales1], and the
    messages of the whole are those of [sales1] followed by those the run on
    [sales2] alone gives, if it returns. *)
Theorem messages_concatenate items sales1 sales2 total errors total2 errors2 :
  calculate_total_cost (PList items) (PList (sales1 ++ sales2)) = Ok (total, errors) →
  calculate_total_cost (PList items) (PList sales2) = Ok (total2, errors2) →
  ∃ total1 errors1,
    calculate_total_cost (PList items) (PList sales1) = Ok (total1, errors1) ∧
    errors = errors1 ++ errors2.
Proof.
  rewrite !calculate_total_cost_lists.
  destruct (build_price_dict ∅ items) as [price_dict|e]; [|discriminate].
  rewrite !bind_Ok, process_sales_app. intros Hrun Hrun2.
  apply bind_inv_Ok in Hrun as ([total1 errors1] & Hrun1 & Hrest).
  exists total1, errors1. split; [done|].
  destruct (process_sales_outcome price_dict sales1 (PInt 0) [] total1 errors1
              eq_refl Hrun1) as (_ & _ & _ & Hnum).
  destruct (process_sales_outcome price_dict sales2 total1 errors1 total errors
              Hnum Hrest) as (_ & -> & _).
  by destruct (process_sales_outcome price_dict sales2 (PInt 0) [] total2 errors2
                 eq_refl Hrun2) as (_ & -> & _).
Qed.

(** ** The order of integer sales *)

Lemma integer_costs_exist price_dict sales :
  Forall (λ sale, is_Some (integer_cost price_dict sale)) sales →
  Forall2 (λ sale cost, integer_cost price_dict sale = Some cost) sales
    ((λ sale, default 0 (integer_cost price_dict sale)) <$> sales).
Proof.
  induction 1 as [|sale sales [cost Hcost] _ IH]; [constructor|].
  rewrite fmap_cons. constructor; [by rewrite Hcost | done].
Qed.

Lemma sum_permutation (costs1 costs2 : list Z) :
  costs1 ≡ₚ costs2 → foldr Z.add 0 costs1 = foldr Z.add 0 costs2.
Proof. induction 1; simpl; lia. Qed.

(** X9. When every record is charged an integer price times an integer
    quantity, the order of the records does not matter: any rearrangement of
    the sales gives the same result. *)
Theorem integer_sales_in_any_order items sales sales' price_dict :
  build_price_dict ∅ items = Ok price_dict →
  Forall (λ sale, is_Some (integer_cost price_dict sale)) sales →
  sales ≡ₚ sales' →
  calculate_total_cost (PList items) (PList sales') =
  calculate_total_cost (PList items) (PList sales).
Proof.
  intros Hdict Hsales Hperm.
  assert (Hsales' : Forall (λ sale, is_Some (integer_cost price_dict sale)) sales')
    by by rewrite <- Hperm.
  rewrite (integer_total _ _ _ _ Hdict (integer_costs_exist _ _ Hsales)).
  rewrite (integer_total _ _ _ _ Hdict (integer_costs_exist _ _ Hsales')).
  do 3 f_equal. apply sum_permutation. by rewrite Hperm.
Qed.

(** ** The exceptions that get out *)

Lemma py_mul_raises v w e :
  py_mul v w = Raise e → e = TypeError ∨ e = OverflowError ∨ e = MemoryError.
Proof.
  intros Hmul. destruct (is_number v && is_number w) eqn:Hnum.
  - apply andb_true_iff in Hnum as [Hv Hw].
    destruct (py_mul_numbers v w Hv Hw) as [(x & Hx & _)|Hx];
      rewrite Hx in Hmul; [discriminate|]. injection Hmul as <-. auto.
  - destruct (py_mul_cases v w Hnum) as [(x & Hx & _)|[Hx|[Hx|Hx]]];
      rewrite Hx in Hmul; [discriminate| | |]; injection Hmul as <-; auto.
Qed.

Lemma process_sale_escapes price_dict total_cost errors sale :
  is_number total_cost = true →
  well_formed_sale sale = true →
  (∃ total errors', process_sale price_dict (total_cost, errors) sale = Ok (total, errors')
                    ∧ is_number total = true) ∨
  process_sale price_dict (total_cost, errors) sale = Raise OverflowError ∨
  process_sale price_dict (total_cost, errors) sale = Raise MemoryError.
Proof.
  intros Htotal Hsale. destruct sale as [| | | | | |d]; try discriminate.
  rewrite process_sale_dict. simpl in Hsale.
  destruct (py_bool (product_of d)); [|eauto].
  destruct (py_hash (product_of d)) as [a|e]; [|discriminate].
  rewrite bind_Ok. destruct (price_dict !! key_of a) as [price|]; [|eauto].
  destruct (py_mul price (quantity_of d)) as [x|e] eqn:Hmul.
  - rewrite bind_Ok. destruct (is_number x) eqn:Hx.
    + destruct (py_add_numbers _ _ Htotal Hx) as [(t & -> & Ht)| ->]; eauto.
    + rewrite (py_add_to_number _ _ Htotal Hx). eauto.
  - destruct (py_mul_raises _ _ _ Hmul) as [-> | [-> | ->]]; eauto.
Qed.

Lemma process_sales_escapes price_dict sales : ∀ total_cost errors,
  is_number total_cost = true →
  forallb well_formed_sale sales = true →
  (∃ state, process_sales price_dict (total_cost, errors) sales = Ok state) ∨
  process_sales price_dict (total_cost, errors) sales = Raise OverflowError ∨
  process_sales price_dict (total_cost, errors) sales = Raise MemoryError.
Proof.
  induction sales as [|sale sales IH]; intros total_cost errors Htotal; [eauto|].
  cbn [forallb]. intros [Hsale Hsales]%andb_true_iff. rewrite process_sales_cons.
  destruct (process_sale_escapes price_dict total_cost errors sale Htotal Hsale)
    as [(total & errors' & -> & Hnum)|[-> | ->]]; eauto.
Qed.

(** X10. On a catalogue of objects with a hashable title and a price and
    sale objects with a false or hashable product, the only exceptions that
    can get out of the call are [OverflowError] and [MemoryError], those of
    the arithmetic; never a [KeyError], [TypeError] or [AttributeError]. *)
Theorem only_arithmetic_errors_escape items sales :
  Forall well_formed_item items →
  forallb well_formed_sale sales = true →
  (∃ total errors, calculate_total_cost (PList items) (PList sales) = Ok (total, errors)) ∨
  calculate_total_cost (PList items) (PList sales) = Raise OverflowError ∨
  calculate_total_cost (PList items) (PList sales) = Raise MemoryError.
Proof.
  intros Hitems Hsales.
  rewrite calculate_total_cost_lists, (build_price_dict_well_formed _ _ Hitems), bind_Ok.
  destruct (process_sales_escapes (insert_entries ∅ items) sales (PInt 0) [] eq_refl Hsales)
    as [[[total errors] Hrun]|Hraise]; eauto.
Qed.

(** ** The messages *)

Lemma warning_of_messages price_dict sale :
  Forall is_message (warning_of price_dict sale) ∧
  (length (warning_of price_dict sale) ≤ 1)%nat.
Proof.
  assert (Hnone : Forall is_message [] ∧ (length (@nil string) ≤ 1)%nat)
    by (split; [constructor | simpl; lia]).
  assert (Hone : ∀ m, is_message m →
            Forall is_message [m] ∧ (length [m] ≤ 1)%nat)
    by (intros m Hm; split; [by apply Forall_singleton | simpl; lia]).
  destruct sale as [| | | | | |d]; simpl; try done.
  destruct (py_bool (product_of d)); [|apply Hone; by left].
  destruct (py_hash (product_of d)) as [a|e]; [|done].
  destruct (price_dict !! key_of a) as [price|].
  - destruct (_ && _); [done|]. apply Hone. right. right. by exists a.
  - apply Hone. right. left. by exists a.
Qed.

Lemma warnings_messages price_dict sales :
  Forall is_message (mjoin (warning_of price_dict <$> sales)) ∧
  (length (mjoin (warning_of price_dict <$> sales)) ≤ length sales)%nat.
Proof.
  induction sales as [|sale sales [IH1 IH2]]; [by split; [constructor|]|].
  rewrite fmap_cons. cbn [mjoin list_join].
  destruct (warning_of_messages price_dict sale) as [H1 H2].
  split; [by apply Forall_app|]. rewrite length_app.
  exact (Nat.add_le_mono _ 1 _ _ H2 IH2).
Qed.

(** X11. Every message of a run that returns is one of three: the
    missing-product warning, the not-listed warning for some product, or the
    invalid-price error for some product; and there are no more messages
    than records. *)
Theorem messages_are_of_three_kinds items sales total errors :
  calculate_total_cost (PList items) (PList sales) = Ok (total, errors) →
  Forall is_message errors ∧ (length errors ≤ length sales)%nat.
Proof.
  rewrite calculate_total_cost_lists.
  destruct (build_price_dict ∅ items) as [price_dict|e]; [|discriminate].
  rewrite bind_Ok. intros Hrun.
  destruct (process_sales_outcome price_dict sales (PInt 0) [] total errors eq_refl Hrun)
    as (_ & -> & _).
  apply warnings_messages.
Qed.

(** ** The order of the catalogue *)

Lemma insert_entries_cons price_dict item items :
  insert_entries price_dict (item :: items) =
  insert_entries (match entry_of item with
                  | Some (k, price) => <[k := price]> price_dict
                  | None => price_dict
                  end) items.
Proof. reflexivity. Qed.

Lemma insert_entries_not_key price_dict items j :
  j ∉ catalogue_keys items →
  insert_entries price_dict items !! j = price_dict !! j.
Proof.
  intros Hj. apply insert_entries_other. apply Forall_forall.
  intros item Hitem price Hentry. apply Hj.
  unfold catalogue_keys. apply list_elem_of_fmap. exists (j, price). split; [done|].
  apply list_elem_of_omap. eauto.
Qed.

Lemma insert_entries_lookup items : ∀ (price_dict : gmap hkey pyval) j price,
  NoDup (catalogue_keys items) →
  (j, price) ∈ omap entry_of items →
  insert_entries price_dict items !! j = Some price.
Proof.
  unfold catalogue_keys.
  induction items as [|item items IH]; intros price_dict j price Hnodup Hin.
  { by apply elem_of_nil in Hin. }
  rewrite insert_entries_cons. cbn [omap list_omap] in Hnodup, Hin.
  destruct (entry_of item) as [[k price0]|].
  - rewrite fmap_cons in Hnodup. apply NoDup_cons in Hnodup as [Hk Hnodup].
    apply elem_of_cons in Hin as [[= -> ->]|Hin]; [|by apply IH].
    rewrite (insert_entries_not_key _ _ _ Hk). apply lookup_insert_eq.
  - by apply IH.
Qed.

(** X14. In a catalogue of well-formed items with pairwise different
    titles the order of the items does not matter: any rearrangement of the
    catalogue gives the same result, whatever the sales. *)
Theorem catalogue_in_any_order items items' sales_data :
  Forall well_formed_item items →
  NoDup (catalogue_keys items) →
  items ≡ₚ items' →
  calculate_total_cost (PList items') sales_data =
  calculate_total_cost (PList items) sales_data.
Proof.
  intros Hitems Hnodup Hperm.
  assert (Hitems' : Forall well_formed_item items') by by rewrite <- Hperm.
  assert (Hnodup' : NoDup (catalogue_keys items'))
    by (unfold catalogue_keys in *; by rewrite <- Hperm).
  unfold calculate_total_cost. simpl.
  rewrite !build_price_dict_well_formed by done.
  replace (insert_entries ∅ items') with (insert_entries ∅ items); [done|].
  apply map_eq. intros j.
  destruct (decide (j ∈ catalogue_keys items)) as [Hj|Hj].
  - pose proof Hj as Hj'. unfold catalogue_keys in Hj'.
    apply list_elem_of_fmap in Hj' as ([k price] & -> & Hin). simpl.
    rewrite (insert_entries_lookup items ∅ k price Hnodup Hin).
    symmetry. apply insert_entries_lookup; [done|]. by rewrite <- Hperm.
  - rewrite (insert_entries_not_key _ _ _ Hj). symmetry.
    apply insert_entries_not_key. unfold catalogue_keys in *. by rewrite <- Hperm.
Qed.

(** ** The type of the total *)

Lemma num_add_int_or_float x y total :
  num_add x y = Ok total → (∃ z, total = PInt z) ∨ (∃ f, total = PFloat f).
Proof.
  destruct x as [a|f], y as [b|g]; simpl.
  - intros [= <-]. eauto.
  - destruct (Float.of_int a); simpl; [|discriminate]. intros [= <-]. eauto.
  - destruct (Float.of_int b); simpl; [|discriminate]. intros [= <-]. eauto.
  - intros [= <-]. eauto.
Qed.

Lemma process_sales_int_or_float price_dict sales : ∀ total_cost errors total errors',
  (∃ z, total_cost = PInt z) ∨ (∃ f, total_cost = PFloat f) →
  process_sales price_dict (total_cost, errors) sales = Ok (total, errors') →
  (∃ z, total = PInt z) ∨ (∃ f, total = PFloat f).
Proof.
  induction sales as [|sale sales IH]; intros total_cost errors total errors' Htotal Hrun.
  { by injection Hrun as <- <-. }
  rewrite process_sales_cons in Hrun.
  apply bind_inv_Ok in Hrun as ([total1 errors1] & Hstep & Hrest).
  apply (IH total1 errors1 total errors'); [|done].
  assert (Hnum : is_number total_cost = true) by by destruct Htotal as [[? ->]|[? ->]].
  destruct (process_sale_outcome _ _ _ _ _ _ Hnum Hstep)
    as [(_ & _ & _ & _ & x & _ & Hadd)|(_ & -> & _)]; [|done].
  destruct (py_add_number_result _ _ _ Hnum Hadd) as [Hx _].
  apply is_number_as_number in Hnum as [n Hn], Hx as [m Hm].
  unfold py_add in Hadd. rewrite Hn, Hm in Hadd.
  by apply num_add_int_or_float in Hadd.
Qed.

(** X15. The total that is returned is always an integer or a float: it
    starts as the integer 0 and only sums of numbers are assigned to it, so
    it is never a boolean, a string or a list, whatever the prices and
    quantities are. *)
Theorem total_is_int_or_float price_catalogue sales_data total errors :
  calculate_total_cost price_catalogue sales_data = Ok (total, errors) →
  (∃ z, total = PInt z) ∨ (∃ f, total = PFloat f).
Proof.
  unfold calculate_total_cost. intros Hrun.
  apply bind_inv_Ok in Hrun as (items & _ & Hrun).
  apply bind_inv_Ok in Hrun as (price_dict & _ & Hrun).
  apply bind_inv_Ok in Hrun as (sales & _ & Hrun).
  apply (process_sales_int_or_float price_dict sales (PInt 0) [] total errors); eauto.
Qed.

(** ** Documents that are objects *)

Lemma py_iter_object (d : gmap string pyval) :
  d ≠ ∅ → ∃ key rest, py_iter (PDict d) = Ok (PStr key :: rest).
Proof.
  intros Hd. simpl. destruct (map_to_list d) as [|[key v] rest] eqn:Hlist.
  - by apply map_to_list_empty_iff in Hlist.
  - rewrite fmap_cons. by eexists _, _.
Qed.

(** X16. A document that is a JSON object where an array is expected is
    not treated as an anomaly: iterating it gives its keys, which are
    strings, so a non-empty object as catalogue raises [TypeError] at
    [item["title"]], and a non-empty object as sales (with a well-formed
    catalogue) raises [AttributeError] at [sale.get]. *)
Theorem object_documents_raise (d : gmap string pyval) :
  d ≠ ∅ →
  (∀ sales_data, calculate_total_cost (PDict d) sales_data = Raise TypeError) ∧
  (∀ items, Forall well_formed_item items →
            calculate_total_cost (PList items) (PDict d) = Raise AttributeError).
Proof.
  intros Hd. destruct (py_iter_object d Hd) as (key & rest & Hiter). split.
  - intros sales_data. unfold calculate_total_cost. by rewrite Hiter.
  - intros items Hitems. unfold calculate_total_cost.
    change (py_iter (PList items)) with (Ok (A:=list pyval) items).
    by rewrite bind_Ok, (build_price_dict_well_formed _ _ Hitems), bind_Ok, Hiter.
Qed.

(** ** The entry point *)

Lemma io_bind_eq {A B : Type} (m : io A) (k : A → io B) trace :
  (m ≫= k) trace =
  match m trace with
  | (Ok a, trace') => k a trace'
  | (Raise e, trace') => (Raise e, trace')
  end.
Proof. reflexivity. Qed.

Lemma perform_Ok sys op trace u trace' :
  perform sys op trace = (Ok u, trace') → trace' = trace ++ [op].
Proof. unfold perform. destruct (fails sys trace op); congruence. Qed.

Lemma perform_quiet sys op trace :
  quiet sys → perform sys op trace = (Ok (), trace ++ [op]).
Proof. intros Hquiet. unfold perform. by rewrite Hquiet. Qed.

Lemma for_each_Ok {A : Type} sys (f : A → output) l : ∀ trace u trace',
  for_each l (λ x, perform sys (f x)) trace = (Ok u, trace') →
  trace' = trace ++ (f <$> l).
Proof.
  induction l as [|x l IH]; intros trace u trace'; simpl.
  { intros [= _ <-]. by rewrite app_nil_r. }
  rewrite io_bind_eq.
  destruct (perform sys (f x) trace) as [[[]|e] trace1] eqn:Hx; [|discriminate].
  apply perform_Ok in Hx as ->. intros ->%IH. by rewrite <- app_assoc.
Qed.

Lemma for_each_quiet {A : Type} sys (f : A → output) l : ∀ trace,
  quiet sys →
  for_each l (λ x, perform sys (f x)) trace = (Ok (), trace ++ (f <$> l)).
Proof.
  induction l as [|x l IH]; intros trace Hquiet; simpl.
  { by rewrite app_nil_r. }
  rewrite io_bind_eq, (perform_quiet _ _ _ Hquiet), IH by done.
  by rewrite <- app_assoc.
Qed.

(** What the file gets is a line of the report and a newline at a time. *)
Lemma write_lines_Ok sys total_cost execution_time errors trace u trace' :
  write_lines sys total_cost execution_time errors trace = (Ok u, trace') →
  ∃ total,
    py_format_f 2 total_cost = Ok total ∧
    trace' = trace ++ ((λ line, WriteResults (line +:+ newline)) <$>
                         report_lines total execution_time errors).
Proof.
  unfold write_lines, lift. rewrite io_bind_eq.
  destruct (py_format_f 2 total_cost) as [total|e]; [|discriminate].
  rewrite io_bind_eq.
  destruct (perform sys _ trace) as [[[]|e] trace1] eqn:H1; [|discriminate].
  apply perform_Ok in H1 as ->. rewrite io_bind_eq.
  destruct (perform sys _ (trace ++ _)) as [[[]|e] trace2] eqn:H2; [|discriminate].
  apply perform_Ok in H2 as ->. intros Hrest. exists total. split; [done|].
  unfold report_lines. destruct errors as [|m errors].
  - injection Hrest as _ <-. by rewrite <- app_assoc.
  - rewrite io_bind_eq in Hrest.
    destruct (perform sys _ (_ ++ _)) as [[[]|e] trace3] eqn:H3; [|discriminate].
    apply perform_Ok in H3 as ->.
    apply (for_each_Ok sys (λ error, WriteResults (error +:+ newline))) in Hrest as ->.
    by rewrite <- !app_assoc.
Qed.

Lemma write_lines_quiet sys total_cost execution_time errors trace total :
  quiet sys →
  py_format_f 2 total_cost = Ok total →
  write_lines sys total_cost execution_time errors trace =
  (Ok (), trace ++ ((λ line, WriteResults (line +:+ newline)) <$>
                      report_lines total execution_time errors)).
Proof.
  intros Hquiet Hformat. unfold write_lines, lift.
  rewrite io_bind_eq, Hformat, io_bind_eq, (perform_quiet _ _ _ Hquiet).
  rewrite io_bind_eq, (perform_quiet _ _ _ Hquiet).
  unfold report_lines. destruct errors as [|m errors].
  - simpl. by rewrite <- app_assoc.
  - rewrite io_bind_eq, (perform_quiet _ _ _ Hquiet).
    rewrite (for_each_quiet sys (λ error, WriteResults (error +:+ newline))) by done.
    by rewrite <- !app_assoc.
Qed.

Lemma print_results_Ok sys total_cost execution_time errors trace u trace' :
  print_results sys total_cost execution_time errors trace = (Ok u, trace') →
  ∃ total,
    py_format_f 2 total_cost = Ok total ∧
    trace' = trace ++ (Print <$> report_lines total execution_time errors).
Proof.
  unfold print_results, lift. rewrite io_bind_eq.
  destruct (py_format_f 2 total_cost) as [total|e]; [|discriminate].
  rewrite io_bind_eq.
  destruct (perform sys _ trace) as [[[]|e] trace1] eqn:H1; [|discriminate].
  apply perform_Ok in H1 as ->. rewrite io_bind_eq.
  destruct (perform sys _ (trace ++ _)) as [[[]|e] trace2] eqn:H2; [|discriminate].
  apply perform_Ok in H2 as ->. intros Hrest. exists total. split; [done|].
  unfold report_lines. destruct errors as [|m errors].
  - injection Hrest as _ <-. by rewrite <- app_assoc.
  - rewrite io_bind_eq in Hrest.
    destruct (perform sys _ (_ ++ _)) as [[[]|e] trace3] eqn:H3; [|discriminate].
    apply perform_Ok in H3 as ->.
    apply (for_each_Ok sys Print) in Hrest as ->.
    by rewrite <- !app_assoc.
Qed.

Lemma print_results_quiet sys total_cost execution_time errors trace total :
  quiet sys →
  py_format_f 2 total_cost = Ok total →
  print_results sys total_cost execution_time errors trace =
  (Ok (), trace ++ (Print <$> report_lines total execution_time errors)).
Proof.
  intros Hquiet Hformat. unfold print_results, lift.
  rewrite io_bind_eq, Hformat, io_bind_eq, (perform_quiet _ _ _ Hquiet).
  rewrite io_bind_eq, (perform_quiet _ _ _ Hquiet).
  unfold report_lines. destruct errors as [|m errors].
  - simpl. by rewrite <- app_assoc.
  - rewrite io_bind_eq, (perform_quiet _ _ _ Hquiet).
    rewrite (for_each_quiet sys Print) by done.
    by rewrite <- !app_assoc.
Qed.

(** The total of a call that returns can be formatted, unless it is an
    integer too large for a float. *)
Lemma format_total price_catalogue sales_data total_cost errors :
  calculate_total_cost price_catalogue sales_data = Ok (total_cost, errors) →
  (∃ total, py_format_f 2 total_cost = Ok total) ∨
  (py_format_f 2 total_cost = Raise OverflowError ∧
   ∃ z, total_cost = PInt z ∧ Float.overflow_threshold ≤ Z.abs z).
Proof.
  unfold calculate_total_cost. intros Hrun.
  apply bind_inv_Ok in Hrun as (items & _ & Hrun).
  apply bind_inv_Ok in Hrun as (price_dict & _ & Hrun).
  apply bind_inv_Ok in Hrun as (sales & _ & Hrun).
  destruct (process_sales_int_or_float price_dict sales (PInt 0) [] total_cost errors)
    as [[z ->]|[f ->]]; eauto.
  unfold py_format_f, Float.of_int. simpl.
  destruct (Z.ltb_spec (Z.abs z) Float.overflow_threshold); [left; by eexists|].
  right. split; [done|]. by exists z.
Qed.

Lemma write_results_Ok sys total_cost execution_time errors trace u trace' :
  write_results sys total_cost execution_time errors trace = (Ok u, trace') →
  ∃ total,
    py_format_f 2 total_cost = Ok total ∧
    trace' = trace ++ [OpenResults] ++
      ((λ line, WriteResults (line +:+ newline)) <$>
         report_lines total execution_time errors) ++ [CloseResults].
Proof.
  unfold write_results. rewrite io_bind_eq.
  destruct (perform sys OpenResults trace) as [[[]|e] trace1] eqn:H1; [|discriminate].
  apply perform_Ok in H1 as ->. unfold closing.
  destruct (write_lines sys total_cost execution_time errors (trace ++ [OpenResults]))
    as [[[]|e] trace2] eqn:H2.
  - apply write_lines_Ok in H2 as (total & Hformat & ->).
    intros ->%perform_Ok. exists total. split; [done|].
    by rewrite <- !app_assoc.
  - by destruct (perform sys CloseResults trace2) as [[[]|e'] trace3].
Qed.

Lemma write_results_quiet sys total_cost execution_time errors trace total :
  quiet sys →
  py_format_f 2 total_cost = Ok total →
  write_results sys total_cost execution_time errors trace =
  (Ok (), trace ++ [OpenResults] ++
     ((λ line, WriteResults (line +:+ newline)) <$>
        report_lines total execution_time errors) ++ [CloseResults]).
Proof.
  intros Hquiet Hformat. unfold write_results.
  rewrite io_bind_eq, (perform_quiet _ _ _ Hquiet). unfold closing.
  rewrite (write_lines_quiet _ _ _ _ _ total), (perform_quiet _ _ _ Hquiet) by done.
  by rewrite <- !app_assoc.
Qed.

(** A total that cannot be formatted: the file has been opened, nothing is
    written, the file is closed and stays empty. *)
Lemma write_results_unformatted sys total_cost execution_time errors trace e :
  quiet sys →
  py_format_f 2 total_cost = Raise e →
  write_results sys total_cost execution_time errors trace =
  (Raise e, trace ++ [OpenResults; CloseResults]).
Proof.
  intros Hquiet Hformat. unfold write_results.
  rewrite io_bind_eq, (perform_quiet _ _ _ Hquiet). unfold closing, write_lines, lift.
  rewrite io_bind_eq, Hformat, (perform_quiet _ _ _ Hquiet).
  by rewrite <- app_assoc.
Qed.

Lemma load_both_eq sys price_catalogue_path sales_data_path trace :
  load_both sys price_catalogue_path sales_data_path trace =
  match load_json_file sys price_catalogue_path trace with
  | (Ok price_catalogue, trace') =>
      match load_json_file sys sales_data_path trace' with
      | (Ok sales_data, trace'') => (Ok (price_catalogue, sales_data), trace'')
      | (Raise e, trace'') => (Raise e, trace'')
      end
  | (Raise e, trace') => (Raise e, trace')
  end.
Proof.
  unfold load_both. rewrite io_bind_eq.
  destruct (load_json_file sys price_catalogue_path trace) as [[price_catalogue|e] trace'];
    [|done].
  rewrite io_bind_eq.
  by destruct (load_json_file sys sales_data_path trace') as [[sales_data|e] trace''].
Qed.

Lemma load_json_file_Ok sys filename trace v trace' :
  load_json_file sys filename trace = (Ok v, trace') →
  loaded_value (read sys filename) = Some v ∧
  (py_bool v = true → read sys filename = Json v ∧ trace' = trace).
Proof.
  unfold load_json_file. destruct (read sys filename) as [| |e|w]; simpl.
  - rewrite io_bind_eq. destruct (perform sys _ trace) as [[[]|e] trace1]; [|discriminate].
    by intros [= <- _].
  - rewrite io_bind_eq. destruct (perform sys _ trace) as [[[]|e] trace1]; [|discriminate].
    by intros [= <- _].
  - discriminate.
  - by intros [= <- <-].
Qed.

Lemma load_json_file_loaded sys filename trace v :
  quiet sys →
  loaded_value (read sys filename) = Some v →
  ∃ trace', load_json_file sys filename trace = (Ok v, trace').
Proof.
  intros Hquiet. unfold load_json_file.
  destruct (read sys filename) as [| |e|w]; simpl; intros [= <-].
  - rewrite io_bind_eq, (perform_quiet _ _ _ Hquiet). by eexists.
  - rewrite io_bind_eq, (perform_quiet _ _ _ Hquiet). by eexists.
  - by eexists.
Qed.

Lemma load_both_Ok sys price_catalogue_path sales_data_path
    price_catalogue sales_data trace :
  load_both sys price_catalogue_path sales_data_path [] =
    (Ok (price_catalogue, sales_data), trace) →
  loaded_value (read sys price_catalogue_path) = Some price_catalogue ∧
  loaded_value (read sys sales_data_path) = Some sales_data ∧
  (py_bool price_catalogue = true → py_bool sales_data = true →
   read sys price_catalogue_path = Json price_catalogue ∧
   read sys sales_data_path = Json sales_data ∧ trace = []).
Proof.
  rewrite load_both_eq.
  destruct (load_json_file sys price_catalogue_path []) as [[pc|e] trace1] eqn:H1;
    [|discriminate].
  destruct (load_json_file sys sales_data_path trace1) as [[sd|e] trace2] eqn:H2;
    [|discriminate].
  intros [= -> -> ->].
  apply load_json_file_Ok in H1 as [Hpc H1], H2 as [Hsd H2].
  repeat split; try done.
  - by apply H1.
  - by apply H2.
  - destruct H1 as [_ ->], H2 as [_ ->]; done.
Qed.

Lemma load_both_loaded sys price_catalogue_path sales_data_path
    price_catalogue sales_data :
  quiet sys →
  loaded_value (read sys price_catalogue_path) = Some price_catalogue →
  loaded_value (read sys sales_data_path) = Some sales_data →
  ∃ trace, load_both sys price_catalogue_path sales_data_path [] =
             (Ok (price_catalogue, sales_data), trace).
Proof.
  intros Hquiet Hpc Hsd. rewrite load_both_eq.
  destruct (load_json_file_loaded sys price_catalogue_path [] _ Hquiet Hpc)
    as [trace1 ->].
  destruct (load_json_file_loaded sys sales_data_path trace1 _ Hquiet Hsd)
    as [trace2 ->].
  by eexists.
Qed.

(** [main], one stage after the other. *)
Lemma main_stages sys price_catalogue_path sales_data_path execution_time :
  main sys price_catalogue_path sales_data_path execution_time =
  match load_both sys price_catalogue_path sales_data_path [] with
  | (Raise e, trace) => (Uncaught e, trace)
  | (Ok (price_catalogue, sales_data), trace) =>
      if negb (py_bool price_catalogue) || negb (py_bool sales_data)
      then (Exit 1, trace)
      else
        match calculate_total_cost price_catalogue sales_data with
        | Raise e => (Uncaught e, trace)
        | Ok (total_cost, errors) =>
            match write_results sys total_cost execution_time errors trace with
            | (Raise e, trace') => (Uncaught e, trace')
            | (Ok _, trace') =>
                match print_results sys total_cost execution_time errors trace' with
                | (Raise e, trace'') => (Uncaught e, trace'')
                | (Ok _, trace'') => (Finished, trace'')
                end
            end
        end
  end.
Proof.
  unfold main. rewrite io_bind_eq.
  destruct (load_both sys price_catalogue_path sales_data_path [])
    as [[[price_catalogue sales_data]|e] trace]; [|done].
  destruct (negb (py_bool price_catalogue) || negb (py_bool sales_data)); [done|].
  rewrite io_bind_eq. unfold lift.
  destruct (calculate_total_cost price_catalogue sales_data)
    as [[total_cost errors]|e]; [|done].
  rewrite io_bind_eq.
  destruct (write_results sys total_cost execution_time errors trace)
    as [[[]|e] trace']; [|done].
  rewrite io_bind_eq.
  by destruct (print_results sys total_cost execution_time errors trace')
    as [[[]|e] trace''].
Qed.

Lemma main_exits sys price_catalogue_path sales_data_path execution_time status trace :
  main sys price_catalogue_path sales_data_path execution_time = (Exit status, trace) ↔
  status = 1 ∧
  ∃ price_catalogue sales_data,
    load_both sys price_catalogue_path sales_data_path [] =
      (Ok (price_catalogue, sales_data), trace) ∧
    (py_bool price_catalogue = false ∨ py_bool sales_data = false).
Proof.
  rewrite main_stages.
  destruct (load_both sys price_catalogue_path sales_data_path [])
    as [[[pc sd]|e0] trace0] eqn:Hload.
  2:{ split; [discriminate|]. by intros (_ & pc & sd & [=] & _). }
  destruct (negb (py_bool pc) || negb (py_bool sd)) eqn:Hfalsy.
  - split.
    + intros [= <- <-]. split; [done|]. exists pc, sd. split; [done|].
      apply orb_true_iff in Hfalsy as [H|H]; apply negb_true_iff in H; auto.
    + by intros (-> & pc' & sd' & [= <- <- <-] & _).
  - apply orb_false_iff in Hfalsy as [Hpc%negb_false_iff Hsd%negb_false_iff].
    split.
    + destruct (calculate_total_cost pc sd) as [[total_cost errors]|e]; [|discriminate].
      destruct (write_results sys total_cost execution_time errors trace0)
        as [[[]|e] trace1]; [|discriminate].
      by destruct (print_results sys total_cost execution_time errors trace1)
        as [[[]|e] trace2].
    + intros (_ & pc' & sd' & [= <- <- <-] & [Hb|Hb]); congruence.
Qed.

Lemma main_exits_files sys price_catalogue_path sales_data_path execution_time :
  quiet sys →
  exit_status (main sys price_catalogue_path sales_data_path execution_time).1 ≠ 0 ∧
  (∃ status, (main sys price_catalogue_path sales_data_path execution_time).1 =
             Exit status) ↔
  ∃ price_catalogue sales_data,
    loaded_value (read sys price_catalogue_path) = Some price_catalogue ∧
    loaded_value (read sys sales_data_path) = Some sales_data ∧
    (py_bool price_catalogue = false ∨ py_bool sales_data = false).
Proof.
  intros Hquiet. split.
  - intros [_ [status Hexit]].
    destruct (main sys price_catalogue_path sales_data_path execution_time)
      as [o trace] eqn:Hmain.
    simpl in Hexit. subst o.
    apply main_exits in Hmain as (_ & pc & sd & Hload & Hfalsy).
    apply load_both_Ok in Hload as (Hpc & Hsd & _). by exists pc, sd.
  - intros (pc & sd & Hpc & Hsd & Hfalsy).
    destruct (load_both_loaded sys _ _ pc sd Hquiet Hpc Hsd) as [trace Hload].
    assert (Hmain : main sys price_catalogue_path sales_data_path execution_time =
                    (Exit 1, trace)).
    { apply main_exits. split; [done|]. by exists pc, sd. }
    rewrite Hmain. simpl. split; [lia | by eexists].
Qed.

Lemma main_load_raises sys price_catalogue_path sales_data_path execution_time e trace :
  load_both sys price_catalogue_path sales_data_path [] = (Raise e, trace) →
  main sys price_catalogue_path sales_data_path execution_time = (Uncaught e, trace).
Proof. intros Hload. by rewrite main_stages, Hload. Qed.

Lemma main_accumulates sys price_catalogue_path sales_data_path execution_time
    price_catalogue sales_data trace :
  load_both sys price_catalogue_path sales_data_path [] =
    (Ok (price_catalogue, sales_data), trace) →
  py_bool price_catalogue = true →
  py_bool sales_data = true →
  match calculate_total_cost price_catalogue sales_data with
  | Raise e =>
      main sys price_catalogue_path sales_data_path execution_time = (Uncaught e, trace)
  | Ok (total_cost, errors) =>
      match py_format_f 2 total_cost with
      | Ok total =>
          quiet sys →
          main sys price_catalogue_path sales_data_path execution_time =
          (Finished, trace ++ report_trace total execution_time errors)
      | Raise e =>
          e = OverflowError ∧
          (∃ z, total_cost = PInt z ∧ Float.overflow_threshold ≤ Z.abs z) ∧
          (quiet sys →
           main sys price_catalogue_path sales_data_path execution_time =
           (Uncaught OverflowError, trace ++ [OpenResults; CloseResults]))
      end
  end.
Proof.
  intros Hload Hpc Hsd. rewrite main_stages, Hload, Hpc, Hsd. simpl.
  destruct (calculate_total_cost price_catalogue sales_data)
    as [[total_cost errors]|e] eqn:Hrun; [|done].
  destruct (format_total _ _ _ _ Hrun) as [[total Hformat]|[Hformat (z & -> & Hz)]];
    rewrite Hformat.
  - intros Hquiet.
    rewrite (write_results_quiet _ _ _ _ _ total),
      (print_results_quiet _ _ _ _ _ total) by done.
    unfold report_trace. by rewrite <- !app_assoc.
  - split; [done|]. split; [by exists z|]. intros Hquiet.
    by rewrite (write_results_unformatted _ _ _ _ _ OverflowError).
Qed.

Lemma main_finishes sys price_catalogue_path sales_data_path execution_time :
  exit_status (main sys price_catalogue_path sales_data_path execution_time).1 = 0 →
  ∃ price_catalogue sales_data total_cost errors total,
    read sys price_catalogue_path = Json price_catalogue ∧
    read sys sales_data_path = Json sales_data ∧
    py_bool price_catalogue = true ∧
    py_bool sales_data = true ∧
    calculate_total_cost price_catalogue sales_data = Ok (total_cost, errors) ∧
    py_format_f 2 total_cost = Ok total ∧
    main sys price_catalogue_path sales_data_path execution_time =
    (Finished, report_trace total execution_time errors).
Proof.
  rewrite main_stages.
  destruct (load_both sys price_catalogue_path sales_data_path [])
    as [[[pc sd]|e0] trace0] eqn:Hload; [|simpl; lia].
  apply load_both_Ok in Hload as (_ & _ & Htruthy).
  destruct (py_bool pc) eqn:Hpc; [|simpl; lia].
  destruct (py_bool sd) eqn:Hsd; [|simpl; lia].
  destruct Htruthy as (Rpc & Rsd & ->); [done..|]. simpl.
  destruct (calculate_total_cost pc sd) as [[total_cost errors]|e] eqn:Hrun;
    [|simpl; lia].
  destruct (write_results sys total_cost execution_time errors [])
    as [[[]|e] trace1] eqn:Hwrite; [|simpl; lia].
  destruct (print_results sys total_cost execution_time errors trace1)
    as [[[]|e] trace2] eqn:Hprint; [|simpl; lia].
  intros _. exists pc, sd, total_cost, errors.
  apply write_results_Ok in Hwrite as (total & Hformat & ->).
  apply print_results_Ok in Hprint as (total' & Hformat' & ->).
  rewrite Hformat in Hformat'. injection Hformat' as <-.
  exists total. repeat split; try done.
  unfold report_trace. by rewrite <- !app_assoc.
Qed.

(** C7, amended.  How a run of [main] on two paths ends.
    - It ends in [sys.exit]: the status is 1, and this happens exactly when
      both loads returned and one of the two loaded values is falsy; the
      trace is the one of the loading, so nothing was accumulated or
      written.
    - On a system whose output never fails that is: neither file is
      unreadable, and one of them is missing, is not JSON, or holds a falsy
      document ([null], [false], [0], [0.0], an empty string, array or
      object).
    - An exception of a load, for a file that is unreadable in a way the
      loader does not catch, is not caught by [main] either.
    - With two truthy documents the accumulator is called and decides: its
      exception ends the run uncaught; with the total and the messages it
      returns, on a system whose output never fails, the report is written
      and printed and the run finishes, with any number of messages, unless
      the total is an integer too large to be formatted as a float, in which
      case an [OverflowError] ends the run with the results file empty.
    - A run finishes (status 0) only with two truthy documents, a call of
      the accumulator that returned, a total that could be formatted, and
      the whole report written and printed. *)
Theorem main_exit_gate sys price_catalogue_path sales_data_path execution_time :
  let run := main sys price_catalogue_path sales_data_path execution_time in
  let loaded := load_both sys price_catalogue_path sales_data_path [] in
  (∀ status trace,
     run = (Exit status, trace) ↔
     status = 1 ∧
     ∃ price_catalogue sales_data,
       loaded = (Ok (price_catalogue, sales_data), trace) ∧
       (py_bool price_catalogue = false ∨ py_bool sales_data = false)) ∧
  (quiet sys →
     exit_status run.1 ≠ 0 ∧ (∃ status, run.1 = Exit status) ↔
     ∃ price_catalogue sales_data,
       loaded_value (read sys price_catalogue_path) = Some price_catalogue ∧
       loaded_value (read sys sales_data_path) = Some sales_data ∧
       (py_bool price_catalogue = false ∨ py_bool sales_data = false)) ∧
  (∀ e trace, loaded = (Raise e, trace) → run = (Uncaught e, trace)) ∧
  (∀ price_catalogue sales_data trace,
     loaded = (Ok (price_catalogue, sales_data), trace) →
     py_bool price_catalogue = true →
     py_bool sales_data = true →
     match calculate_total_cost price_catalogue sales_data with
     | Raise e => run = (Uncaught e, trace)
     | Ok (total_cost, errors) =>
         match py_format_f 2 total_cost with
         | Ok total =>
             quiet sys →
             run = (Finished, trace ++ report_trace total execution_time errors)
         | Raise e =>
             e = OverflowError ∧
             (∃ z, total_cost = PInt z ∧ Float.overflow_threshold ≤ Z.abs z) ∧
             (quiet sys →
              run = (Uncaught OverflowError, trace ++ [OpenResults; CloseResults]))
         end
     end) ∧
  (exit_status run.1 = 0 →
   ∃ price_catalogue sales_data total_cost errors total,
     read sys price_catalogue_path = Json price_catalogue ∧
     read sys sales_data_path = Json sales_data ∧
     py_bool price_catalogue = true ∧
     py_bool sales_data = true ∧
     calculate_total_cost price_catalogue sales_data = Ok (total_cost, errors) ∧
     py_format_f 2 total_cost = Ok total ∧
     run = (Finished, report_trace total execution_time errors)).
Proof.
  intros run loaded. subst run loaded.
  split; [|split; [|split; [|split]]].
  - apply main_exits.
  - apply main_exits_files.
  - apply main_load_raises.
  - apply main_accumulates.
  - apply main_finishes.
Qed.

(** ** What the run leaves behind *)

Lemma string_app_assoc (s t u : string) : (s +:+ t) +:+ u = s +:+ (t +:+ u).
Proof.
  induction s as [|c s IH]; [done|].
  change (String c ((s +:+ t) +:+ u) = String c (s +:+ (t +:+ u))).
  by rewrite IH.
Qed.

Lemma written_writes lines rest :
  written (((λ line, WriteResults (line +:+ newline)) <$> lines) ++ rest) =
  foldr (λ line text, line +:+ newline +:+ text) (written rest) lines.
Proof.
  induction lines as [|line lines IH]; [done|].
  cbn [fmap list_fmap app foldr]. rewrite <- IH.
  change (written (WriteResults ?t :: ?l)) with (t +:+ written l).
  apply string_app_assoc.
Qed.

Lemma written_prints lines : written (Print <$> lines) = "".
Proof. by induction lines. Qed.

Lemma stdout_of_writes lines rest :
  stdout_of (((λ line, WriteResults (line +:+ newline)) <$> lines) ++ rest) =
  stdout_of rest.
Proof. by induction lines. Qed.

Lemma stdout_of_prints lines : stdout_of (Print <$> lines) = report_text lines.
Proof.
  induction lines as [|line lines IH]; [done|].
  cbn [fmap list_fmap stdout_of foldr report_text]. by f_equal; f_equal.
Qed.

Lemma stderr_of_writes lines rest :
  stderr_of (((λ line, WriteResults (line +:+ newline)) <$> lines) ++ rest) =
  stderr_of rest.
Proof. by induction lines. Qed.

Lemma stderr_of_prints lines : stderr_of (Print <$> lines) = [].
Proof. by induction lines. Qed.

Lemma report_trace_views total execution_time errors :
  let trace := report_trace total execution_time errors in
  results_file_of trace = Some (report_text (report_lines total execution_time errors)) ∧
  stdout_of trace = report_text (report_lines total execution_time errors) ∧
  stderr_of trace = [].
Proof.
  unfold report_trace. generalize (report_lines total execution_time errors).
  intros lines. split; [|split].
  - unfold results_file_of. cbn [app opened existsb orb].
    f_equal. change (written (OpenResults :: ?l)) with (written l).
    rewrite written_writes. cbn [app].
    change (written (CloseResults :: ?l)) with (written l).
    by rewrite written_prints.
  - cbn [app]. change (stdout_of (OpenResults :: ?l)) with (stdout_of l).
    rewrite stdout_of_writes. cbn [app].
    change (stdout_of (CloseResults :: ?l)) with (stdout_of l).
    apply stdout_of_prints.
  - cbn [app]. change (stderr_of (OpenResults :: ?l)) with (stderr_of l).
    rewrite stderr_of_writes. cbn [app].
    change (stderr_of (CloseResults :: ?l)) with (stderr_of l).
    apply stderr_of_prints.
Qed.

(** X13.  A run that finishes has written to [SalesResults.txt] exactly the
    text it has printed on [stdout], and nothing on [stderr]; the text is
    the line of the total, the line of the time and, if there are messages,
    an empty line, the heading and the messages, each ended by a newline,
    where the total and the messages are those the accumulator returned for
    the two documents. *)
Theorem results_file_is_console_text sys price_catalogue_path sales_data_path
    execution_time :
  let run := main sys price_catalogue_path sales_data_path execution_time in
  run.1 = Finished →
  ∃ price_catalogue sales_data total_cost errors total,
    read sys price_catalogue_path = Json price_catalogue ∧
    read sys sales_data_path = Json sales_data ∧
    calculate_total_cost price_catalogue sales_data = Ok (total_cost, errors) ∧
    py_format_f 2 total_cost = Ok total ∧
    results_file_of run.2 =
      Some (report_text (report_lines total execution_time errors)) ∧
    stdout_of run.2 = report_text (report_lines total execution_time errors) ∧
    stderr_of run.2 = [].
Proof.
  intros run Hrun.
  destruct (main_finishes sys price_catalogue_path sales_data_path execution_time)
    as (pc & sd & total_cost & errors & total & Hpc & Hsd & _ & _ & Hcall & Hformat & Hmain).
  { fold run. by rewrite Hrun. }
  exists pc, sd, total_cost, errors, total. subst run. rewrite Hmain. simpl.
  destruct (report_trace_views total execution_time errors) as (Hfile & Hout & Herr).
  by repeat split.
Qed.

(** ** Runs that return *)

Lemma charges_cons price_dict sale sales :
  charges price_dict (sale :: sales) =
  match charge price_dict sale with
  | Some term => term :: charges price_dict sales
  | None => charges price_dict sales
  end.
Proof. reflexivity. Qed.

Lemma charges_filter price_dict sales :
  charges price_dict (List.filter (valid_sale price_dict) sales) =
  charges price_dict sales.
Proof.
  induction sales as [|sale sales IH]; [done|]. cbn [List.filter].
  destruct (valid_sale price_dict sale) eqn:Hvalid.
  - by rewrite !charges_cons, IH.
  - by rewrite charges_cons, (invalid_sale_charge _ _ Hvalid).
Qed.

Lemma charges_length price_dict sales :
  length (charges price_dict sales) =
  length (List.filter (valid_sale price_dict) sales).
Proof.
  induction sales as [|sale sales IH]; [done|].
  rewrite charges_cons. cbn [List.filter].
  destruct (valid_sale price_dict sale) eqn:Hvalid.
  - destruct (valid_sale_charge _ _ Hvalid) as (p & q & -> & _).
    simpl. by rewrite IH.
  - by rewrite (invalid_sale_charge _ _ Hvalid).
Qed.

(** What a run that returns has done: the messages are those of the
    records, in order, and the total is the sum over the charged ones. *)
Lemma returned_run price_dict sales total errors total' errors' :
  process_sales price_dict (number_value total, errors) sales = Ok (total', errors') →
  ∃ n, accumulate total (charges price_dict sales) = Some n ∧
       total' = number_value n ∧
       errors' = errors ++ mjoin (warning_of price_dict <$> sales) ∧
       Forall (one_outcome price_dict) sales.
Proof.
  intros Hrun.
  destruct (process_sales_outcome price_dict sales _ _ _ _ (is_number_value total) Hrun)
    as (Hall & -> & Hsum & _).
  rewrite (sum_from_accumulate _ _ _ (forallb_filter_valid price_dict sales)) in Hsum.
  rewrite charges_filter in Hsum.
  destruct (accumulate total (charges price_dict sales)) as [n|]; [|discriminate].
  injection Hsum as <-. by exists n.
Qed.








(** C9, amended.  On a catalogue of objects with a hashable title and a
    price and sale objects with a false or hashable product, unless the
    arithmetic of a record raises [OverflowError] or [MemoryError] and ends
    the call, every record has exactly one of two outcomes: it is answered
    with exactly one message, or its product [price * quantity] is added to
    the total, never both and never neither.  So the messages and the charged
    records together are as many as the records, the messages come in the
    order of the records, and the total is the sum over the charged
    records. *)
Theorem one_outcome_per_record items sales :
  let price_dict := insert_entries ∅ items in
  Forall well_formed_item items →
  forallb well_formed_sale sales = true →
  calculate_total_cost (PList items) (PList sales) = Raise OverflowError ∨
  calculate_total_cost (PList items) (PList sales) = Raise MemoryError ∨
  ∃ total,
    calculate_total_cost (PList items) (PList sales) =
      Ok (number_value total, mjoin (warning_of price_dict <$> sales)) ∧
    accumulate (NInt 0) (charges price_dict sales) = Some total ∧
    Forall (one_outcome price_dict) sales ∧
    (length (mjoin (warning_of price_dict <$> sales)) +
     length (charges price_dict sales))%nat = length sales.
Proof.
  intros price_dict Hitems Hsales. subst price_dict.
  rewrite calculate_total_cost_lists, (build_price_dict_well_formed _ _ Hitems), bind_Ok.
  destruct (process_sales_escapes (insert_entries ∅ items) sales (PInt 0) [] eq_refl Hsales)
    as [[[total errors] Hrun]|[Hraise|Hraise]]; [|by left|by right; left].
  right. right.
  destruct (returned_run (insert_entries ∅ items) sales (NInt 0) [] total errors Hrun)
    as (n & Hn & -> & -> & Hall).
  exists n. rewrite Hrun. repeat split; try done.
  rewrite charges_length. by apply outcomes_count.
Qed.

(** * The accumulator on the store *)

(** ** The store *)

Lemma on_store_bind_eq {A B : Type} (m : on_store A) (k : A → on_store B) σ :
  (m ≫= k) σ =
  match m σ with
  | (Ok a, σ') => k a σ'
  | (Raise e, σ') => (Raise e, σ')
  end.
Proof. reflexivity. Qed.

Lemma reads_ret {A : Type} (a : A) : reads (mret a : on_store A).
Proof. by intros σ r σ' [= _ <-]. Qed.

Lemma reads_raise {A : Type} e : reads (raise e : on_store A).
Proof. by intros σ r σ' [= _ <-]. Qed.

Lemma reads_deref l : reads (deref l).
Proof. intros σ r σ'. unfold deref. by destruct (σ !! l); intros [= _ <-]. Qed.

Lemma reads_bind {A B : Type} (m : on_store A) (k : A → on_store B) :
  reads m → (∀ a, reads (k a)) → reads (m ≫= k).
Proof.
  intros Hm Hk σ r σ'. rewrite on_store_bind_eq.
  destruct (m σ) as [[a|e] σ1] eqn:H1; apply Hm in H1 as ->.
  - apply Hk.
  - by intros [= _ <-].
Qed.

Lemma reads_immutable r : reads (immutable r).
Proof.
  destruct r as [v|e]; [|apply reads_raise]. unfold immutable.
  destruct (as_atom v); [apply reads_ret | apply reads_raise].
Qed.

Lemma grows_reads {A : Type} (m : on_store A) : reads m → grows m.
Proof. intros Hm σ r σ' H. by apply Hm in H as ->. Qed.

Lemma grows_alloc o : grows (alloc o).
Proof.
  intros σ r σ' [= _ <-]. apply insert_subseteq, not_elem_of_dom, is_fresh.
Qed.

Lemma grows_bind {A B : Type} (m : on_store A) (k : A → on_store B) :
  grows m → (∀ a, grows (k a)) → grows (m ≫= k).
Proof.
  intros Hm Hk σ r σ'. rewrite on_store_bind_eq.
  destruct (m σ) as [[a|e] σ1] eqn:H1; apply Hm in H1.
  - intros H2%Hk. by trans σ1.
  - by intros [= _ <-].
Qed.

Lemma keeps_grows {A : Type} σ0 (m : on_store A) : grows m → keeps σ0 m.
Proof. intros Hm σ r σ' H%Hm Hσ. by trans σ. Qed.

Lemma keeps_bind {A B : Type} σ0 (m : on_store A) (k : A → on_store B) :
  keeps σ0 m → (∀ a, keeps σ0 (k a)) → keeps σ0 (m ≫= k).
Proof.
  intros Hm Hk σ r σ'. rewrite on_store_bind_eq.
  destruct (m σ) as [[a|e] σ1] eqn:H1.
  - intros H2 Hσ. eapply Hk; [done|]. by eapply Hm.
  - intros [= _ <-] Hσ. by eapply Hm.
Qed.

(** The same, when only what the first computation can yield goes on. *)
Lemma keeps_bind_yields {A B : Type} σ0 (P : A → Prop)
    (m : on_store A) (k : A → on_store B) :
  keeps σ0 m → yields P m → (∀ a, P a → keeps σ0 (k a)) → keeps σ0 (m ≫= k).
Proof.
  intros Hm HP Hk σ r σ'. rewrite on_store_bind_eq.
  destruct (m σ) as [[a|e] σ1] eqn:H1.
  - intros H2 Hσ. eapply Hk; [by eapply HP | done |]. by eapply Hm.
  - intros [= _ <-] Hσ. by eapply Hm.
Qed.

Lemma keeps_except_TypeError {A : Type} σ0 (body handler : on_store A) :
  keeps σ0 body → keeps σ0 handler → keeps σ0 (except_TypeError body handler).
Proof.
  intros Hb Hh σ r σ'. unfold except_TypeError.
  destruct (body σ) as [[a|e] σ1] eqn:H1.
  - intros [= _ <-] Hσ. by eapply Hb.
  - destruct e; try (intros [= _ <-] Hσ; by eapply Hb).
    intros H2 Hσ. eapply Hh; [done|]. by eapply Hb.
Qed.

(** Writing to an address that [σ0] does not have. *)
Lemma keeps_update σ0 l o : σ0 !! l = None → keeps σ0 (update l o).
Proof. intros Hl σ r σ' [= _ <-] Hσ. by apply insert_subseteq_r. Qed.

Lemma store_bool_reads v : reads (store_bool v).
Proof.
  destruct v; [apply reads_ret|].
  apply reads_bind; [apply reads_deref|]. intros []; apply reads_ret.
Qed.

Lemma store_iter_reads v : reads (store_iter v).
Proof.
  destruct v as [[]|l]; try apply reads_raise; try apply reads_ret.
  apply reads_bind; [apply reads_deref|]. intros []; apply reads_ret.
Qed.

Lemma store_getitem_reads v key : reads (store_getitem v key).
Proof.
  destruct v; [apply reads_raise|].
  apply reads_bind; [apply reads_deref|]. intros [items|fields]; [apply reads_raise|].
  destruct (fields !! key); [apply reads_ret | apply reads_raise].
Qed.

Lemma store_get_reads v key : reads (store_get v key).
Proof.
  destruct v; [apply reads_raise|].
  apply reads_bind; [apply reads_deref|].
  intros []; [apply reads_raise | apply reads_ret].
Qed.

Lemma store_hash_reads v : reads (store_hash v).
Proof. destruct v; [apply reads_ret | apply reads_raise]. Qed.

Lemma store_build_price_dict_reads items : ∀ price_dict,
  reads (store_build_price_dict price_dict items).
Proof.
  induction items as [|item items IH]; intros price_dict; [apply reads_ret|].
  cbn [store_build_price_dict].
  apply reads_bind; [apply store_getitem_reads|]. intros title.
  apply reads_bind; [apply store_getitem_reads|]. intros price.
  apply reads_bind; [apply store_hash_reads|]. intros key. apply IH.
Qed.

Lemma new_list_grows items : grows (new_list items).
Proof.
  apply grows_bind; [apply grows_alloc|]. intros l. apply grows_reads, reads_ret.
Qed.

Lemma store_repeat_grows items n : grows (store_repeat items n).
Proof.
  unfold store_repeat. destruct n as [b|l]; [|apply grows_reads, reads_raise].
  destruct (as_index (of_atom b)) as [c|]; [|apply grows_reads, reads_raise].
  repeat match goal with
         | |- context [if ?b then _ else _] => destruct b
         end;
    first [apply new_list_grows | apply grows_reads, reads_raise].
Qed.

Lemma store_mul_grows v w : grows (store_mul v w).
Proof.
  destruct v as [a|l], w as [b|k]; cbn [store_mul].
  - apply grows_reads, reads_immutable.
  - apply grows_bind; [apply grows_reads, reads_deref|].
    intros []; [apply store_repeat_grows | apply grows_reads, reads_raise].
  - apply grows_bind; [apply grows_reads, reads_deref|].
    intros []; [apply store_repeat_grows | apply grows_reads, reads_raise].
  - apply grows_bind; [apply grows_reads, reads_deref|].
    intros []; [apply store_repeat_grows | apply grows_reads, reads_raise].
Qed.

(** An immutable total stays one, and adding to it writes nothing. *)
Lemma store_iadd_reads a w : reads (store_iadd (Imm a) w).
Proof. destruct w; [apply reads_immutable | apply reads_raise]. Qed.

Lemma store_iadd_yields a w : yields is_immutable (store_iadd (Imm a) w).
Proof.
  intros σ x σ'. destruct w as [b|l]; [|discriminate]. cbn [store_iadd].
  unfold immutable. destruct (py_add (of_atom a) (of_atom b)) as [v|e]; [|discriminate].
  destruct (as_atom v) as [c|]; [|discriminate]. intros [= <- _]. by exists c.
Qed.

Lemma store_append_keeps σ0 l x : σ0 !! l = None → keeps σ0 (store_append l x).
Proof.
  intros Hl. apply keeps_bind; [apply keeps_grows, grows_reads, reads_deref|].
  intros []; [by apply keeps_update | apply keeps_grows, grows_reads, reads_raise].
Qed.

Lemma store_process_sale_keeps σ0 price_dict errors a sale :
  σ0 !! errors = None →
  keeps σ0 (store_process_sale price_dict errors (Imm a) sale).
Proof.
  intros He. unfold store_process_sale.
  apply keeps_bind; [apply keeps_grows, grows_reads, store_get_reads|]. intros product.
  apply keeps_bind; [apply keeps_grows, grows_reads, store_get_reads|]. intros quantity.
  apply keeps_bind; [apply keeps_grows, grows_reads, store_bool_reads|]. intros present.
  assert (Hmessage : ∀ m, keeps σ0
    (store_append errors (Imm (AStr m));; mret (Imm a))).
  { intros m. apply keeps_bind; [by apply store_append_keeps|].
    intros _. apply keeps_grows, grows_reads, reads_ret. }
  destruct (negb present); [apply Hmessage|].
  apply keeps_bind; [apply keeps_grows, grows_reads, store_hash_reads|]. intros key.
  destruct (price_dict !! key_of key) as [price|]; [|apply Hmessage].
  apply keeps_except_TypeError; [|apply Hmessage].
  apply keeps_bind; [apply keeps_grows, store_mul_grows|]. intros x.
  apply keeps_grows, grows_reads, store_iadd_reads.
Qed.

Lemma store_process_sale_yields price_dict errors a sale :
  yields is_immutable (store_process_sale price_dict errors (Imm a) sale).
Proof.
  intros σ t σ'. unfold store_process_sale.
  assert (Hmessage : ∀ m σ1,
    (store_append errors (Imm (AStr m));; mret (Imm a)) σ1 = (Ok t, σ') →
    is_immutable t).
  { intros m σ1. rewrite on_store_bind_eq.
    destruct (store_append errors _ σ1) as [[[]|e] σ2]; [|discriminate].
    intros [= <- _]. by exists a. }
  rewrite on_store_bind_eq.
  destruct (store_get sale "Product" σ) as [[product|e] σ1]; [|discriminate].
  rewrite on_store_bind_eq.
  destruct (store_get sale "Quantity" σ1) as [[quantity|e] σ2]; [|discriminate].
  rewrite on_store_bind_eq.
  destruct (store_bool product σ2) as [[present|e] σ3]; [|discriminate].
  destruct (negb present); [apply Hmessage|].
  rewrite on_store_bind_eq.
  destruct (store_hash product σ3) as [[key|e] σ4]; [|discriminate].
  destruct (price_dict !! key_of key) as [price|]; [|apply Hmessage].
  unfold except_TypeError. rewrite on_store_bind_eq.
  destruct (store_mul price quantity σ4) as [[x|e] σ5].
  - destruct (store_iadd (Imm a) x σ5) as [[t'|e] σ6] eqn:Hadd.
    + intros [= <- _]. by eapply store_iadd_yields.
    + destruct e; try discriminate. apply Hmessage.
  - destruct e; try discriminate. apply Hmessage.
Qed.

Lemma store_process_sales_keeps σ0 price_dict errors sales : ∀ a,
  σ0 !! errors = None →
  keeps σ0 (store_process_sales price_dict errors (Imm a) sales).
Proof.
  induction sales as [|sale sales IH]; intros a He.
  { apply keeps_grows, grows_reads, reads_ret. }
  cbn [store_process_sales].
  apply (keeps_bind_yields σ0 is_immutable).
  - by apply store_process_sale_keeps.
  - apply store_process_sale_yields.
  - intros t [b ->]. by apply IH.
Qed.

(** Every object that was there when the call began is the same when it
    ends, however it ends. *)
Lemma calculate_total_cost_on_store_grows price_catalogue sales_data :
  grows (calculate_total_cost_on_store price_catalogue sales_data).
Proof.
  intros σ r σ'. unfold calculate_total_cost_on_store.
  rewrite on_store_bind_eq. cbn [alloc].
  set (errors := fresh (dom σ)).
  assert (He : σ !! errors = None) by apply not_elem_of_dom, is_fresh.
  intros Hrun.
  assert (Hkeeps : keeps σ
    (items ← store_iter price_catalogue;
     price_dict ← store_build_price_dict ∅ items;
     sales ← store_iter sales_data;
     total_cost ← store_process_sales price_dict errors (Imm (AInt 0)) sales;
     mret (total_cost, errors))).
  { apply keeps_bind; [apply keeps_grows, grows_reads, store_iter_reads|]. intros items.
    apply keeps_bind; [apply keeps_grows, grows_reads, store_build_price_dict_reads|].
    intros price_dict.
    apply keeps_bind; [apply keeps_grows, grows_reads, store_iter_reads|]. intros sales.
    apply keeps_bind; [by apply store_process_sales_keeps|].
    intros t. apply keeps_grows, grows_reads, reads_ret. }
  eapply Hkeeps; [exact Hrun|]. by apply insert_subseteq.
Qed.

(** ** The values of the store *)

Lemma value_of_Imm depth σ a : value_of depth σ (Imm a) = Some (of_atom a).
Proof. by destruct depth. Qed.

Lemma as_atom_of_atom a : as_atom (of_atom a) = Some a.
Proof. by destruct a. Qed.

Lemma py_hash_of_atom a : py_hash (of_atom a) = Ok a.
Proof. by destruct a. Qed.

Lemma store_lookup_weaken (σ σ' : store) (l : loc) o :
  σ ⊆ σ' → σ !! l = Some o → σ' !! l = Some o.
Proof. intros Hσ Hl. by eapply lookup_weaken. Qed.

Lemma store_lookup_insert (σ : store) (l : loc) (o : object) :
  (<[l := o]> σ : store) !! l = Some o.
Proof. apply lookup_insert_eq. Qed.

(** More depth and more objects do not change a value. *)
Lemma value_of_weaken n : ∀ m σ σ' v p,
  (n ≤ m)%nat → σ ⊆ σ' → value_of n σ v = Some p → value_of m σ' v = Some p.
Proof.
  induction n as [|n IH]; intros m σ σ' v p Hnm Hσ.
  { destruct v as [a|l]; [|discriminate]. intros [= <-]. apply value_of_Imm. }
  destruct v as [a|l]; [intros [= <-]; apply value_of_Imm|].
  destruct m as [|m]; [lia|]. cbn [value_of].
  destruct (σ !! l) as [o|] eqn:Hl; [|discriminate].
  rewrite (store_lookup_weaken σ σ' l o Hσ Hl).
  destruct o as [items|fields].
  - intros (ps & Hps & ->)%fmap_Some. apply fmap_Some. exists ps. split; [|done].
    apply mapM_Some in Hps. apply mapM_Some.
    eapply Forall2_impl; [done|]. intros x q. apply IH; [lia | done].
  - destruct (decide (map_Forall _ fields)) as [Hall|]; [|discriminate].
    intros [= <-]. rewrite decide_True.
    + f_equal. f_equal. apply map_fmap_ext. intros k x Hk.
      destruct (Hall k x Hk) as [q Hq]. rewrite Hq.
      by rewrite (IH m σ σ' x q) by (done || lia).
    + intros k x Hk. destruct (Hall k x Hk) as [q Hq]. exists q.
      apply (IH m σ σ' x q); done || lia.
Qed.

(** What a reference stands for is a list or a dictionary. *)
Lemma value_of_Ref depth σ l p :
  value_of depth σ (Ref l) = Some p →
  ∃ o, σ !! l = Some o ∧
    match o with
    | OList items =>
        ∃ ps, p = PList ps ∧ Forall2 (stands_for depth σ) items ps
    | ODict fields =>
        ∃ d, p = PDict d ∧
          map_to_list d =
            prod_map id (λ x, default PNone (value_of depth σ x)) <$> map_to_list fields ∧
          ∀ key, option_Forall2 (stands_for depth σ) (fields !! key) (d !! key)
    end.
Proof.
  destruct depth as [|n]; [discriminate|]. intros Hv. cbn [value_of] in Hv.
  destruct (σ !! l) as [[items|fields]|] eqn:Hl; [| |discriminate]; revert Hv.
  - intros (ps & Hps & ->)%fmap_Some. eexists. split; [done|]. exists ps.
    split; [done|]. apply mapM_Some in Hps.
    eapply Forall2_impl; [done|]. intros x q. apply value_of_weaken; done || lia.
  - destruct (decide (map_Forall _ fields)) as [Hall|]; [|discriminate].
    intros [= <-]. eexists. split; [done|]. eexists. split; [done|]. split.
    + rewrite map_to_list_fmap. apply list_fmap_ext. intros i [k x] Hkx.
      apply list_elem_of_lookup_2, elem_of_map_to_list in Hkx.
      destruct (Hall k x Hkx) as [q Hq]. unfold prod_map. cbn [fst snd id].
      rewrite Hq. by rewrite (value_of_weaken n (S n) σ σ x q) by (done || lia).
    + intros key. rewrite lookup_fmap.
      destruct (fields !! key) as [x|] eqn:Hx; [|constructor].
      destruct (Hall key x Hx) as [q Hq].
      cbn [fmap option_fmap option_map]. rewrite Hq. constructor.
      apply (value_of_weaken n (S n) σ σ x q); done || lia.
Qed.

Lemma deref_weaken σ0 σ l o : σ0 ⊆ σ → σ0 !! l = Some o → deref l σ = (Ok o, σ).
Proof. intros Hσ Hl. unfold deref. by rewrite (store_lookup_weaken σ0 σ l o Hσ Hl). Qed.

(** ** The operations on the store and on values

    Each operation of the store, on arguments that stand for values, does
    what the operation on the values does. *)

Lemma store_bool_value depth σ0 σ v p :
  σ0 ⊆ σ → stands_for depth σ0 v p → store_bool v σ = (Ok (py_bool p), σ).
Proof.
  intros Hσ Hv. destruct v as [a|l].
  { unfold stands_for in Hv. rewrite value_of_Imm in Hv. by injection Hv as <-. }
  apply value_of_Ref in Hv as (o & Hl & Ho). cbn [store_bool].
  rewrite on_store_bind_eq, (deref_weaken σ0 σ l o) by done.
  destruct o as [items|fields].
  - destruct Ho as (ps & -> & Hps). by destruct Hps.
  - destruct Ho as (d & -> & Hd & _). cbn [py_bool]. rewrite Hd.
    by destruct (map_to_list fields).
Qed.

Lemma store_iter_value depth σ0 σ v p :
  σ0 ⊆ σ → stands_for depth σ0 v p →
  match py_iter p with
  | Ok ps => ∃ xs, store_iter v σ = (Ok xs, σ) ∧ Forall2 (stands_for depth σ0) xs ps
  | Raise e => store_iter v σ = (Raise e, σ)
  end.
Proof.
  intros Hσ Hv. destruct v as [a|l].
  { unfold stands_for in Hv. rewrite value_of_Imm in Hv. injection Hv as <-.
    destruct a; try done. cbn [of_atom py_iter]. eexists. split; [done|].
    apply Forall2_fmap, Forall_Forall2_diag, Forall_true. intros c.
    apply value_of_Imm. }
  apply value_of_Ref in Hv as (o & Hl & Ho). cbn [store_iter].
  rewrite on_store_bind_eq, (deref_weaken σ0 σ l o) by done.
  destruct o as [items|fields].
  - destruct Ho as (ps & -> & Hps). by exists items.
  - destruct Ho as (d & -> & Hd & _). cbn [py_iter]. rewrite Hd.
    eexists. split; [done|]. rewrite <- list_fmap_compose.
    apply Forall2_fmap, Forall_Forall2_diag, Forall_true. intros [k x].
    apply value_of_Imm.
Qed.

Lemma store_getitem_value depth σ0 σ v p key :
  σ0 ⊆ σ → stands_for depth σ0 v p →
  match py_getitem p key with
  | Ok q => ∃ x, store_getitem v key σ = (Ok x, σ) ∧ stands_for depth σ0 x q
  | Raise e => store_getitem v key σ = (Raise e, σ)
  end.
Proof.
  intros Hσ Hv. destruct v as [a|l].
  { unfold stands_for in Hv. rewrite value_of_Imm in Hv. injection Hv as <-.
    by destruct a. }
  apply value_of_Ref in Hv as (o & Hl & Ho). cbn [store_getitem].
  rewrite on_store_bind_eq, (deref_weaken σ0 σ l o) by done.
  destruct o as [items|fields].
  - by destruct Ho as (ps & -> & Hps).
  - destruct Ho as (d & -> & _ & Hd). cbn [py_getitem].
    destruct (Hd key) as [x q Hx|]; [|done]. by exists x.
Qed.

Lemma store_get_value depth σ0 σ v p key :
  σ0 ⊆ σ → stands_for depth σ0 v p →
  match py_get p key with
  | Ok q => ∃ x, store_get v key σ = (Ok x, σ) ∧ stands_for depth σ0 x q
  | Raise e => store_get v key σ = (Raise e, σ)
  end.
Proof.
  intros Hσ Hv. destruct v as [a|l].
  { unfold stands_for in Hv. rewrite value_of_Imm in Hv. injection Hv as <-.
    by destruct a. }
  apply value_of_Ref in Hv as (o & Hl & Ho). cbn [store_get].
  rewrite on_store_bind_eq, (deref_weaken σ0 σ l o) by done.
  destruct o as [items|fields].
  - by destruct Ho as (ps & -> & Hps).
  - destruct Ho as (d & -> & _ & Hd). cbn [py_get].
    eexists. split; [done|].
    destruct (Hd key) as [x q Hx|]; [done|]. apply value_of_Imm.
Qed.

Lemma store_hash_value depth σ0 σ v p :
  stands_for depth σ0 v p → store_hash v σ = (py_hash p, σ).
Proof.
  intros Hv. destruct v as [a|l].
  { unfold stands_for in Hv. rewrite value_of_Imm in Hv. injection Hv as <-.
    by rewrite py_hash_of_atom. }
  apply value_of_Ref in Hv as (o & Hl & Ho).
  destruct o; [destruct Ho as (ps & -> & _) | destruct Ho as (d & -> & _)]; done.
Qed.

(** The product and the sum of two immutable values are immutable. *)
Lemma py_mul_atoms a b r :
  py_mul (of_atom a) (of_atom b) = Ok r → ∃ c, r = of_atom c.
Proof.
  assert (Hatom : ∀ z, ∃ c, PInt z = of_atom c) by (intros z; by exists (AInt z)).
  assert (Hfloat : ∀ f, ∃ c, PFloat f = of_atom c) by (intros f; by exists (AFloat f)).
  assert (Hstr : ∀ s, ∃ c, PStr s = of_atom c) by (intros s; by exists (AStr s)).
  destruct a, b; unfold py_mul, num_mul, seq_repeat; cbn;
    repeat match goal with
           | |- context [match ?x with _ => _ end] => destruct x
           | |- context [if ?x then _ else _] => destruct x
           end;
    try discriminate;
    first [intros [= <-] | intros (? & _ & [= <-])%bind_inv_Ok]; auto.
Qed.

Lemma py_add_atoms a b r :
  py_add (of_atom a) (of_atom b) = Ok r → ∃ c, r = of_atom c.
Proof.
  assert (Hatom : ∀ z, ∃ c, PInt z = of_atom c) by (intros z; by exists (AInt z)).
  assert (Hfloat : ∀ f, ∃ c, PFloat f = of_atom c) by (intros f; by exists (AFloat f)).
  assert (Hstr : ∀ s, ∃ c, PStr s = of_atom c) by (intros s; by exists (AStr s)).
  destruct a, b; unfold py_add, num_add; cbn;
    repeat match goal with
           | |- context [match ?x with _ => _ end] => destruct x
           end;
    try discriminate;
    first [intros [= <-] | intros (? & _ & [= <-])%bind_inv_Ok]; auto.
Qed.

Lemma immutable_value r σ :
  (∀ v, r = Ok v → ∃ c, v = of_atom c) →
  match r with
  | Ok v => ∃ c, immutable r σ = (Ok (Imm c), σ) ∧ of_atom c = v
  | Raise e => immutable r σ = (Raise e, σ)
  end.
Proof.
  intros Hr. destruct r as [v|e]; [|done].
  destruct (Hr v eq_refl) as [c ->]. exists c. cbn [immutable].
  by rewrite as_atom_of_atom.
Qed.

Lemma new_list_value depth σ0 σ items ps :
  σ0 ⊆ σ → Forall2 (stands_for depth σ0) items ps →
  ∃ σ' x, new_list items σ = (Ok x, σ') ∧ σ ⊆ σ' ∧
          stands_for (S depth) σ' x (PList ps).
Proof.
  intros Hσ Hitems. eexists _, _. split; [reflexivity|].
  assert (Hfresh : σ !! fresh (dom σ) = None) by apply not_elem_of_dom, is_fresh.
  split; [by apply insert_subseteq|].
  unfold stands_for. cbn [value_of]. rewrite store_lookup_insert.
  apply fmap_Some. exists ps. split; [|done]. apply mapM_Some.
  eapply Forall2_impl; [done|]. intros x q. apply value_of_weaken; [lia|].
  trans σ; [done | by apply insert_subseteq].
Qed.

Lemma Forall2_list_repeat {A B : Type} (P : A → B → Prop) n l k :
  Forall2 P l k → Forall2 P (list_repeat n l) (list_repeat n k).
Proof. intros H. induction n; simpl; [constructor | by apply Forall2_app]. Qed.

Lemma store_repeat_value depth σ0 σ items ps w q :
  σ0 ⊆ σ →
  Forall2 (stands_for depth σ0) items ps →
  stands_for depth σ0 w q →
  ∃ σ', σ ⊆ σ' ∧
    match seq_repeat (PList ps) q with
    | Ok r => ∃ x, store_repeat items w σ = (Ok x, σ') ∧ stands_for (S depth) σ' x r
    | Raise e => store_repeat items w σ = (Raise e, σ')
    end.
Proof.
  intros Hσ Hitems Hw.
  assert (Hlen : length items = length ps) by by eapply Forall2_length.
  destruct w as [b|l].
  2:{ apply value_of_Ref in Hw as (o & Hl & Ho). exists σ. split; [done|].
      destruct o; [destruct Ho as (qs & -> & _) | destruct Ho as (d & -> & _)]; done. }
  unfold stands_for in Hw. rewrite value_of_Imm in Hw. injection Hw as <-.
  unfold seq_repeat, store_repeat. rewrite Hlen.
  destruct (as_index (of_atom b)) as [c|]; [|by exists σ].
  destruct (_ || _); [by exists σ|].
  destruct (_ || _).
  { destruct (new_list_value depth σ0 σ [] [] Hσ) as (σ' & x & Hnew & Hσ' & Hx);
      [constructor|].
    exists σ'. split; [done|]. by exists x. }
  destruct (_ <? _); [by exists σ|].
  destruct (allocates _); [|by exists σ].
  destruct (new_list_value depth σ0 σ (list_repeat (Z.to_nat c) items)
              (list_repeat (Z.to_nat c) ps) Hσ) as (σ' & x & Hnew & Hσ' & Hx).
  { by apply Forall2_list_repeat. }
  exists σ'. split; [done|]. by exists x.
Qed.

Lemma store_mul_value depth σ0 σ v w p q :
  σ0 ⊆ σ →
  stands_for depth σ0 v p →
  stands_for depth σ0 w q →
  ∃ σ', σ ⊆ σ' ∧
    match py_mul p q with
    | Ok r => ∃ x, store_mul v w σ = (Ok x, σ') ∧ stands_for (S depth) σ' x r
    | Raise e => store_mul v w σ = (Raise e, σ')
    end.
Proof.
  intros Hσ Hv Hw. destruct v as [a|l].
  - pose proof Hv as Hp. unfold stands_for in Hp. rewrite value_of_Imm in Hp.
    injection Hp as <-. destruct w as [b|k].
    + unfold stands_for in Hw. rewrite value_of_Imm in Hw. injection Hw as <-.
      exists σ. split; [done|]. cbn [store_mul].
      pose proof (immutable_value (py_mul (of_atom a) (of_atom b)) σ) as Himm.
      destruct (py_mul (of_atom a) (of_atom b)) as [r|e] eqn:Hmul.
      * destruct Himm as (c & -> & <-); [intros v [= <-]; by eapply py_mul_atoms|].
        exists (Imm c). split; [done|]. apply value_of_Imm.
      * apply Himm. discriminate.
    + apply value_of_Ref in Hw as (o & Hk & Ho). cbn [store_mul].
      rewrite on_store_bind_eq, (deref_weaken σ0 σ k o) by done.
      destruct o as [items|fields].
      * destruct Ho as (qs & -> & Hqs).
        rewrite py_mul_sequence by (by right).
        destruct (is_sequence (of_atom a)) eqn:Hseq.
        { exists σ. split; [done|]. by destruct a. }
        cbn [is_sequence]. by eapply store_repeat_value.
      * destruct Ho as (d & -> & _). exists σ. split; [done|].
        rewrite py_mul_sequence by (by right). by destruct a.
  - apply value_of_Ref in Hv as (o & Hl & Ho). cbn [store_mul].
    rewrite on_store_bind_eq, (deref_weaken σ0 σ l o) by done.
    destruct o as [items|fields].
    + destruct Ho as (ps & -> & Hps).
      rewrite py_mul_sequence by (by left). cbn [is_sequence].
      by eapply store_repeat_value.
    + destruct Ho as (d & -> & _). exists σ. split; [done|].
      rewrite py_mul_sequence by (by left). cbn [is_sequence].
      destruct (is_sequence q) eqn:Hq; [|done].
      by destruct q.
Qed.

Lemma store_iadd_value depth σ a x r :
  stands_for depth σ x r →
  match py_add (of_atom a) r with
  | Ok t => ∃ c, store_iadd (Imm a) x σ = (Ok (Imm c), σ) ∧ of_atom c = t
  | Raise e => store_iadd (Imm a) x σ = (Raise e, σ)
  end.
Proof.
  intros Hx. destruct x as [b|l].
  - unfold stands_for in Hx. rewrite value_of_Imm in Hx. injection Hx as <-.
    cbn [store_iadd].
    pose proof (immutable_value (py_add (of_atom a) (of_atom b)) σ) as Himm.
    destruct (py_add (of_atom a) (of_atom b)) as [r|e] eqn:Hadd.
    + apply Himm. intros v [= <-]. by eapply py_add_atoms.
    + apply Himm. discriminate.
  - apply value_of_Ref in Hx as (o & Hl & Ho).
    destruct o; [destruct Ho as (ps & -> & _) | destruct Ho as (d & -> & _)];
      by destruct a.
Qed.

(** ** The accumulator on the store and on values *)

Lemma prices_stand_for_insert depth σ store_prices price_dict k x p :
  prices_stand_for depth σ store_prices price_dict →
  stands_for depth σ x p →
  prices_stand_for depth σ (<[k := x]> store_prices) (<[k := p]> price_dict).
Proof.
  intros Hpd Hx k'. destruct (decide (k = k')) as [->|Hk].
  - rewrite !lookup_insert_eq. by constructor.
  - rewrite !lookup_insert_ne by done. apply Hpd.
Qed.

Lemma store_build_price_dict_value depth σ0 σ items pitems :
  σ0 ⊆ σ →
  Forall2 (stands_for depth σ0) items pitems →
  ∀ store_prices price_dict,
    prices_stand_for depth σ0 store_prices price_dict →
    match build_price_dict price_dict pitems with
    | Ok price_dict' =>
        ∃ store_prices',
          store_build_price_dict store_prices items σ = (Ok store_prices', σ) ∧
          prices_stand_for depth σ0 store_prices' price_dict'
    | Raise e => store_build_price_dict store_prices items σ = (Raise e, σ)
    end.
Proof.
  intros Hσ Hitems.
  induction Hitems as [|item pitem items pitems Hitem _ IH];
    intros store_prices price_dict Hpd.
  { by exists store_prices. }
  cbn [build_price_dict store_build_price_dict]. rewrite on_store_bind_eq.
  pose proof (store_getitem_value depth σ0 σ item pitem "title" Hσ Hitem) as Htitle.
  destruct (py_getitem pitem "title") as [ptitle|e]; [|by rewrite Htitle].
  destruct Htitle as (title & -> & Htitle). rewrite bind_Ok, on_store_bind_eq.
  pose proof (store_getitem_value depth σ0 σ item pitem "price" Hσ Hitem) as Hprice.
  destruct (py_getitem pitem "price") as [pprice|e]; [|by rewrite Hprice].
  destruct Hprice as (price & -> & Hprice). rewrite bind_Ok, on_store_bind_eq.
  rewrite (store_hash_value depth σ0 σ title ptitle Htitle).
  destruct (py_hash ptitle) as [key|e]; [|done]. rewrite bind_Ok.
  apply IH. by apply prices_stand_for_insert.
Qed.

(** Appending a message to the new list leaves the objects of [σ0] alone. *)
Lemma store_append_message (σ0 σ : store) (errors : loc) messages m (t : slot) :
  σ0 ⊆ σ →
  σ0 !! errors = None →
  σ !! errors = Some (messages_object messages) →
  ∃ σ' : store,
    (store_append errors (Imm (AStr m));; mret t) σ = (Ok t, σ') ∧
    σ0 ⊆ σ' ∧
    σ' !! errors = Some (messages_object (messages ++ [m])).
Proof.
  intros Hσ H0 He.
  exists (<[errors := messages_object (messages ++ [m])]> σ). split; [|split].
  - rewrite on_store_bind_eq. unfold store_append.
    rewrite on_store_bind_eq. unfold deref. rewrite He.
    unfold messages_object. by rewrite fmap_app.
  - by apply insert_subseteq_r.
  - apply store_lookup_insert.
Qed.

Lemma store_process_sale_value depth (σ0 σ : store) store_prices price_dict
    (errors : loc) messages a sale psale :
  σ0 ⊆ σ →
  σ0 !! errors = None →
  σ !! errors = Some (messages_object messages) →
  prices_stand_for depth σ0 store_prices price_dict →
  stands_for depth σ0 sale psale →
  ∃ σ' : store, σ0 ⊆ σ' ∧
    match process_sale price_dict (of_atom a, messages) psale with
    | Ok (total, messages') =>
        ∃ c, store_process_sale store_prices errors (Imm a) sale σ = (Ok (Imm c), σ') ∧
             of_atom c = total ∧
             σ' !! errors = Some (messages_object messages')
    | Raise e =>
        store_process_sale store_prices errors (Imm a) sale σ = (Raise e, σ')
    end.
Proof.
  intros Hσ H0 He Hpd Hsale.
  assert (Hmessage : ∀ (σ1 : store) m, σ ⊆ σ1 →
    ∃ σ' : store, σ0 ⊆ σ' ∧
      ∃ c, (store_append errors (Imm (AStr m));; mret (Imm a)) σ1 = (Ok (Imm c), σ') ∧
           of_atom c = of_atom a ∧
           σ' !! errors = Some (messages_object (messages ++ [m]))).
  { intros σ1 m Hσ1.
    destruct (store_append_message σ0 σ1 errors messages m (Imm a))
      as (σ' & Happ & Hσ' & He'); [by trans σ | done | |].
    { by apply (store_lookup_weaken σ σ1). }
    exists σ'. split; [done|]. by exists a. }
  unfold process_sale, store_process_sale. rewrite on_store_bind_eq.
  pose proof (store_get_value depth σ0 σ sale psale "Product" Hσ Hsale) as Hproduct.
  destruct (py_get psale "Product") as [pproduct|e];
    [|exists σ; split; [done | by rewrite Hproduct]].
  destruct Hproduct as (product & -> & Hproduct). rewrite bind_Ok, on_store_bind_eq.
  pose proof (store_get_value depth σ0 σ sale psale "Quantity" Hσ Hsale) as Hquantity.
  destruct (py_get psale "Quantity") as [pquantity|e];
    [|exists σ; split; [done | by rewrite Hquantity]].
  destruct Hquantity as (quantity & -> & Hquantity). rewrite bind_Ok, on_store_bind_eq.
  rewrite (store_bool_value depth σ0 σ product pproduct Hσ Hproduct).
  destruct (py_bool pproduct); cbn [negb]; [|by apply Hmessage].
  rewrite on_store_bind_eq, (store_hash_value depth σ0 σ product pproduct Hproduct).
  destruct (py_hash pproduct) as [key|e]; [|by exists σ]. rewrite bind_Ok.
  destruct (Hpd (key_of key)) as [price pprice Hprice|]; [|by apply Hmessage].
  destruct (store_mul_value depth σ0 σ price quantity pprice pquantity Hσ Hprice Hquantity)
    as (σ1 & Hσ1 & Hmul).
  assert (Hσ01 : σ0 ⊆ σ1) by by trans σ.
  unfold except_TypeError. rewrite on_store_bind_eq.
  destruct (py_mul pprice pquantity) as [r|e].
  - destruct Hmul as (x & -> & Hx). rewrite bind_Ok.
    pose proof (store_iadd_value (S depth) σ1 a x r Hx) as Hadd.
    destruct (py_add (of_atom a) r) as [t|e].
    + destruct Hadd as (c & -> & Hc). exists σ1. split; [done|]. exists c.
      repeat split; try done. by apply (store_lookup_weaken σ σ1).
    + rewrite Hadd. destruct e; try (by exists σ1). by apply Hmessage.
  - rewrite Hmul, bind_Raise. destruct e; try (by exists σ1). by apply Hmessage.
Qed.

Lemma store_process_sales_value depth (σ0 : store) store_prices price_dict
    (errors : loc) sales psales :
  σ0 !! errors = None →
  prices_stand_for depth σ0 store_prices price_dict →
  Forall2 (stands_for depth σ0) sales psales →
  ∀ (σ : store) a messages,
    σ0 ⊆ σ →
    σ !! errors = Some (messages_object messages) →
    ∃ σ' : store, σ0 ⊆ σ' ∧
      match process_sales price_dict (of_atom a, messages) psales with
      | Ok (total, messages') =>
          ∃ c, store_process_sales store_prices errors (Imm a) sales σ =
                 (Ok (Imm c), σ') ∧
               of_atom c = total ∧
               σ' !! errors = Some (messages_object messages')
      | Raise e =>
          store_process_sales store_prices errors (Imm a) sales σ = (Raise e, σ')
      end.
Proof.
  intros H0 Hpd Hsales.
  induction Hsales as [|sale psale sales psales Hsale _ IH]; intros σ a messages Hσ He.
  { exists σ. split; [done|]. by exists a. }
  rewrite process_sales_cons. cbn [store_process_sales]. rewrite on_store_bind_eq.
  destruct (store_process_sale_value depth σ0 σ store_prices price_dict errors
              messages a sale psale Hσ H0 He Hpd Hsale) as (σ1 & Hσ1 & Hstep).
  destruct (process_sale price_dict (of_atom a, messages) psale)
    as [[total messages1]|e].
  - destruct Hstep as (c & -> & <- & He1). rewrite bind_Ok. by apply IH.
  - rewrite Hstep, bind_Raise. by exists σ1.
Qed.

Lemma mapM_message_of messages :
  mapM message_of ((λ m, Imm (AStr m)) <$> messages) = Some messages.
Proof. by apply mapM_fmap_Some. Qed.

(** What the caller of the function on the store has after the call is
    what the function on values returns for the values of the arguments. *)
Lemma calculate_total_cost_on_store_value depth (σ : store)
    price_catalogue sales_data vpc vsd r (σ' : store) :
  stands_for depth σ price_catalogue vpc →
  stands_for depth σ sales_data vsd →
  calculate_total_cost_on_store price_catalogue sales_data σ = (r, σ') →
  outcome_in σ' r = Some (calculate_total_cost vpc vsd).
Proof.
  intros Hpc Hsd. unfold calculate_total_cost_on_store, calculate_total_cost.
  rewrite on_store_bind_eq. cbn [alloc].
  set (errors := fresh (dom σ)).
  assert (H0 : σ !! errors = None) by apply not_elem_of_dom, is_fresh.
  set (σe := <[errors := OList []]> σ : store).
  assert (Hσ : σ ⊆ σe) by by apply insert_subseteq.
  assert (He : σe !! errors = Some (messages_object [])) by apply store_lookup_insert.
  rewrite on_store_bind_eq.
  pose proof (store_iter_value depth σ σe price_catalogue vpc Hσ Hpc) as Hitems.
  destruct (py_iter vpc) as [pitems|e]; [|rewrite Hitems; by intros [= <- <-]].
  destruct Hitems as (items & -> & Hitems). rewrite bind_Ok, on_store_bind_eq.
  pose proof (store_build_price_dict_value depth σ σe items pitems Hσ Hitems ∅ ∅)
    as Hbuild.
  destruct (build_price_dict ∅ pitems) as [price_dict|e].
  2:{ rewrite Hbuild; [by intros [= <- <-]|]. intros k. rewrite !lookup_empty.
      constructor. }
  destruct Hbuild as (store_prices & -> & Hpd).
  { intros k. rewrite !lookup_empty. constructor. }
  rewrite bind_Ok, on_store_bind_eq.
  pose proof (store_iter_value depth σ σe sales_data vsd Hσ Hsd) as Hsales.
  destruct (py_iter vsd) as [psales|e]; [|rewrite Hsales; by intros [= <- <-]].
  destruct Hsales as (sales & -> & Hsales). rewrite bind_Ok, on_store_bind_eq.
  destruct (store_process_sales_value depth σ store_prices price_dict errors
              sales psales H0 Hpd Hsales σe (AInt 0) [] Hσ He) as (σ1 & Hσ1 & Hrun).
  change (of_atom (AInt 0)) with (PInt 0) in Hrun.
  destruct (process_sales price_dict (PInt 0, []) psales) as [[total messages]|e].
  - destruct Hrun as (c & -> & <- & He1). intros [= <- <-].
    cbn [outcome_in]. rewrite He1. unfold messages_object.
    by rewrite mapM_message_of.
  - rewrite Hrun. by intros [= <- <-].
Qed.

End Accumulator.

(** * The machine between two calls

    What the machine grants may differ from one call to the next; that can
    only turn a result into a [MemoryError]. *)

Lemma seq_repeat_machines (first second : Machine) s n :
  same_unless_memory (@seq_repeat first s n) (@seq_repeat second s n).
Proof.
  unfold same_unless_memory, seq_repeat.
  destruct (as_index n) as [c|]; [|by left].
  destruct (_ || _); [by left|].
  destruct s; try (by left).
  - repeat match goal with
           | |- context [if ?b then _ else _] => destruct b
           end; auto.
  - repeat match goal with
           | |- context [if ?b then _ else _] => destruct b
           end; auto.
Qed.

Lemma py_mul_machines (first second : Machine) v w :
  same_unless_memory (@py_mul first v w) (@py_mul second v w).
Proof.
  unfold py_mul. destruct (as_number v), (as_number w); try (by left);
    repeat match goal with
           | |- context [if ?b then _ else _] => destruct b
           end; try (by left); apply seq_repeat_machines.
Qed.

Lemma process_sale_machines (first second : Machine) price_dict state sale :
  same_unless_memory (@process_sale first price_dict state sale)
                     (@process_sale second price_dict state sale).
Proof.
  unfold process_sale. destruct state as [total_cost errors].
  destruct (py_get sale "Product") as [product|e]; [|by left]. rewrite !bind_Ok.
  destruct (py_get sale "Quantity") as [quantity|e]; [|by left]. rewrite !bind_Ok.
  destruct (negb (py_bool product)); [by left|].
  destruct (py_hash product) as [key|e]; [|by left]. rewrite !bind_Ok.
  destruct (price_dict !! key_of key) as [price|]; [|by left].
  destruct (py_mul_machines first second price quantity) as [->|[->| ->]].
  - by left.
  - right. by left.
  - right. by right.
Qed.

Lemma process_sales_machines (first second : Machine) price_dict sales : ∀ state,
  same_unless_memory (@process_sales first price_dict state sales)
                     (@process_sales second price_dict state sales).
Proof.
  induction sales as [|sale sales IH]; intros state; [by left|].
  rewrite !process_sales_cons.
  destruct (process_sale_machines first second price_dict state sale) as [->|[->| ->]].
  - destruct (@process_sale second price_dict state sale) as [state'|e]; [|by left].
    rewrite !bind_Ok. apply IH.
  - right. by left.
  - right. by right.
Qed.

Lemma calculate_total_cost_machines (first second : Machine) price_catalogue sales_data :
  same_unless_memory (@calculate_total_cost first price_catalogue sales_data)
                     (@calculate_total_cost second price_catalogue sales_data).
Proof.
  unfold calculate_total_cost.
  destruct (py_iter price_catalogue) as [items|e]; [|by left]. rewrite !bind_Ok.
  destruct (build_price_dict ∅ items) as [price_dict|e]; [|by left]. rewrite !bind_Ok.
  destruct (py_iter sales_data) as [sales|e]; [|by left]. rewrite !bind_Ok.
  apply process_sales_machines.
Qed.

Lemma outcome_in_weaken (σ σ' : store) r o :
  σ ⊆ σ' → outcome_in σ r = Some o → outcome_in σ' r = Some o.
Proof.
  intros Hσ. destruct r as [[[a|l] errors]|e]; try done. cbn [outcome_in].
  destruct (σ !! errors) as [ob|] eqn:He; [|done].
  by rewrite (store_lookup_weaken σ σ' errors ob Hσ He).
Qed.

Lemma outcome_in_Raise (σ : store) r e :
  outcome_in σ r = Some (Raise e) → r = Raise e.
Proof.
  destruct r as [[[a|l] errors]|e']; cbn [outcome_in]; try done.
  - destruct (σ !! errors) as [[items|]|]; try done.
    destruct (mapM message_of items); done.
  - by intros [= ->].
Qed.

(** C8.  Two calls of [calculate_total_cost] on the same two arguments, the
    second in the store the first has left, on machines that may grant
    different amounts of memory.
    - No side effects: every object that was in the store before a call is
      in it unchanged after the call, whatever the arguments are and
      however the call ends; so arguments that stand for two values of JSON
      stand for the same values after both calls.
    - Deterministic: each call gives its caller what the function on values
      gives for the values of the arguments; the two calls give the same
      total and the same messages (in two lists), or raise the same
      exception, unless one of them runs out of memory; on the same machine
      they give the same in every case.  The pair of the first call is
      still what it was after the second. *)
Theorem calculate_total_cost_deterministic (first second : Machine)
    (σ σ1 σ2 : store) price_catalogue sales_data r1 r2 :
  @calculate_total_cost_on_store first price_catalogue sales_data σ = (r1, σ1) →
  @calculate_total_cost_on_store second price_catalogue sales_data σ1 = (r2, σ2) →
  (σ ⊆ σ1 ∧ σ1 ⊆ σ2) ∧
  ∀ depth vpc vsd,
    value_of depth σ price_catalogue = Some vpc →
    value_of depth σ sales_data = Some vsd →
    (value_of depth σ2 price_catalogue = Some vpc ∧
     value_of depth σ2 sales_data = Some vsd) ∧
    (outcome_in σ1 r1 = Some (@calculate_total_cost first vpc vsd) ∧
     outcome_in σ2 r2 = Some (@calculate_total_cost second vpc vsd) ∧
     outcome_in σ2 r1 = outcome_in σ1 r1) ∧
    (outcome_in σ2 r1 = outcome_in σ2 r2 ∨
     r1 = Raise MemoryError ∨ r2 = Raise MemoryError) ∧
    (first = second → outcome_in σ2 r1 = outcome_in σ2 r2).
Proof.
  intros Hrun1 Hrun2.
  pose proof (@calculate_total_cost_on_store_grows first _ _ _ _ _ Hrun1) as Hσ1.
  pose proof (@calculate_total_cost_on_store_grows second _ _ _ _ _ Hrun2) as Hσ2.
  split; [done|]. intros depth vpc vsd Hpc Hsd.
  assert (Hpc1 : value_of depth σ1 price_catalogue = Some vpc)
    by by apply (value_of_weaken depth depth σ σ1).
  assert (Hsd1 : value_of depth σ1 sales_data = Some vsd)
    by by apply (value_of_weaken depth depth σ σ1).
  pose proof (@calculate_total_cost_on_store_value first depth σ _ _ vpc vsd r1 σ1
                Hpc Hsd Hrun1) as Hout1.
  pose proof (@calculate_total_cost_on_store_value second depth σ1 _ _ vpc vsd r2 σ2
                Hpc1 Hsd1 Hrun2) as Hout2.
  pose proof (outcome_in_weaken σ1 σ2 r1 _ Hσ2 Hout1) as Hout12.
  split; [|split; [|split]].
  - split; by apply (value_of_weaken depth depth σ1 σ2).
  - repeat split; try done. by rewrite Hout12.
  - rewrite Hout12, Hout2.
    destruct (calculate_total_cost_machines first second vpc vsd) as [->|[H|H]].
    + by left.
    + right. left. rewrite H in Hout1. by apply outcome_in_Raise in Hout1.
    + right. right. rewrite H in Hout2. by apply outcome_in_Raise in Hout2.
  - intros <-. by rewrite Hout12, Hout2.
Qed.

(** * Concrete runs

    The examples, and a concrete instance of each statement above that has a
    hypothesis, on a machine that grants every request. *)

#[global] Instance ample_memory : Machine := λ _, true.

Example example_total :
  calculate_total_cost example_catalogue example_sales =
  Ok (PFloat (Float.make 7 0),
      ["Warning: 'Mango' is not listed in the price catalogue.";
       "Warning: Sale record with a missing product name.";
       "Error: Invalid price format for 'Apple'."]).
Proof. vm_compute. reflexivity. Qed.

Lemma missing_product_one_warning_witness :
  py_bool (product_of (list_to_map [("Product", PStr ""); ("Quantity", PInt 3)])) = false ∧
  process_sale ∅ (PInt 5, ["earlier"])
    (PDict (list_to_map [("Product", PStr ""); ("Quantity", PInt 3)])) =
  Ok (PInt 5, ["earlier"; missing_product_warning]).
Proof.
  split; [reflexivity|].
  exact (proj1 (missing_product_one_warning ∅
    (list_to_map [("Product", PStr ""); ("Quantity", PInt 3)]) eq_refl)
    (PInt 5) ["earlier"]).
Defined.

Lemma unlisted_product_one_warning_witness :
  process_sale (<[HStr "Apple" := PInt 2]> ∅) (PInt 5, [])
    (PDict (list_to_map [("Product", PStr "Mango"); ("Quantity", PInt 1)])) =
  Ok (PInt 5, ["Warning: 'Mango' is not listed in the price catalogue."]).
Proof.
  exact (proj1 (unlisted_product_one_warning (<[HStr "Apple" := PInt 2]> ∅)
    (list_to_map [("Product", PStr "Mango"); ("Quantity", PInt 1)])
    (AStr "Mango") eq_refl eq_refl eq_refl) (PInt 5) []).
Defined.

Lemma later_price_wins_witness :
  calculate_total_cost
    (PList [obj [("title", PStr "Apple"); ("price", PInt 2)];
            obj [("title", PStr "Pear"); ("price", PInt 7)];
            obj [("title", PStr "Apple"); ("price", PInt 3)];
            obj [("title", PStr "Plum"); ("price", PInt 1)]])
    (PList [obj [("Product", PStr "Apple"); ("Quantity", PInt 5)]]) =
  Ok (PInt 15, []).
Proof.
  refine (proj2 (later_price_wins []
    (obj [("title", PStr "Apple"); ("price", PInt 2)])
    [obj [("title", PStr "Pear"); ("price", PInt 7)]]
    (obj [("title", PStr "Apple"); ("price", PInt 3)])
    [obj [("title", PStr "Plum"); ("price", PInt 1)]]
    (HStr "Apple") (PInt 2) (PInt 3)
    (list_to_map [("Product", PStr "Apple"); ("Quantity", PInt 5)])
    (AStr "Apple") (PInt 15) (PInt 15)
    _ eq_refl eq_refl _ eq_refl eq_refl eq_refl eq_refl eq_refl)).
  - repeat constructor; by eexists.
  - repeat constructor. intros price. vm_compute. discriminate.
Defined.

(** The same price with an ordinary quantity is answered as intended. *)
Example string_price_small_quantity :
  calculate_total_cost
    (PList [obj [("title", PStr "Apple"); ("price", PStr "1.50")]])
    (PList [obj [("Product", PStr "Apple"); ("Quantity", PInt 2)]]) =
  Ok (PInt 0, ["Error: Invalid price format for 'Apple'."]).
Proof. vm_compute. reflexivity. Qed.



(** Two more ways out of the loop: a sale record that is not an object, and
    a product that cannot be hashed. *)
Example sale_not_an_object_raises :
  calculate_total_cost example_catalogue
    (PList [PStr "Apple"; obj [("Product", PStr "Apple"); ("Quantity", PInt 1)]]) =
  Raise AttributeError.
Proof. vm_compute. reflexivity. Qed.

Example unhashable_product_raises :
  calculate_total_cost example_catalogue
    (PList [obj [("Product", PList [PStr "Apple"]); ("Quantity", PInt 1)]]) =
  Raise TypeError.
Proof. vm_compute. reflexivity. Qed.

Lemma catalogue_is_checked_first_witness :
  ∃ e, calculate_total_cost (PList [obj [("title", PStr "Apple")]]) (PInt 3) = Raise e.
Proof.
  refine (proj2 (catalogue_is_checked_first [obj [("title", PStr "Apple")]]) _ (PInt 3)).
  intros Hitems. apply Forall_cons in Hitems as [[entry Hentry] _].
  vm_compute in Hentry. discriminate Hentry.
Defined.

Lemma empty_catalogue_charges_nothing_witness :
  ∃ errors,
    calculate_total_cost (PList [])
      (PList [obj [("Product", PStr "Apple"); ("Quantity", PInt 4)];
              obj [("Quantity", PInt 1)]]) = Ok (PInt 0, errors) ∧
    length errors = 2%nat.
Proof.
  exact (empty_catalogue_charges_nothing
    [obj [("Product", PStr "Apple"); ("Quantity", PInt 4)];
     obj [("Quantity", PInt 1)]] eq_refl).
Defined.

Lemma other_sale_fields_are_ignored_witness :
  calculate_total_cost example_catalogue
    (PList ([] ++ PDict (<["Customer" := PStr "Ann"]>
                           (list_to_map [("Product", PStr "Apple"); ("Quantity", PInt 4)]))
               :: [])) =
  Ok (PFloat (Float.make 6 0), []).
Proof.
  rewrite (other_sale_fields_are_ignored example_catalogue [] []
    (list_to_map [("Product", PStr "Apple"); ("Quantity", PInt 4)])
    "Customer" (PStr "Ann")); [|discriminate|discriminate].
  vm_compute. reflexivity.
Defined.

Lemma other_item_fields_are_ignored_witness :
  calculate_total_cost
    (PList ([] ++ PDict (<["type" := PStr "fruit"]>
                           (list_to_map [("title", PStr "Apple"); ("price", PInt 2)]))
               :: []))
    (PList [obj [("Product", PStr "Apple"); ("Quantity", PInt 4)]]) =
  Ok (PInt 8, []).
Proof.
  rewrite (other_item_fields_are_ignored
    (PList [obj [("Product", PStr "Apple"); ("Quantity", PInt 4)]]) [] []
    (list_to_map [("title", PStr "Apple"); ("price", PInt 2)])
    "type" (PStr "fruit")); [|discriminate|discriminate].
  vm_compute. reflexivity.
Defined.

Lemma missing_quantity_is_an_error_witness :
  calculate_total_cost
    (PList [obj [("title", PStr "Apple"); ("price", PInt 2)]])
    (PList ([] ++ PDict (list_to_map [("Product", PStr "Apple")]) :: [])) =
  Ok (PInt 0, ["Error: Invalid price format for 'Apple'."]).
Proof.
  exact (missing_quantity_is_an_error
    [obj [("title", PStr "Apple"); ("price", PInt 2)]] [] []
    (<[HStr "Apple" := PInt 2]> ∅) (PInt 0) []
    (list_to_map [("Product", PStr "Apple")]) (AStr "Apple") (PInt 2)
    eq_refl eq_refl eq_refl eq_refl).
Defined.

Lemma unused_item_does_not_matter_witness :
  calculate_total_cost
    (PList ([obj [("title", PStr "Apple"); ("price", PInt 2)]] ++
            obj [("title", PStr "Pear"); ("price", PInt 9)] :: []))
    (PList [obj [("Product", PStr "Apple"); ("Quantity", PInt 4)]]) =
  Ok (PInt 8, []).
Proof.
  rewrite (unused_item_does_not_matter
    [obj [("title", PStr "Apple"); ("price", PInt 2)]]
    (obj [("title", PStr "Pear"); ("price", PInt 9)]) []
    [obj [("Product", PStr "Apple"); ("Quantity", PInt 4)]]
    (HStr "Pear") (PInt 9) eq_refl).
  - vm_compute. reflexivity.
  - repeat constructor. vm_compute. discriminate.
Defined.

Lemma anomalous_records_do_not_count_witness :
  calculate_total_cost example_catalogue
    (PList (List.filter
      (valid_sale (<[HStr "Banana" := PFloat (Float.make 1 (-1))]>
                     (<[HStr "Apple" := PFloat (Float.make 3 (-1))]> ∅)))
      [obj [("Product", PStr "Apple"); ("Quantity", PInt 4)];
       obj [("Product", PStr "Banana"); ("Quantity", PInt 2)];
       obj [("Product", PStr "Mango"); ("Quantity", PInt 1)];
       obj [("Product", PStr ""); ("Quantity", PInt 1)];
       obj [("Product", PStr "Apple"); ("Quantity", PStr "two")]])) =
  Ok (PFloat (Float.make 7 0), []).
Proof.
  exact (anomalous_records_do_not_count
    [obj [("title", PStr "Apple"); ("price", PFloat (Float.make 3 (-1)))];
     obj [("title", PStr "Banana"); ("price", PFloat (Float.make 1 (-1)))]]
    [obj [("Product", PStr "Apple"); ("Quantity", PInt 4)];
     obj [("Product", PStr "Banana"); ("Quantity", PInt 2)];
     obj [("Product", PStr "Mango"); ("Quantity", PInt 1)];
     obj [("Product", PStr ""); ("Quantity", PInt 1)];
     obj [("Product", PStr "Apple"); ("Quantity", PStr "two")]]
    (<[HStr "Banana" := PFloat (Float.make 1 (-1))]>
       (<[HStr "Apple" := PFloat (Float.make 3 (-1))]> ∅))
    (PFloat (Float.make 7 0))
    ["Warning: 'Mango' is not listed in the price catalogue.";
     "Warning: Sale record with a missing product name.";
     "Error: Invalid price format for 'Apple'."]
    eq_refl eq_refl).
Defined.

Lemma messages_concatenate_witness :
  ∃ total1 errors1,
    calculate_total_cost example_catalogue
      (PList [obj [("Product", PStr "Apple"); ("Quantity", PInt 4)];
              obj [("Product", PStr "Banana"); ("Quantity", PInt 2)];
              obj [("Product", PStr "Mango"); ("Quantity", PInt 1)]]) =
    Ok (total1, errors1) ∧
    ["Warning: 'Mango' is not listed in the price catalogue.";
     "Warning: Sale record with a missing product name.";
     "Error: Invalid price format for 'Apple'."] =
    errors1 ++ ["Warning: Sale record with a missing product name.";
                "Error: Invalid price format for 'Apple'."].
Proof.
  refine (messages_concatenate
    [obj [("title", PStr "Apple"); ("price", PFloat (Float.make 3 (-1)))];
     obj [("title", PStr "Banana"); ("price", PFloat (Float.make 1 (-1)))]]
    [obj [("Product", PStr "Apple"); ("Quantity", PInt 4)];
     obj [("Product", PStr "Banana"); ("Quantity", PInt 2)];
     obj [("Product", PStr "Mango"); ("Quantity", PInt 1)]]
    [obj [("Product", PStr ""); ("Quantity", PInt 1)];
     obj [("Product", PStr "Apple"); ("Quantity", PStr "two")]]
    (PFloat (Float.make 7 0)) _ (PInt 0) _ _ _); vm_compute; reflexivity.
Defined.

Lemma integer_sales_in_any_order_witness :
  calculate_total_cost
    (PList [obj [("title", PStr "Apple"); ("price", PInt 2)];
            obj [("title", PStr "Pear"); ("price", PInt 9)]])
    (PList [obj [("Product", PStr "Pear"); ("Quantity", PInt 1)];
            obj [("Product", PStr "Apple"); ("Quantity", PInt 4)]]) =
  Ok (PInt 17, []).
Proof.
  rewrite (integer_sales_in_any_order
    [obj [("title", PStr "Apple"); ("price", PInt 2)];
     obj [("title", PStr "Pear"); ("price", PInt 9)]]
    [obj [("Product", PStr "Apple"); ("Quantity", PInt 4)];
     obj [("Product", PStr "Pear"); ("Quantity", PInt 1)]]
    [obj [("Product", PStr "Pear"); ("Quantity", PInt 1)];
     obj [("Product", PStr "Apple"); ("Quantity", PInt 4)]]
    (<[HStr "Pear" := PInt 9]> (<[HStr "Apple" := PInt 2]> ∅)) eq_refl).
  - vm_compute. reflexivity.
  - repeat constructor; by eexists.
  - apply Permutation_swap.
Defined.

Lemma only_arithmetic_errors_escape_witness :
  calculate_total_cost
    (PList [obj [("title", PStr "Apple"); ("price", PFloat (Float.make 3 (-1)))]])
    (PList [obj [("Product", PStr "Apple"); ("Quantity", PInt (10 ^ 400))]]) =
  Raise OverflowError.
Proof.
  destruct (only_arithmetic_errors_escape
    [obj [("title", PStr "Apple"); ("price", PFloat (Float.make 3 (-1)))]]
    [obj [("Product", PStr "Apple"); ("Quantity", PInt (10 ^ 400))]])
    as [(total & errors & Hrun)|[Hrun|Hrun]].
  - repeat constructor; by eexists.
  - reflexivity.
  - vm_compute in Hrun. discriminate Hrun.
  - exact Hrun.
  - vm_compute in Hrun. discriminate Hrun.
Defined.

Lemma messages_are_of_three_kinds_witness :
  Forall is_message
    ["Warning: 'Mango' is not listed in the price catalogue.";
     "Warning: Sale record with a missing product name.";
     "Error: Invalid price format for 'Apple'."] ∧
  (3 ≤ 5)%nat.
Proof.
  exact (messages_are_of_three_kinds
    [obj [("title", PStr "Apple"); ("price", PFloat (Float.make 3 (-1)))];
     obj [("title", PStr "Banana"); ("price", PFloat (Float.make 1 (-1)))]]
    [obj [("Product", PStr "Apple"); ("Quantity", PInt 4)];
     obj [("Product", PStr "Banana"); ("Quantity", PInt 2)];
     obj [("Product", PStr "Mango"); ("Quantity", PInt 1)];
     obj [("Product", PStr ""); ("Quantity", PInt 1)];
     obj [("Product", PStr "Apple"); ("Quantity", PStr "two")]]
    (PFloat (Float.make 7 0))
    ["Warning: 'Mango' is not listed in the price catalogue.";
     "Warning: Sale record with a missing product name.";
     "Error: Invalid price format for 'Apple'."] eq_refl).
Defined.

Lemma catalogue_in_any_order_witness :
  calculate_total_cost
    (PList [obj [("title", PStr "Banana"); ("price", PFloat (Float.make 1 (-1)))];
            obj [("title", PStr "Apple"); ("price", PFloat (Float.make 3 (-1)))]])
    example_sales =
  calculate_total_cost example_catalogue example_sales.
Proof.
  refine (catalogue_in_any_order
    [obj [("title", PStr "Apple"); ("price", PFloat (Float.make 3 (-1)))];
     obj [("title", PStr "Banana"); ("price", PFloat (Float.make 1 (-1)))]]
    [obj [("title", PStr "Banana"); ("price", PFloat (Float.make 1 (-1)))];
     obj [("title", PStr "Apple"); ("price", PFloat (Float.make 3 (-1)))]]
    example_sales _ _ _).
  - repeat constructor; by eexists.
  - apply NoDup_cons. split; [|apply NoDup_singleton].
    intros Hin. apply list_elem_of_singleton in Hin. vm_compute in Hin.
    discriminate Hin.
  - apply Permutation_swap.
Defined.

Lemma total_is_int_or_float_witness :
  (∃ z, PInt 1 = PInt z) ∨ (∃ f, PInt 1 = PFloat f).
Proof.
  exact (total_is_int_or_float
    (PList [obj [("title", PStr "Apple"); ("price", PBool true)]])
    (PList [obj [("Product", PStr "Apple"); ("Quantity", PBool true)]])
    (PInt 1) [] eq_refl).
Defined.

Lemma object_documents_raise_witness :
  calculate_total_cost example_catalogue
    (PDict (<["Product" := PStr "Apple"]> (<["Quantity" := PInt 4]> ∅))) =
  Raise AttributeError.
Proof.
  refine (proj2 (object_documents_raise
    (<["Product" := PStr "Apple"]> (<["Quantity" := PInt 4]> ∅)) _)
    [obj [("title", PStr "Apple"); ("price", PFloat (Float.make 3 (-1)))];
     obj [("title", PStr "Banana"); ("price", PFloat (Float.make 1 (-1)))]] _).
  - apply insert_non_empty.
  - repeat constructor; by eexists.
Defined.

(** ** The claims that were amended *)

(** The claim C1 fails on records without anomaly whose product does not
    fit a float: 1.5 times 10^400 raises [OverflowError], and nothing is
    returned. *)
Lemma overflowing_product_raises :
  forallb
    (valid_sale (<[HStr "Apple" := PFloat (Float.make 3 (-1))]> ∅))
    [obj [("Product", PStr "Apple"); ("Quantity", PInt (10 ^ 400))]] = true ∧
  calculate_total_cost
    (PList [obj [("title", PStr "Apple"); ("price", PFloat (Float.make 3 (-1)))]])
    (PList [obj [("Product", PStr "Apple"); ("Quantity", PInt (10 ^ 400))]]) =
  Raise OverflowError.
Proof. split; vm_compute; reflexivity. Qed.

Lemma total_is_sum_unless_overflow_witness :
  calculate_total_cost example_catalogue
    (PList [obj [("Product", PStr "Apple"); ("Quantity", PInt 4)];
            obj [("Product", PStr "Banana"); ("Quantity", PInt 2)]]) =
  Ok (PFloat (Float.make 7 0), []).
Proof.
  refine (eq_trans (total_is_sum_unless_overflow
    [obj [("title", PStr "Apple"); ("price", PFloat (Float.make 3 (-1)))];
     obj [("title", PStr "Banana"); ("price", PFloat (Float.make 1 (-1)))]]
    [obj [("Product", PStr "Apple"); ("Quantity", PInt 4)];
     obj [("Product", PStr "Banana"); ("Quantity", PInt 2)]]
    (<[HStr "Banana" := PFloat (Float.make 1 (-1))]>
       (<[HStr "Apple" := PFloat (Float.make 3 (-1))]> ∅)) _ _) _);
    vm_compute; reflexivity.
Defined.



(** The claim C9 fails on well-formed records: an integer price of 10^400
    cannot be multiplied by the quantity 0.5, the call raises
    [OverflowError], and the record has neither of the two outcomes. *)
Lemma huge_integer_price_raises :
  Forall well_formed_item
    [obj [("title", PStr "Gold"); ("price", PInt (10 ^ 400))]] ∧
  forallb well_formed_sale
    [obj [("Product", PStr "Gold"); ("Quantity", PFloat (Float.make 1 (-1)))]] = true ∧
  calculate_total_cost
    (PList [obj [("title", PStr "Gold"); ("price", PInt (10 ^ 400))]])
    (PList [obj [("Product", PStr "Gold"); ("Quantity", PFloat (Float.make 1 (-1)))]]) =
  Raise OverflowError.
Proof.
  split; [|split].
  - repeat constructor. by eexists.
  - vm_compute. reflexivity.
  - vm_compute. reflexivity.
Qed.

Lemma one_outcome_per_record_witness :
  ∃ total,
    calculate_total_cost example_catalogue example_sales =
      Ok (number_value total,
          ["Warning: 'Mango' is not listed in the price catalogue.";
           "Warning: Sale record with a missing product name.";
           "Error: Invalid price format for 'Apple'."]) ∧
    accumulate (NInt 0)
      [(NFloat (Float.make 3 (-1)), NInt 4); (NFloat (Float.make 1 (-1)), NInt 2)] =
      Some total.
Proof.
  destruct (one_outcome_per_record
    [obj [("title", PStr "Apple"); ("price", PFloat (Float.make 3 (-1)))];
     obj [("title", PStr "Banana"); ("price", PFloat (Float.make 1 (-1)))]]
    [obj [("Product", PStr "Apple"); ("Quantity", PInt 4)];
     obj [("Product", PStr "Banana"); ("Quantity", PInt 2)];
     obj [("Product", PStr "Mango"); ("Quantity", PInt 1)];
     obj [("Product", PStr ""); ("Quantity", PInt 1)];
     obj [("Product", PStr "Apple"); ("Quantity", PStr "two")]])
    as [Hraise|[Hraise|(total & Hcall & Hsum & _)]].
  - repeat constructor; by eexists.
  - vm_compute. reflexivity.
  - vm_compute in Hraise. discriminate Hraise.
  - vm_compute in Hraise. discriminate Hraise.
  - exists total. split; [exact Hcall | exact Hsum].
Defined.

(** The claim C7 fails on a sales file that exists and holds valid JSON,
    the empty array: the run exits with status 1 although both files were
    loaded and parsed. *)
Lemma empty_sales_exit :
  read (example_system (Json (PList []))) "catalogue.json" = Json example_catalogue ∧
  read (example_system (Json (PList []))) "sales.json" = Json (PList []) ∧
  main (example_system (Json (PList []))) "catalogue.json" "sales.json"
    (Float.make 1 (-4)) =
  (Exit 1, []).
Proof. repeat split; vm_compute; reflexivity. Qed.

(** The run on the example: three messages, and it finishes. *)
Lemma main_exit_gate_witness :
  main (example_system (Json example_sales)) "catalogue.json" "sales.json"
    (Float.make 1 (-4)) =
  (Finished,
   report_trace "7.00" (Float.make 1 (-4))
     ["Warning: 'Mango' is not listed in the price catalogue.";
      "Warning: Sale record with a missing product name.";
      "Error: Invalid price format for 'Apple'."]).
Proof.
  pose proof (proj1 (proj2 (proj2 (proj2 (main_exit_gate
    (example_system (Json example_sales)) "catalogue.json" "sales.json"
    (Float.make 1 (-4))))))
    example_catalogue example_sales [] eq_refl eq_refl eq_refl) as Hrun.
  rewrite example_total in Hrun.
  change (py_format_f 2 (PFloat (Float.make 7 0))) with (Ok (A := string) "7.00") in Hrun.
  apply Hrun. intros trace op. reflexivity.
Defined.

Lemma results_file_is_console_text_witness :
  results_file_of
    (main (example_system (Json example_sales)) "catalogue.json" "sales.json"
       (Float.make 1 (-4))).2 =
  Some (stdout_of
    (main (example_system (Json example_sales)) "catalogue.json" "sales.json"
       (Float.make 1 (-4))).2).
Proof.
  destruct (results_file_is_console_text
    (example_system (Json example_sales)) "catalogue.json" "sales.json"
    (Float.make 1 (-4)))
    as (pc & sd & total_cost & errors & total & _ & _ & _ & _ & Hfile & Hout & _).
  - vm_compute. reflexivity.
  - rewrite Hfile, Hout. reflexivity.
Defined.

(** In the model a list on the left of [+=] is extended in place: the
    caller's list has changed. *)
Example store_iadd_extends :
  (store_iadd (Ref 3%positive) (Ref 9%positive) example_store).2 !! 3%positive =
  Some (OList [Ref 1%positive; Ref 2%positive; Ref 4%positive; Ref 5%positive;
               Ref 6%positive; Ref 7%positive; Ref 8%positive]).
Proof. vm_compute. reflexivity. Qed.

Lemma calculate_total_cost_deterministic_witness :
  let call := calculate_total_cost_on_store (Ref 3%positive) (Ref 9%positive) in
  (example_store ⊆ (call example_store).2 ∧
   value_of 2 (call (call example_store).2).2 (Ref 3%positive) = Some example_catalogue ∧
   value_of 2 (call (call example_store).2).2 (Ref 9%positive) = Some example_sales) ∧
  outcome_in (call example_store).2 (call example_store).1 =
    Some (Ok (PFloat (Float.make 7 0),
              ["Warning: 'Mango' is not listed in the price catalogue.";
               "Warning: Sale record with a missing product name.";
               "Error: Invalid price format for 'Apple'."])) ∧
  outcome_in (call (call example_store).2).2 (call example_store).1 =
  outcome_in (call (call example_store).2).2 (call (call example_store).2).1.
Proof.
  intros call.
  destruct (calculate_total_cost_deterministic ample_memory ample_memory
              example_store (call example_store).2 (call (call example_store).2).2
              (Ref 3%positive) (Ref 9%positive) (call example_store).1
              (call (call example_store).2).1)
    as [[Hσ1 Hσ2] Hvalues].
  - apply surjective_pairing.
  - apply surjective_pairing.
  - destruct (Hvalues 2%nat example_catalogue example_sales)
      as ([Hpc Hsd] & (Hout1 & Hout2 & Hkept) & _ & Hsame).
    + vm_compute. reflexivity.
    + vm_compute. reflexivity.
    + split; [split; [exact Hσ1 | split; [exact Hpc | exact Hsd]]|].
      split; [rewrite Hout1; vm_compute; reflexivity | by apply Hsame].
Defined.
